(** * dynet/io.cc: the text model file format, its writer and its scanning reader

    A shallow embedding of [TextFileSaver] and [TextFileLoader] together with
    the two key validators.  Strings are lists of characters, the output file
    is the list of characters written so far, the input file is a character
    list with a read position and the two state bits that the code depends
    on.  Calls end in an [outcome]: a return, an exception, or behaviour that
    C++ leaves undefined.  The loops that scan the file carry fuel, since a
    seek may move the read position backwards (section "Why the scans carry
    fuel").

    The definitions come first: strings and streams, the entities, the
    saver, the loader, then the notions of the spec used to state the
    properties (files made of records, positional assignment).  The
    properties follow; they are stated for any text form of vectors and
    shapes that obeys [text_laws], and run at the end on a decimal text
    form that does. *)

From Stdlib Require Import String Ascii NArith Arith Bool Lia List.
Import ListNotations.

Set Implicit Arguments.

(** ** Strings *)

Definition str := list ascii.

Definition lit (s : string) : str := list_ascii_of_string s.
Arguments lit s%_string.

Definition nl : ascii := ascii_of_nat 10.
Definition tab : ascii := ascii_of_nat 9.

Fixpoint str_eqb (a b : str) : bool :=
  match a, b with
  | [], [] => true
  | x :: a', y :: b' => Ascii.eqb x y && str_eqb a' b'
  | _, _ => false
  end.

(** [s.back()]: the last character; [None] where C++ leaves the access
    undefined (empty string). *)
Fixpoint back (s : str) : option ascii :=
  match s with
  | [] => None
  | [c] => Some c
  | _ :: s' => back s'
  end.

(** [s.substr(pos)]: throws [std::out_of_range] when [pos > s.size()]. *)
Definition substr_from (s : str) (pos : nat) : option str :=
  if pos <=? length s then Some (skipn pos s) else None.

(** [s.substr(0, n)]: position 0 is always in range. *)
Definition substr0 (s : str) (n : nat) : str := firstn n s.

(** Modelled from the spec: [startswith] of dynet/str-util.h is not part of
    the sources at hand; section 4.1 words it as "must start with". *)
Fixpoint startswith (s p : str) : bool :=
  match p, s with
  | [], _ => true
  | c :: p', d :: s' => Ascii.eqb c d && startswith s' p'
  | _ :: _, [] => false
  end.

(** [isspace] in the classic locale. *)
Definition isspace (c : ascii) : bool :=
  let n := nat_of_ascii c in
  (n =? 32) || ((9 <=? n) && (n <=? 13)).

Definition is_digit (c : ascii) : bool :=
  let n := nat_of_ascii c in (48 <=? n) && (n <=? 57).

Definition digit_val (c : ascii) : N := N_of_ascii c - 48.

Definition digit_char (d : N) : ascii := ascii_of_N (48 + d).

(** [span p s]: the longest prefix of [s] whose characters satisfy [p], and
    what follows it. *)
Fixpoint span (p : ascii -> bool) (s : str) : str * str :=
  match s with
  | [] => ([], [])
  | c :: s' => if p c then let (a, b) := span p s' in (c :: a, b)
               else ([], s)
  end.

(** ** Key validators (io.cc, lines 14 to 26) *)

Definition valid_key (s : str) : bool :=
  if length s =? 0 then true
  else if str_eqb s (lit "/") then false
  else
    match find (fun ch => Ascii.eqb ch " " || Ascii.eqb ch "#") s with
    | None => true
    | Some _ => false
    end.

Definition valid_pc_key (s : str) : bool :=
  if length s =? 0 then true
  else if negb (startswith s (lit "/")) then false
  else valid_key s.

(** ** Decimal output of unsigned integers ([ostream << size_t]) *)

Fixpoint put_digits (fuel : nat) (n : N) (acc : str) : str :=
  match fuel with
  | O => acc
  | S k =>
      let acc' := digit_char (n mod 10) :: acc in
      if (n / 10 =? 0)%N then acc' else put_digits k (n / 10) acc'
  end.

Definition put_N (n : N) : str :=
  put_digits (S (N.to_nat (N.log2 n))) n [].

(** ** Input string streams ([std::istringstream]) *)

Record isstream := {
  buf : str;           (* characters not yet extracted *)
  s_eof : bool;
  s_fail : bool
}.

Definition istringstream (line : str) : isstream :=
  {| buf := line; s_eof := false; s_fail := false |}.

Definition s_good (s : isstream) : bool := negb (s_eof s) && negb (s_fail s).

(** The sentry of a formatted extraction: skips white space when the stream
    is good; reaching the end while skipping sets both bits. *)
Definition sentry (s : isstream) : isstream * bool :=
  if s_good s then
    match snd (span isspace (buf s)) with
    | [] => ({| buf := []; s_eof := true; s_fail := true |}, false)
    | b => ({| buf := b; s_eof := false; s_fail := false |}, true)
    end
  else ({| buf := buf s; s_eof := s_eof s; s_fail := true |}, false).

(** [iss >> std::string]: the target keeps its old value when the sentry
    fails. *)
Definition get_string (s : isstream) (old : str) : isstream * str :=
  let (s1, ok) := sentry s in
  if ok then
    let (tok, rest) := span (fun c => negb (isspace c)) (buf s1) in
    ({| buf := rest;
        s_eof := match rest with [] => true | _ => false end;
        s_fail := false |}, tok)
  else (s1, old).

Definition size_t_max : N := 18446744073709551615.
Definition size_t_mod : N := 18446744073709551616.

Definition digits_value (ds : str) : N :=
  fold_left (fun a c => (a * 10 + digit_val c)%N) ds 0%N.

(** [iss >> size_t] ([num_get] for an unsigned type, base ten): an optional
    sign, then digits.  No digit stores 0, a value that does not fit stores
    the maximum, both with [failbit]; after a minus sign the value is
    subtracted from 2^64. *)
Definition get_size_t (s : isstream) (old : N) : isstream * N :=
  let (s1, ok) := sentry s in
  if ok then
    let (neg, b1) :=
      match buf s1 with
      | c :: b' =>
          if Ascii.eqb c "-" then (true, b')
          else if Ascii.eqb c "+" then (false, b')
          else (false, buf s1)
      | [] => (false, [])
      end in
    let (ds, rest) := span is_digit b1 in
    let at_end := match rest with [] => true | _ => false end in
    match ds with
    | [] => ({| buf := rest; s_eof := at_end; s_fail := true |}, 0%N)
    | _ =>
        let n := digits_value ds in
        if (n <=? size_t_max)%N then
          ({| buf := rest; s_eof := at_end; s_fail := false |},
           if neg then ((size_t_mod - n) mod size_t_mod)%N else n)
        else ({| buf := rest; s_eof := at_end; s_fail := true |}, size_t_max)
    end
  else (s1, old).

(** ** Input file streams ([std::ifstream]) *)

Record ifstream := {
  content : str;
  gpos : N;            (* read position *)
  eofbit : bool;
  failbit : bool
}.

Definition good (f : ifstream) : bool := negb (eofbit f) && negb (failbit f).

Definition set_fail (f : ifstream) : ifstream :=
  {| content := content f; gpos := gpos f; eofbit := eofbit f; failbit := true |}.

(** [std::getline(f, line)]: the new stream, the new value of [line] and the
    truth value of the stream afterwards.  A stream that is not good only
    gets [failbit]; at the end of the data the line is erased and both bits
    are set; a last line without terminator is returned with [eofbit]. *)
Definition getline (f : ifstream) (line : str) : ifstream * str * bool :=
  if good f then
    match skipn (N.to_nat (gpos f)) (content f) with
    | [] =>
        ({| content := content f; gpos := gpos f;
            eofbit := true; failbit := true |}, [], false)
    | rest =>
        let (l, tl) := span (fun c => negb (Ascii.eqb c nl)) rest in
        match tl with
        | [] =>
            ({| content := content f;
                gpos := (gpos f + N.of_nat (length l))%N;
                eofbit := true; failbit := false |}, l, true)
        | _ :: _ =>
            ({| content := content f;
                gpos := (gpos f + N.of_nat (length l) + 1)%N;
                eofbit := false; failbit := false |}, l, true)
        end
    end
  else (set_fail f, line, false).

(** [static_cast<size_t>(f.tellg())]: the position, or -1 (as a [size_t])
    with [failbit] when the stream is not good. *)
Definition tellg (f : ifstream) : ifstream * N :=
  if good f then (f, gpos f) else (set_fail f, size_t_max).

(** [f.seekg(offset)] with a [size_t] offset: clears [eofbit]; does nothing
    on a failed stream; an offset that is negative as a stream offset (from
    2^63 on) fails. *)
Definition seekg (f : ifstream) (offset : N) : ifstream :=
  if failbit f then
    {| content := content f; gpos := gpos f; eofbit := false; failbit := true |}
  else if (offset <? 9223372036854775808)%N then
    {| content := content f; gpos := offset; eofbit := false; failbit := false |}
  else
    {| content := content f; gpos := gpos f; eofbit := false; failbit := true |}.

(** The skip of the readers:
    [offset = static_cast<size_t>(f.tellg()) + byte_count; f.seekg(offset)],
    the sum taken modulo 2^64. *)
Definition skip_payload (f : ifstream) (byte_count : N) : ifstream :=
  let (f1, p) := tellg f in
  seekg f1 ((p + byte_count) mod size_t_mod)%N.

(** ** Errors and outcomes *)

Inductive exn : Type :=
| runtime_error (what : str)       (* DYNET_RUNTIME_ERR *)
| invalid_argument (what : str)    (* DYNET_INVALID_ARG *)
| out_of_range.                    (* thrown by std::string::substr *)

(** How a call ends: it returns, it throws, or it runs into behaviour that
    C++ leaves undefined. *)
Inductive outcome (A : Type) : Type :=
| Ret (a : A)
| Throw (e : exn)
| Undefined.
Arguments Ret {A} a.
Arguments Throw {A} e.
Arguments Undefined {A}.

(** ** Shapes *)

(** Modelled from the spec: [Dim] (dynet/dim.h) is not part of the sources at
    hand; section 3 describes a shape as an ordered sequence of extents whose
    element count is their product. *)
Definition Dim := list N.

(** Modelled from the spec: [Dim::size()], "total element count is the
    product of dimensions" (section 3). *)
Definition dim_size (d : Dim) : N := fold_right N.mul 1%N d.

Fixpoint dim_eqb (a b : Dim) : bool :=
  match a, b with
  | [], [] => true
  | x :: a', y :: b' => N.eqb x y && dim_eqb a' b'
  | _, _ => false
  end.

(** [size = dim[dim.nd-1]; dim.nd--]: the last extent and the shape without
    it; [None] for a shape without extents, where the index is out of range. *)
Fixpoint split_last (d : Dim) : option (Dim * N) :=
  match d with
  | [] => None
  | [n] => Some ([], n)
  | x :: d' =>
      match split_last d' with
      | Some (r, n) => Some (x :: r, n)
      | None => None
      end
  end.

Definition FLOAT32_PRECISION : nat := 8.

Definition set_nth {A} (i : nat) (x : A) (l : list A) : list A :=
  firstn i l ++ match skipn i l with [] => [] | _ :: t => x :: t end.

(** The four header fields as the readers keep them between iterations. *)
Record header := {
  h_type : str;
  h_name : str;
  h_dim : Dim;
  h_byte_count : N
}.

Definition header0 : header :=
  {| h_type := []; h_name := []; h_dim := []; h_byte_count := 0 |}.

Definition open (file : str) : ifstream :=
  {| content := file; gpos := 0; eofbit := false; failbit := false |}.

(** ** A text form for shapes and whole numbers

    Modelled from the spec: the insertion and extraction operators of [Dim]
    and of [vector<float>] are not part of the sources at hand.  Section 6
    gives the shape as "{d0,d1,...}" and a vector as one line of
    "whitespace-delimited" numbers.  The instance below writes shapes that
    way and covers the numbers that print without sign, point or exponent
    (whole numbers, which [float] text output at precision 8 prints as plain
    digits while they have at most eight of them).  It is used to run the
    model on concrete files and to show that the assumptions made about the
    text form can be met. *)

Module DecimalText.

Fixpoint join (sep : ascii) (l : list str) : str :=
  match l with
  | [] => []
  | [x] => x
  | x :: l' => x ++ sep :: join sep l'
  end.

(** Modelled from the spec: the insertion operator of [Dim] (dynet/dim.cc);
    section 6 writes a shape as the extents between braces, separated by
    commas. *)
Definition put_dim (d : Dim) : str :=
  "{"%char :: join "," (map put_N d) ++ ["}"%char].

(** The extents after the opening brace, up to the closing one. *)
Fixpoint get_extents (fuel : nat) (b : str) : option (Dim * str) :=
  match fuel with
  | O => None
  | S k =>
      let (ds, rest) := span is_digit b in
      match ds, rest with
      | _ :: _, c :: rest' =>
          if Ascii.eqb c "}" then Some ([digits_value ds], rest')
          else if Ascii.eqb c "," then
            match get_extents k rest' with
            | Some (d, r) => Some (digits_value ds :: d, r)
            | None => None
            end
          else None
      | _, _ => None
      end
  end.

(** Modelled from the spec: the extraction operator of [Dim]
    (dynet/dim.cc), reading the form that [put_dim] writes; on any other
    input the stream fails and the shape keeps its value. *)
Definition get_dim (s : isstream) (old : Dim) : isstream * Dim :=
  let (s1, ok) := sentry s in
  if ok then
    let failed := ({| buf := buf s1; s_eof := false; s_fail := true |}, old) in
    match buf s1 with
    | c :: b =>
        if Ascii.eqb c "{" then
          match b with
          | c' :: rest =>
              if Ascii.eqb c' "}" then
                ({| buf := rest; s_eof := false; s_fail := false |}, [])
              else
                match get_extents (length b) b with
                | Some (d, r) =>
                    ({| buf := r; s_eof := false; s_fail := false |}, d)
                | None => failed
                end
          | [] => failed
          end
        else failed
    | [] => failed
    end
  else (s1, old).

(** Modelled from the spec: the insertion operator of [vector<float>]
    (dynet/io.h) on whole numbers; section 6 writes a vector as one line of
    numbers separated by white space. *)
Definition put_floats (prec : nat) (v : list N) : str :=
  join " " (map put_N v).

(** The numbers of a line, read one after the other until an extraction
    fails. *)
Fixpoint get_numbers (fuel : nat) (s : isstream) : list N :=
  match fuel with
  | O => []
  | S k =>
      let (s1, ok) := sentry s in
      if ok then
        let (ds, rest) := span is_digit (buf s1) in
        match ds with
        | [] => []
        | _ =>
            digits_value ds ::
            get_numbers k {| buf := rest;
                             s_eof := match rest with [] => true | _ => false end;
                             s_fail := false |}
        end
      else []
  end.

(** Modelled from the spec: the extraction operator of [vector<float>]
    (dynet/io.h) on whole numbers.  The numbers read overwrite the vector
    from its first element on; the vector keeps its length. *)
Definition get_floats (line : str) (old : list N) : list N :=
  let xs := firstn (length old)
                   (get_numbers (S (length line)) (istringstream line)) in
  xs ++ skipn (length xs) old.

End DecimalText.

Section TextIO.

(** The number type of the tensors and the text form of vectors and shapes
    are defined outside io.cc (dynet/io.h, dynet/dim.cc); they are taken as
    parameters.  [put_floats prec v] is what [os << v] writes at precision
    [prec]; [get_floats line v] is the content of [v] after
    [istringstream iss(line); iss >> v]; [put_dim] and [get_dim] are the
    insertion and extraction operators of [Dim]. *)
Variable float : Type.
Variable fzero : float.
Variable put_floats : nat -> list float -> str.
Variable get_floats : str -> list float -> list float.
Variable put_dim : Dim -> str.
Variable get_dim : isstream -> Dim -> isstream * Dim.

(** ** Entities *)

Record ParameterStorage := {
  name : str;
  dim : Dim;
  values : list float;
  g : list float
}.

Record LookupParameterStorage := {
  lp_name : str;
  all_dim : Dim;
  all_values : list float;
  all_grads : list float
}.

Record ParameterCollectionStorage := {
  params : list ParameterStorage;
  lookup_params : list LookupParameterStorage
}.

Record ParameterCollection := {
  get_storage : ParameterCollectionStorage;
  get_fullname : str
}.

(** Modelled from the spec: [as_vector] and [TensorTools::set_elements]
    (dynet/tensor.h) are not part of the sources at hand.  Section 6 asks for
    tensors that are read as a flat sequence and support "bulk element-wise
    overwrite from a flat numeric sequence of matching length"; the elements
    beyond the length of the sequence, if any, are kept. *)
Definition as_vector (t : list float) : list float := t.

(** Modelled from the spec: [TensorTools::set_elements] (dynet/tensor.h),
    the bulk overwrite of section 6 just described. *)
Definition set_elements (t vec : list float) : list float :=
  vec ++ skipn (length vec) t.

(** [vector<float> values(n)] and [values.resize(n)]. *)
Definition new_values (n : N) : list float := repeat fzero (N.to_nat n).

Definition resize (v : list float) (n : N) : list float :=
  firstn (N.to_nat n) v ++ repeat fzero (N.to_nat n - length v).

(** Modelled from the spec: the factory operations of the model
    ([add_parameters], [add_lookup_parameters] of dynet/model.cc) are not
    part of the sources at hand.  Section 6: "allocate a new Parameter of a
    given shape; allocate a new Lookup Parameter given row count and per-row
    shape", the row count being the last extent of the stored shape
    (section 3).  The new entity is appended and its position is the handle;
    name and contents of a new entity are left open by the spec and are
    overwritten by the loaders, the model starts them empty and zero. *)
Definition add_parameters (m : ParameterCollection) (d : Dim)
  : ParameterCollection * nat :=
  let st := get_storage m in
  ({| get_storage :=
        {| params := params st ++
                     [{| name := []; dim := d;
                         values := new_values (dim_size d);
                         g := new_values (dim_size d) |}];
           lookup_params := lookup_params st |};
      get_fullname := get_fullname m |},
   length (params st)).

(** Modelled from the spec: [add_lookup_parameters] (dynet/model.cc), as
    described for [add_parameters]; the shape stored is the shape of a row
    followed by the number of rows. *)
Definition add_lookup_parameters (m : ParameterCollection) (size : N) (d : Dim)
  : ParameterCollection * nat :=
  let st := get_storage m in
  ({| get_storage :=
        {| params := params st;
           lookup_params := lookup_params st ++
                     [{| lp_name := []; all_dim := d ++ [size];
                         all_values := new_values (dim_size (d ++ [size]));
                         all_grads := new_values (dim_size (d ++ [size])) |}] |};
      get_fullname := get_fullname m |},
   length (lookup_params st)).

(** ** TextFileSaver (io.cc, lines 34 to 86)

    The saver is its [datastream]: the characters written so far. *)

Definition save_ps (datastream : str) (p : ParameterStorage) (key : str) : str :=
  let buffer :=
    put_floats FLOAT32_PRECISION (as_vector (values p)) ++ [nl] ++
    put_floats FLOAT32_PRECISION (as_vector (g p)) ++ [nl] in
  datastream ++ lit "#Parameter# "
    ++ (if 0 <? length key then key else name p) ++ lit " "
    ++ put_dim (dim p) ++ lit " "
    ++ put_N (N.of_nat (length buffer)) ++ [nl]
    ++ buffer.

Definition save_lps (datastream : str) (p : LookupParameterStorage) (key : str)
  : str :=
  let buffer :=
    put_floats FLOAT32_PRECISION (as_vector (all_values p)) ++ [nl] ++
    put_floats FLOAT32_PRECISION (as_vector (all_grads p)) ++ [nl] in
  datastream ++ lit "#LookupParameter# "
    ++ (if 0 <? length key then key else lp_name p) ++ lit " "
    ++ put_dim (all_dim p) ++ lit " "
    ++ put_N (N.of_nat (length buffer)) ++ [nl]
    ++ buffer.

(** The range-for loops of the whole-model save, each entity saved under
    [key_ + p->name.substr(strip_size)]: the output written before [substr]
    throws stays written. *)
Fixpoint save_each {A} (save : str -> A -> str -> str) (nm : A -> str)
    (key_ : str) (strip_size : nat) (datastream : str) (ps : list A)
  : str * outcome unit :=
  match ps with
  | [] => (datastream, Ret tt)
  | p :: ps' =>
      match substr_from (nm p) strip_size with
      | None => (datastream, Throw out_of_range)
      | Some rest =>
          save_each save nm key_ strip_size
                    (save datastream p (key_ ++ rest)) ps'
      end
  end.

Definition save_pc (datastream : str) (model : ParameterCollection) (key : str)
  : str * outcome unit :=
  if negb (valid_pc_key key) then
    (datastream,
     Throw (invalid_argument
       (lit "Key should start with '/' and could not include ' ' or '#': "
        ++ key)))
  else
    match back key with
    | None => (datastream, Undefined)           (* key_.back() on the empty key *)
    | Some c =>
        let key_ := if negb (Ascii.eqb c "/") then key ++ lit "/" else key in
        let storage := get_storage model in
        if length key =? 0 then
          let d1 := fold_left (fun d p => save_ps d p key)
                              (params storage) datastream in
          let d2 := fold_left (fun d p => save_lps d p key)
                              (lookup_params storage) d1 in
          (d2, Ret tt)
        else
          let strip_size := length (get_fullname model) in
          match save_each save_ps name key_ strip_size datastream
                          (params storage) with
          | (d1, Ret _) =>
              save_each save_lps lp_name key_ strip_size d1
                        (lookup_params storage)
          | r => r
          end
    end.

Definition save_param (datastream : str) (param : ParameterStorage) (key : str)
  : str * outcome unit :=
  if negb (valid_key key) then
    (datastream,
     Throw (invalid_argument
       (lit "Key could not include ' ' or '#': " ++ key)))
  else (save_ps datastream param key, Ret tt).

Definition save_lookup (datastream : str) (param : LookupParameterStorage)
    (key : str) : str * outcome unit :=
  if negb (valid_key key) then
    (datastream,
     Throw (invalid_argument
       (lit "Key could not include ' ' or '#': " ++ key)))
  else (save_lps datastream param key, Ret tt).

(** ** TextFileLoader (io.cc, lines 88 to 257)

    The loader holds the file name; [disk] is what opening that name for
    reading yields at the time of the call, [None] when it cannot be
    opened. *)

Record TextFileLoader := {
  dataname : str;
  disk : option str
}.

(** [{ istringstream iss(line); iss >> type >> name >> dim >> byte_count; }]
    No extraction is checked: a field that cannot be read keeps the value of
    the previous iteration. *)
Definition read_header (line : str) (h : header) : header :=
  let iss := istringstream line in
  let (iss1, type) := get_string iss (h_type h) in
  let (iss2, nm) := get_string iss1 (h_name h) in
  let (iss3, d) := get_dim iss2 (h_dim h) in
  let (_, bc) := get_size_t iss3 (h_byte_count h) in
  {| h_type := type; h_name := nm; h_dim := d; h_byte_count := bc |}.

(** [{ getline(datastream, line); istringstream iss(line); iss >> values; }]
    The result of [getline] is not looked at. *)
Definition read_values (f : ifstream) (line : str) (vals : list float)
  : ifstream * str * list float :=
  let '(f1, line1, _) := getline f line in
  (f1, line1, get_floats line1 vals).

Definition cannot_read (ld : TextFileLoader) : exn :=
  runtime_error (lit "Could not read model from " ++ dataname ld).

Definition not_found (key : str) : exn :=
  runtime_error (lit "Could not find key " ++ key ++ lit " in the model file").

(** *** populate(ParameterCollection&, key) *)

Record pc_vars := {
  v_stream : ifstream;
  v_line : str;
  v_header : header;
  v_values : list float;
  v_param_id : nat;
  v_lookup_id : nat;
  v_storage : ParameterCollectionStorage
}.

Definition too_many_params (nm : str) : exn :=
  runtime_error (lit "Too many parameters to load in populated model at " ++ nm).

Definition too_many_lookups (nm : str) : exn :=
  runtime_error (lit "Too many lookup parameters in populated model at " ++ nm).

Definition param_dim_mismatch (nm : str) (file_dim param_dim : Dim) : exn :=
  runtime_error
    (lit "Dimensions of parameter " ++ nm ++ lit " looked up from file ("
     ++ put_dim file_dim
     ++ lit ") do not match parameters to be populated ("
     ++ put_dim param_dim ++ lit ")").

Definition lookup_dim_mismatch (nm : str) (file_dim param_dim : Dim) : exn :=
  runtime_error
    (lit "Dimensions of lookup parameter " ++ nm ++ lit " lookup up from file ("
     ++ put_dim file_dim
     ++ lit ") do not match parameters to be populated ("
     ++ put_dim param_dim ++ lit ")").

Definition bad_specification (line : str) : exn :=
  runtime_error (lit "Bad parameter specification in model: " ++ line).

Definition count_mismatch (param_id lookup_id n_params n_lookups : nat) : exn :=
  runtime_error
    (lit "Number of parameter/lookup parameter objects loaded from file ("
     ++ put_N (N.of_nat param_id) ++ lit "/" ++ put_N (N.of_nat lookup_id)
     ++ lit ") did not match number to be populated ("
     ++ put_N (N.of_nat n_params) ++ lit "/" ++ put_N (N.of_nat n_lookups)
     ++ lit ")").

(** One turn of the while loop of lines 103 to 139: the loop goes on with
    new values of the variables, or it is left, by the failing [getline] of
    its condition ([Ret]) or by an error. *)
Inductive turn : Type :=
| Continue (v : pc_vars)
| Leave (v : pc_vars) (o : outcome unit).

Definition populate_pc_body (key key_ : str) (v : pc_vars) : turn :=
  let '(f1, line1, ok) := getline (v_stream v) (v_line v) in
  if negb ok then
    Leave {| v_stream := f1; v_line := line1; v_header := v_header v;
             v_values := v_values v; v_param_id := v_param_id v;
             v_lookup_id := v_lookup_id v; v_storage := v_storage v |}
          (Ret tt)
  else
    let h := read_header line1 (v_header v) in
    let storage := v_storage v in
    if negb (length key =? 0)
       && negb (str_eqb (substr0 (h_name h) (length key_)) key_) then
      (* skip ones that don't match *)
      Continue
        {| v_stream := skip_payload f1 (h_byte_count h);
           v_line := line1; v_header := h;
           v_values := v_values v; v_param_id := v_param_id v;
           v_lookup_id := v_lookup_id v; v_storage := storage |}
    else if str_eqb (h_type h) (lit "#Parameter#") then
      (* load a parameter *)
      let vals := resize (v_values v) (dim_size (h_dim h)) in
      let stop pid e :=
        Leave {| v_stream := f1; v_line := line1; v_header := h;
                 v_values := vals; v_param_id := pid;
                 v_lookup_id := v_lookup_id v; v_storage := storage |} e in
      if length (params storage) <=? v_param_id v then
        stop (v_param_id v) (Throw (too_many_params (h_name h)))
      else
        match nth_error (params storage) (v_param_id v) with
        | None => stop (v_param_id v) Undefined
        | Some param =>
          if negb (dim_eqb (dim param) (h_dim h)) then
            stop (S (v_param_id v))
                 (Throw (param_dim_mismatch (h_name h) (h_dim h) (dim param)))
          else
            let '(f2, line2, vals2) := read_values f1 line1 vals in
            let param1 :=
              {| name := name param; dim := dim param;
                 values := set_elements (values param) vals2;
                 g := g param |} in
            let '(f3, line3, vals3) := read_values f2 line2 vals2 in
            let param2 :=
              {| name := name param1; dim := dim param1;
                 values := values param1;
                 g := set_elements (g param1) vals3 |} in
            Continue
              {| v_stream := f3; v_line := line3; v_header := h;
                 v_values := vals3; v_param_id := S (v_param_id v);
                 v_lookup_id := v_lookup_id v;
                 v_storage :=
                   {| params := set_nth (v_param_id v) param2 (params storage);
                      lookup_params := lookup_params storage |} |}
        end
    else if str_eqb (h_type h) (lit "#LookupParameter#") then
      (* load a lookup parameter *)
      let vals := resize (v_values v) (dim_size (h_dim h)) in
      let stop lid e :=
        Leave {| v_stream := f1; v_line := line1; v_header := h;
                 v_values := vals; v_param_id := v_param_id v;
                 v_lookup_id := lid; v_storage := storage |} e in
      if length (lookup_params storage) <=? v_lookup_id v then
        stop (v_lookup_id v) (Throw (too_many_lookups (h_name h)))
      else
        match nth_error (lookup_params storage) (v_lookup_id v) with
        | None => stop (v_lookup_id v) Undefined
        | Some param =>
          if negb (dim_eqb (all_dim param) (h_dim h)) then
            stop (S (v_lookup_id v))
                 (Throw (lookup_dim_mismatch (h_name h) (h_dim h)
                                             (all_dim param)))
          else
            let '(f2, line2, vals2) := read_values f1 line1 vals in
            let param1 :=
              {| lp_name := lp_name param; all_dim := all_dim param;
                 all_values := set_elements (all_values param) vals2;
                 all_grads := all_grads param |} in
            let '(f3, line3, vals3) := read_values f2 line2 vals2 in
            let param2 :=
              {| lp_name := lp_name param1; all_dim := all_dim param1;
                 all_values := all_values param1;
                 all_grads := set_elements (all_grads param1) vals3 |} in
            Continue
              {| v_stream := f3; v_line := line3; v_header := h;
                 v_values := vals3; v_param_id := v_param_id v;
                 v_lookup_id := S (v_lookup_id v);
                 v_storage :=
                   {| params := params storage;
                      lookup_params :=
                        set_nth (v_lookup_id v) param2
                                (lookup_params storage) |} |}
        end
    else
      Leave {| v_stream := f1; v_line := line1; v_header := h;
               v_values := v_values v; v_param_id := v_param_id v;
               v_lookup_id := v_lookup_id v; v_storage := storage |}
            (Throw (bad_specification line1)).

(** The loop: the variables as they are when it is left, and how it is
    left. *)
Fixpoint populate_pc_loop (key key_ : str) (fuel : nat) (v : pc_vars)
  : option (pc_vars * outcome unit) :=
  match fuel with
  | O => None
  | S fuel' =>
      match populate_pc_body key key_ v with
      | Continue v' => populate_pc_loop key key_ fuel' v'
      | Leave v' o => Some (v', o)
      end
  end.

(** The whole call: the storage of the model as the call leaves it, and how
    the call ends; [None] when the fuel does not suffice. *)
Definition populate_pc (ld : TextFileLoader) (fuel : nat)
    (storage : ParameterCollectionStorage) (key : str)
  : option (ParameterCollectionStorage * outcome unit) :=
  match disk ld with
  | None => Some (storage, Throw (cannot_read ld))
  | Some file =>
    match back key with
    | None => Some (storage, Undefined)         (* key_.back() on the empty key *)
    | Some c =>
      let key_ := if negb (Ascii.eqb c "/") then key ++ lit "/" else key in
      match populate_pc_loop key key_ fuel
              {| v_stream := open file; v_line := []; v_header := header0;
                 v_values := []; v_param_id := 0; v_lookup_id := 0;
                 v_storage := storage |} with
      | None => None
      | Some (v, Ret _) =>
          if negb (v_param_id v =? length (params (v_storage v)))
             || negb (v_lookup_id v =? length (lookup_params (v_storage v)))
          then Some (v_storage v,
                     Throw (count_mismatch (v_param_id v) (v_lookup_id v)
                              (length (params (v_storage v)))
                              (length (lookup_params (v_storage v)))))
          else Some (v_storage v, Ret tt)
      | Some (v, e) => Some (v_storage v, e)
      end
    end
  end.

(** *** The four readers of a single entity

    Lines 146 to 257 repeat one loop four times; only the tag compared with
    and the statements run at the matching header differ.  [scan_loop] is
    that loop, [on_match] the statements of the matching branch, which end
    the call.  The stream is returned with the result so that statements can
    say how far the scan went. *)

Section Scan.

Variables (St R : Type).
Variable tag : str.
Variable key : str.
Variable on_match : ifstream -> str -> header -> St -> ifstream * St * outcome R.

Fixpoint scan_loop (fuel : nat) (f : ifstream) (line : str) (h : header)
    (s : St) : option (ifstream * St * outcome R) :=
  match fuel with
  | O => None
  | S fuel' =>
    let '(f1, line1, ok) := getline f line in
    if ok then
      let h1 := read_header line1 h in
      if str_eqb (h_type h1) tag && str_eqb (h_name h1) key then
        Some (on_match f1 line1 h1 s)
      else
        scan_loop fuel' (skip_payload f1 (h_byte_count h1)) line1 h1 s
    else
      (* the loop is left; the statement after it throws *)
      Some (f1, s, Throw (not_found key))
  end.

(** The frame shared by the four readers: the test of the key, the opening
    of the file, the loop. *)
Definition scan (what : str) (ld : TextFileLoader) (fuel : nat) (s : St)
  : option (ifstream * St * outcome R) :=
  if str_eqb key [] then
    Some (open [], s,
          Throw (invalid_argument (what ++ lit " requires non-empty key")))
  else
    match disk ld with
    | None => Some (open [], s, Throw (cannot_read ld))
    | Some file => scan_loop fuel (open file) [] header0 s
    end.

End Scan.

(** Lines 158 to 165. *)
Definition populate_param_match (f : ifstream) (line : str) (h : header)
    (param : ParameterStorage) : ifstream * ParameterStorage * outcome unit :=
  if negb (dim_eqb (dim param) (h_dim h)) then
    (f, param,
     Throw (runtime_error
       (lit "Attempted to populate parameter where arguments don't match ("
        ++ put_dim (dim param) ++ lit " != " ++ put_dim (h_dim h) ++ lit ")")))
  else
    let vals := new_values (dim_size (h_dim h)) in
    let '(f2, line2, vals2) := read_values f line vals in
    let param1 :=
      {| name := name param; dim := dim param;
         values := set_elements (values param) vals2; g := g param |} in
    let '(f3, line3, vals3) := read_values f2 line2 vals2 in
    let param2 :=
      {| name := name param1; dim := dim param1; values := values param1;
         g := set_elements (g param1) vals3 |} in
    (f3, param2, Ret tt).

Definition populate_param (ld : TextFileLoader) (fuel : nat)
    (param : ParameterStorage) (key : str) :=
  scan (lit "#Parameter#") key populate_param_match
       (lit "TextFileLoader.populate()") ld fuel param.

(** Lines 186 to 193. *)
Definition populate_lookup_match (f : ifstream) (line : str) (h : header)
    (lookup_param : LookupParameterStorage)
  : ifstream * LookupParameterStorage * outcome unit :=
  if negb (dim_eqb (all_dim lookup_param) (h_dim h)) then
    (f, lookup_param,
     Throw (runtime_error
       (lit "Attempted to populate lookup parameter where arguments don't match ("
        ++ put_dim (all_dim lookup_param) ++ lit " != " ++ put_dim (h_dim h)
        ++ lit ")")))
  else
    let vals := new_values (dim_size (h_dim h)) in
    let '(f2, line2, vals2) := read_values f line vals in
    let p1 :=
      {| lp_name := lp_name lookup_param; all_dim := all_dim lookup_param;
         all_values := set_elements (all_values lookup_param) vals2;
         all_grads := all_grads lookup_param |} in
    let '(f3, line3, vals3) := read_values f2 line2 vals2 in
    let p2 :=
      {| lp_name := lp_name p1; all_dim := all_dim p1;
         all_values := all_values p1;
         all_grads := set_elements (all_grads p1) vals3 |} in
    (f3, p2, Ret tt).

Definition populate_lookup (ld : TextFileLoader) (fuel : nat)
    (lookup_param : LookupParameterStorage) (key : str) :=
  scan (lit "#LookupParameter#") key populate_lookup_match
       (lit "TextFileLoader.populate()") ld fuel lookup_param.

(** Writing through a handle returned by a factory operation. *)
Definition update_param (m : ParameterCollection) (i : nat)
    (upd : ParameterStorage -> ParameterStorage) : ParameterCollection :=
  let st := get_storage m in
  {| get_storage :=
       {| params := match nth_error (params st) i with
                    | Some p => set_nth i (upd p) (params st)
                    | None => params st
                    end;
          lookup_params := lookup_params st |};
     get_fullname := get_fullname m |}.

Definition update_lookup (m : ParameterCollection) (i : nat)
    (upd : LookupParameterStorage -> LookupParameterStorage)
  : ParameterCollection :=
  let st := get_storage m in
  {| get_storage :=
       {| params := params st;
          lookup_params := match nth_error (lookup_params st) i with
                           | Some p => set_nth i (upd p) (lookup_params st)
                           | None => lookup_params st
                           end |};
     get_fullname := get_fullname m |}.

(** Lines 214 to 221; the result is the handle of the new Parameter. *)
Definition load_param_match (f : ifstream) (line : str) (h : header)
    (model : ParameterCollection)
  : ifstream * ParameterCollection * outcome nat :=
  let (m1, param) := add_parameters model (h_dim h) in
  let m2 := update_param m1 param (fun p =>
    {| name := h_name h; dim := dim p; values := values p; g := g p |}) in
  let vals := new_values (dim_size (h_dim h)) in
  let '(f2, line2, vals2) := read_values f line vals in
  let m3 := update_param m2 param (fun p =>
    {| name := name p; dim := dim p;
       values := set_elements (values p) vals2; g := g p |}) in
  let '(f3, line3, vals3) := read_values f2 line2 vals2 in
  let m4 := update_param m3 param (fun p =>
    {| name := name p; dim := dim p; values := values p;
       g := set_elements (g p) vals3 |}) in
  (f3, m4, Ret param).

Definition load_param (ld : TextFileLoader) (fuel : nat)
    (model : ParameterCollection) (key : str) :=
  scan (lit "#Parameter#") key load_param_match
       (lit "TextFileLoader.load_param()") ld fuel model.

(** Lines 242 to 250; the result is the handle of the new Lookup
    Parameter. *)
Definition load_lookup_param_match (f : ifstream) (line : str) (h : header)
    (model : ParameterCollection)
  : ifstream * ParameterCollection * outcome nat :=
  let vals := new_values (dim_size (h_dim h)) in
  match split_last (h_dim h) with
  | None => (f, model, Undefined)               (* dim[dim.nd-1] without extents *)
  | Some (d, size) =>
    let (m1, lookup_param) := add_lookup_parameters model size d in
    let m2 := update_lookup m1 lookup_param (fun p =>
      {| lp_name := h_name h; all_dim := all_dim p;
         all_values := all_values p; all_grads := all_grads p |}) in
    let '(f2, line2, vals2) := read_values f line vals in
    let m3 := update_lookup m2 lookup_param (fun p =>
      {| lp_name := lp_name p; all_dim := all_dim p;
         all_values := set_elements (all_values p) vals2;
         all_grads := all_grads p |}) in
    let '(f3, line3, vals3) := read_values f2 line2 vals2 in
    let m4 := update_lookup m3 lookup_param (fun p =>
      {| lp_name := lp_name p; all_dim := all_dim p;
         all_values := all_values p;
         all_grads := set_elements (all_grads p) vals3 |}) in
    (f3, m4, Ret lookup_param)
  end.

Definition load_lookup_param (ld : TextFileLoader) (fuel : nat)
    (model : ParameterCollection) (key : str) :=
  scan (lit "#LookupParameter#") key load_lookup_param_match
       (lit "TextFileLoader.load_lookup_param()") ld fuel model.

(** ** Files made of records (spec, sections 3 and 6)

    A record is a header line with the four fields and a payload of exactly
    the announced number of characters.  The payload is either the two
    vector lines that the saver writes, or any characters at all: the
    readers must get past a record that they skip whatever its payload
    holds. *)

Inductive payload : Type :=
| Vectors (v gr : list float)
| Raw (bytes : str).

Record frecord := {
  r_tag : str;
  r_key : str;
  r_dim : Dim;
  r_payload : payload
}.

Definition payload_text (p : payload) : str :=
  match p with
  | Vectors v gr =>
      put_floats FLOAT32_PRECISION v ++ [nl] ++
      put_floats FLOAT32_PRECISION gr ++ [nl]
  | Raw b => b
  end.

Definition header_line (r : frecord) : str :=
  r_tag r ++ lit " " ++ r_key r ++ lit " " ++ put_dim (r_dim r) ++ lit " "
  ++ put_N (N.of_nat (length (payload_text (r_payload r)))).

Definition encode (r : frecord) : str :=
  header_line r ++ [nl] ++ payload_text (r_payload r).

Definition file_of (rs : list frecord) : str := flat_map encode rs.

Definition nospace (s : str) : Prop := Forall (fun c => isspace c = false) s.

Definition alldigits (s : str) : Prop := Forall (fun c => is_digit c = true) s.

(** A field of a header line: not empty, no white space. *)
Definition token (s : str) : Prop := s <> [] /\ nospace s.

Definition wf_record (r : frecord) : Prop := token (r_tag r) /\ token (r_key r).

(** A record that a reader of the single entity [tag], [key] steps over. *)
Definition other_record (tag key : str) (r : frecord) : Prop :=
  ~ (r_tag r = tag /\ r_key r = key).

(** The header variables after the header line of [r] has been read. *)
Definition header_of (r : frecord) : header :=
  {| h_type := r_tag r; h_name := r_key r; h_dim := r_dim r;
     h_byte_count := N.of_nat (length (payload_text (r_payload r))) |}.

(** A good stream over [file] whose read position is [n]. *)
Definition at_pos (file : str) (n : nat) : ifstream :=
  {| content := file; gpos := N.of_nat n; eofbit := false; failbit := false |}.

(** The stream after a [getline] that found nothing left to read. *)
Definition at_end (file : str) (n : nat) : ifstream :=
  {| content := file; gpos := N.of_nat n; eofbit := true; failbit := true |}.

(** What the theorems on files of records assume of the text form of shapes
    and vectors: a shape is written as one field and read back from between
    two blanks; a vector is written on one line, and reading that line into
    a vector of the same length yields the numbers up to [text_round], the
    effect of going through text at the precision of the saver. *)
Record text_laws (text_round : float -> float) : Prop := {
  put_dim_token : forall d, token (put_dim d);
  get_put_dim : forall d old rest,
    get_dim {| buf := " "%char :: put_dim d ++ " "%char :: rest;
               s_eof := false; s_fail := false |} old
    = ({| buf := " "%char :: rest; s_eof := false; s_fail := false |}, d);
  put_floats_line : forall v,
    Forall (fun c => Ascii.eqb c nl = false) (put_floats FLOAT32_PRECISION v);
  get_put_floats : forall v old,
    length old = length v ->
    get_floats (put_floats FLOAT32_PRECISION v) old = map text_round v
}.

(** ** Positional assignment (spec, section 4.4)

    The second reading of the whole-model populate, in the words of the
    spec: the key is normalized to a prefix that ends in a slash; the
    records whose key starts with that prefix are taken in file order; a
    Parameter record goes to the next unconsumed Parameter, a Lookup
    Parameter record to the next unconsumed Lookup Parameter, after its
    shape has been compared; at the end the numbers consumed must be the
    numbers of entities.  [text_round] is the effect of the text form on a
    number. *)

Definition normalized (key : str) : str :=
  match back key with
  | Some c => if Ascii.eqb c "/" then key else key ++ lit "/"
  | None => lit "/"
  end.

Definition key_matches (prefix : str) (r : frecord) : bool :=
  startswith (r_key r) prefix.

(** A record whose payload is read: the vectors it was written from. *)
Record item := {
  i_tag : str;
  i_key : str;
  i_dim : Dim;
  i_values : list float;
  i_grads : list float
}.

Definition item_record (i : item) : frecord :=
  {| r_tag := i_tag i; r_key := i_key i; r_dim := i_dim i;
     r_payload := Vectors (i_values i) (i_grads i) |}.

Definition wf_item (i : item) : Prop :=
  length (i_values i) = N.to_nat (dim_size (i_dim i)) /\
  length (i_grads i) = N.to_nat (dim_size (i_dim i)).

Definition overwrite_param (text_round : float -> float) (p : ParameterStorage)
    (i : item) : ParameterStorage :=
  {| name := name p; dim := dim p;
     values := set_elements (values p) (map text_round (i_values i));
     g := set_elements (g p) (map text_round (i_grads i)) |}.

Definition overwrite_lookup (text_round : float -> float)
    (p : LookupParameterStorage) (i : item) : LookupParameterStorage :=
  {| lp_name := lp_name p; all_dim := all_dim p;
     all_values := set_elements (all_values p) (map text_round (i_values i));
     all_grads := set_elements (all_grads p) (map text_round (i_grads i)) |}.

(** The matching records [items] onto the entity lists, [pid] Parameters and
    [lid] Lookup Parameters being consumed already: the numbers consumed and
    the storage at the end or at the first error. *)
Fixpoint assign_loop (text_round : float -> float) (items : list item)
    (pid lid : nat) (st : ParameterCollectionStorage)
  : nat * nat * ParameterCollectionStorage * outcome unit :=
  match items with
  | [] => (pid, lid, st, Ret tt)
  | i :: items' =>
      if str_eqb (i_tag i) (lit "#Parameter#") then
        match nth_error (params st) pid with
        | None => (pid, lid, st, Throw (too_many_params (i_key i)))
        | Some p =>
            if dim_eqb (dim p) (i_dim i) then
              assign_loop text_round items' (S pid) lid
                {| params := set_nth pid (overwrite_param text_round p i)
                                     (params st);
                   lookup_params := lookup_params st |}
            else
              (pid, lid, st,
               Throw (param_dim_mismatch (i_key i) (i_dim i) (dim p)))
        end
      else if str_eqb (i_tag i) (lit "#LookupParameter#") then
        match nth_error (lookup_params st) lid with
        | None => (pid, lid, st, Throw (too_many_lookups (i_key i)))
        | Some p =>
            if dim_eqb (all_dim p) (i_dim i) then
              assign_loop text_round items' pid (S lid)
                {| params := params st;
                   lookup_params :=
                     set_nth lid (overwrite_lookup text_round p i)
                             (lookup_params st) |}
            else
              (pid, lid, st,
               Throw (lookup_dim_mismatch (i_key i) (i_dim i) (all_dim p)))
        end
      else
        (pid, lid, st,
         Throw (bad_specification (header_line (item_record i))))
  end.

Definition assign (text_round : float -> float) (items : list item)
    (st : ParameterCollectionStorage)
  : ParameterCollectionStorage * outcome unit :=
  match assign_loop text_round items 0 0 st with
  | (pid, lid, st', Ret _) =>
      if (pid =? length (params st')) && (lid =? length (lookup_params st'))
      then (st', Ret tt)
      else (st', Throw (count_mismatch pid lid (length (params st'))
                                       (length (lookup_params st'))))
  | (_, _, st', e) => (st', e)
  end.

(** The records that the saver writes for a Parameter and for a Lookup
    Parameter under the key [key] (the name of the entity when the key is
    empty). *)
Definition saved_key (key nm : str) : str :=
  if 0 <? length key then key else nm.

Definition param_item (key : str) (p : ParameterStorage) : item :=
  {| i_tag := lit "#Parameter#"; i_key := saved_key key (name p);
     i_dim := dim p; i_values := values p; i_grads := g p |}.

Definition lookup_item (key : str) (p : LookupParameterStorage) : item :=
  {| i_tag := lit "#LookupParameter#"; i_key := saved_key key (lp_name p);
     i_dim := all_dim p; i_values := all_values p; i_grads := all_grads p |}.


(** The entities [l] overwritten in order by the records [recs], one record
    for one entity. *)
Fixpoint overwrite_all {A B} (f : A -> B -> A) (l : list A) (recs : list B)
  : list A :=
  match l, recs with
  | x :: l', i :: recs' => f x i :: overwrite_all f l' recs'
  | _, _ => l
  end.

Definition with_tag (tag : str) (items : list item) : list item :=
  filter (fun i => str_eqb (i_tag i) tag) items.

(** The number of records with a given tag among the matching ones. *)
Definition count_tag (tag : str) (items : list item) : nat :=
  length (with_tag tag items).

(** ** Saving a model and reading it back (spec, section 8)

    The records of a whole-model save under a key that is not empty, in the
    order in which they are written. *)
Definition saved_items (model : ParameterCollection) (key : str) : list item :=
  let strip_size := length (get_fullname model) in
  map (fun p => param_item (normalized key ++ skipn strip_size (name p)) p)
      (params (get_storage model))
  ++ map (fun p => lookup_item (normalized key ++ skipn strip_size (lp_name p)) p)
         (lookup_params (get_storage model)).

(** The tensors of an entity have as many elements as its shape says. *)
Definition wf_param (p : ParameterStorage) : Prop :=
  length (values p) = N.to_nat (dim_size (dim p)) /\
  length (g p) = N.to_nat (dim_size (dim p)).

Definition wf_lookup (p : LookupParameterStorage) : Prop :=
  length (all_values p) = N.to_nat (dim_size (all_dim p)) /\
  length (all_grads p) = N.to_nat (dim_size (all_dim p)).

Definition wf_storage (st : ParameterCollectionStorage) : Prop :=
  Forall wf_param (params st) /\ Forall wf_lookup (lookup_params st).

(** Two models with the same entity lists up to names and contents. *)
Definition same_structure (a b : ParameterCollectionStorage) : Prop :=
  Forall2 (fun p t => dim t = dim p) (params a) (params b) /\
  Forall2 (fun p t => all_dim t = all_dim p) (lookup_params a) (lookup_params b).

(** The names of the entities can be stripped of the name of the model, and
    what remains holds no white space. *)
Definition names_ok (model : ParameterCollection) : Prop :=
  let strip_size := length (get_fullname model) in
  Forall (fun p => strip_size <= length (name p) /\
                   nospace (skipn strip_size (name p)))
         (params (get_storage model)) /\
  Forall (fun p => strip_size <= length (lp_name p) /\
                   nospace (skipn strip_size (lp_name p)))
         (lookup_params (get_storage model)).

(** The target [dst] with values and gradients taken from [src], entity by
    entity, through the text form. *)
Definition reloaded (text_round : float -> float)
    (src dst : ParameterCollectionStorage) : ParameterCollectionStorage :=
  {| params :=
       overwrite_all (fun t p =>
         {| name := name t; dim := dim t;
            values := map text_round (values p);
            g := map text_round (g p) |}) (params dst) (params src);
     lookup_params :=
       overwrite_all (fun t p =>
         {| lp_name := lp_name t; all_dim := all_dim t;
            all_values := map text_round (all_values p);
            all_grads := map text_round (all_grads p) |})
         (lookup_params dst) (lookup_params src) |}.

(** ** The constructor of the saver (io.cc, lines 28 to 32)

    [old] is the content of the file named, when there is one, [writable]
    whether the file can be opened for writing.  Opened to append, the
    stream writes behind the old content; otherwise the old content is
    gone. *)
Definition TextFileSaver_new (filename : str) (old : option str)
    (writable append : bool) : outcome str :=
  if negb writable then
    Throw (runtime_error (lit "Could not write model to " ++ filename))
  else
    Ret (if append then match old with Some c => c | None => [] end else []).

(** Two storages with the same entities up to values and gradients. *)
Definition frame_kept (a b : ParameterCollectionStorage) : Prop :=
  map name (params b) = map name (params a) /\
  map dim (params b) = map dim (params a) /\
  map lp_name (lookup_params b) = map lp_name (lookup_params a) /\
  map all_dim (lookup_params b) = map all_dim (lookup_params a).

(** ** Properties

    *** Strings, decimal digits *)

Unset Implicit Arguments.

Lemma str_eqb_eq (a b : str) : str_eqb a b = true <-> a = b.
Proof.
  revert b; induction a as [|x a IH]; intros [|y b]; simpl; split; intros H;
    try reflexivity; try discriminate.
  - apply andb_true_iff in H as [H1 H2]. apply Ascii.eqb_eq in H1.
    apply IH in H2. congruence.
  - injection H as -> ->. rewrite Ascii.eqb_refl. simpl. now apply IH.
Qed.

Lemma str_eqb_refl (a : str) : str_eqb a a = true.
Proof. now apply str_eqb_eq. Qed.

Lemma str_eqb_neq (a b : str) : str_eqb a b = false <-> a <> b.
Proof.
  split; intros H.
  - intros E. apply str_eqb_eq in E. congruence.
  - destruct (str_eqb a b) eqn:E; [|reflexivity].
    apply str_eqb_eq in E. contradiction.
Qed.

Lemma dim_eqb_eq (a b : Dim) : dim_eqb a b = true <-> a = b.
Proof.
  revert b; induction a as [|x a IH]; intros [|y b]; simpl; split; intros H;
    try reflexivity; try discriminate.
  - apply andb_true_iff in H as [H1 H2]. apply N.eqb_eq in H1.
    apply IH in H2. congruence.
  - injection H as -> ->. rewrite N.eqb_refl. simpl. now apply IH.
Qed.

Lemma span_stop (p : ascii -> bool) (a rest : str) :
  Forall (fun c => p c = true) a ->
  match rest with [] => True | c :: _ => p c = false end ->
  span p (a ++ rest) = (a, rest).
Proof.
  intros Ha Hr. induction Ha as [|c a Hc Ha IH]; simpl.
  - destruct rest as [|c r]; simpl; [reflexivity|]. now rewrite Hr.
  - now rewrite Hc, IH.
Qed.

Lemma digit_char_facts (d : N) :
  (d < 10)%N ->
  is_digit (digit_char d) = true /\ digit_val (digit_char d) = d /\
  isspace (digit_char d) = false.
Proof.
  intros H.
  assert (d = 0 \/ d = 1 \/ d = 2 \/ d = 3 \/ d = 4 \/ d = 5 \/ d = 6 \/
          d = 7 \/ d = 8 \/ d = 9)%N as E by lia.
  repeat (destruct E as [E|E]; [subst d; now vm_compute|]).
  subst d; now vm_compute.
Qed.

Lemma put_digits_spec (k : nat) : forall (n : N) (acc : str),
  (n < 2 ^ N.of_nat (S k))%N ->
  exists ds, put_digits (S k) n acc = ds ++ acc /\ ds <> [] /\
             alldigits ds /\
             forall a, fold_left (fun a c => (a * 10 + digit_val c)%N) ds a
                       = (a * 10 ^ N.of_nat (length ds) + n)%N.
Proof.
  induction k as [|k IH]; intros n acc Hn.
  - assert (n / 10 = 0)%N as E.
    { apply N.div_small. change (2 ^ N.of_nat 1)%N with 2%N in Hn. lia. }
    simpl. rewrite E. simpl.
    destruct (digit_char_facts (n mod 10)) as (D1 & D2 & _).
    { apply N.mod_lt. lia. }
    exists [digit_char (n mod 10)]. repeat split.
    + discriminate.
    + now constructor.
    + intros a. simpl. rewrite D2. rewrite N.mod_small; [lia|].
      change (2 ^ N.of_nat 1)%N with 2%N in Hn. lia.
  - destruct (digit_char_facts (n mod 10)) as (D1 & D2 & _).
    { apply N.mod_lt. lia. }
    change (put_digits (S (S k)) n acc) with
      (if (n / 10 =? 0)%N then digit_char (n mod 10) :: acc
       else put_digits (S k) (n / 10) (digit_char (n mod 10) :: acc)).
    destruct (N.eqb_spec (n / 10) 0) as [E|E].
    + exists [digit_char (n mod 10)]. repeat split.
      * discriminate.
      * now constructor.
      * intros a. simpl. rewrite D2.
        pose proof (N.div_mod n 10). lia.
    + destruct (IH (n / 10)%N (digit_char (n mod 10) :: acc)) as (ds & E1 & E2 & E3 & E4).
      { rewrite Nat2N.inj_succ, N.pow_succ_r' in Hn.
        apply N.Div0.div_lt_upper_bound. lia. }
      exists (ds ++ [digit_char (n mod 10)]). repeat split.
      * rewrite E1, <- app_assoc. reflexivity.
      * destruct ds; discriminate.
      * apply Forall_app. split; [exact E3|now constructor].
      * intros a. rewrite fold_left_app, E4. simpl. rewrite D2.
        rewrite length_app. simpl. rewrite Nat2N.inj_add. simpl N.of_nat.
        rewrite N.pow_add_r. change (10 ^ 1)%N with 10%N.
        pose proof (N.div_mod n 10). lia.
Qed.

Lemma put_N_spec (n : N) :
  put_N n <> [] /\ alldigits (put_N n) /\ digits_value (put_N n) = n.
Proof.
  unfold put_N.
  destruct (put_digits_spec (N.to_nat (N.log2 n)) n []) as (ds & E1 & E2 & E3 & E4).
  { rewrite Nat2N.inj_succ, N2Nat.id.
    destruct n as [|p]; [reflexivity|].
    apply N.log2_spec. reflexivity. }
  rewrite E1, app_nil_r. repeat split; auto.
  unfold digits_value. rewrite E4. lia.
Qed.


(** *** The key validators *)

Lemma find_none_iff {A} (f : A -> bool) (l : list A) :
  find f l = None <-> forall x, In x l -> f x = false.
Proof.
  split; [apply find_none|].
  induction l as [|a l IH]; intros H; [reflexivity|].
  cbn [find]. rewrite (H a (or_introl eq_refl)).
  apply IH. intros x Hx. apply H. now right.
Qed.

(** C9.  [valid_key s] holds exactly when [s] is empty, or is not the
    string made of one slash and holds neither a blank nor a hash sign;
    [valid_pc_key s] holds exactly when [s] is empty, or starts with a slash
    and [valid_key s] holds. *)
Theorem validators_spec (s : str) :
  (valid_key s = true <->
   s = [] \/ (s <> lit "/" /\ ~ In " "%char s /\ ~ In "#"%char s))
  /\
  (valid_pc_key s = true <->
   s = [] \/ ((exists t, s = "/"%char :: t) /\ valid_key s = true)).
Proof.
  split.
  - unfold valid_key. destruct s as [|c s]; [cbn; tauto|].
    cbn [length Nat.eqb].
    destruct (str_eqb (c :: s) (lit "/")) eqn:E.
    + apply str_eqb_eq in E. split; [discriminate|].
      intros [H|[H _]]; [discriminate|contradiction].
    + apply str_eqb_neq in E.
      destruct (find _ (c :: s)) as [x|] eqn:F.
      * split; [discriminate|]. intros [H|(_ & H1 & H2)]; [discriminate|].
        apply find_some in F as [Hin Hx]. exfalso.
        apply orb_true_iff in Hx as [Hx|Hx]; apply Ascii.eqb_eq in Hx;
          subst x; contradiction.
      * split; [|reflexivity]. intros _. right.
        rewrite find_none_iff in F. repeat split; auto.
        -- intros Hin. specialize (F _ Hin). discriminate F.
        -- intros Hin. specialize (F _ Hin). discriminate F.
  - unfold valid_pc_key. destruct s as [|c s]; [cbn; tauto|].
    cbn [length Nat.eqb startswith lit list_ascii_of_string].
    destruct (Ascii.eqb_spec "/"%char c) as [<-|Hc]; cbn [andb negb].
    + destruct s; (split; [intros H; right; split; [eauto|exact H]
                          |intros [H|[_ H]]; [discriminate|exact H]]).
    + split; [discriminate|].
      intros [H|[[t Ht] _]]; [discriminate|]. congruence.
Qed.

(** *** The streams *)

Lemma skipn_length_app {A} (a b : list A) : skipn (length a) (a ++ b) = b.
Proof. induction a; simpl; auto. Qed.

Lemma getline_at (pre l rest line : str) :
  Forall (fun c => Ascii.eqb c nl = false) l ->
  getline (at_pos (pre ++ l ++ nl :: rest) (length pre)) line
  = (at_pos (pre ++ l ++ nl :: rest) (length pre + length l + 1), l, true).
Proof.
  intros Hl. unfold getline, at_pos, good.
  cbn [eofbit failbit negb andb gpos content].
  rewrite Nat2N.id, skipn_length_app.
  destruct (l ++ nl :: rest) as [|a t] eqn:E; [destruct l; discriminate|].
  rewrite <- E.
  rewrite (span_stop (fun c => negb (Ascii.eqb c nl)) l (nl :: rest)).
  - repeat f_equal. lia.
  - eapply Forall_impl; [|exact Hl]. intros c Hc. simpl. now rewrite Hc.
  - reflexivity.
Qed.

Lemma getline_end (file line : str) (n : nat) :
  length file <= n ->
  getline (at_pos file n) line = (at_end file n, [], false).
Proof.
  intros H. unfold getline, at_pos. simpl.
  rewrite Nat2N.id, skipn_all2 by exact H. reflexivity.
Qed.

Lemma skip_payload_at (file : str) (n k : nat) :
  (N.of_nat (n + k) < 9223372036854775808)%N ->
  skip_payload (at_pos file n) (N.of_nat k) = at_pos file (n + k).
Proof.
  intros H. unfold skip_payload, tellg, seekg, at_pos. simpl.
  assert ((N.of_nat n + N.of_nat k) mod size_t_mod = N.of_nat (n + k))%N as E.
  { rewrite N.mod_small; unfold size_t_mod; lia. }
  rewrite E.
  destruct (N.ltb_spec (N.of_nat (n + k)) 9223372036854775808); [reflexivity|lia].
Qed.

Lemma digit_not_sign (c : ascii) :
  is_digit c = true ->
  Ascii.eqb c "-" = false /\ Ascii.eqb c "+" = false /\ isspace c = false
  /\ Ascii.eqb c nl = false.
Proof.
  destruct c as [[] [] [] [] [] [] [] []]; vm_compute; intros H;
    (discriminate H || auto).
Qed.

Lemma nospace_no_nl (s : str) :
  nospace s -> Forall (fun c => Ascii.eqb c nl = false) s.
Proof.
  apply Forall_impl. intros c.
  destruct c as [[] [] [] [] [] [] [] []]; vm_compute; intros H;
    (discriminate H || auto).
Qed.

Lemma alldigits_nospace (s : str) : alldigits s -> nospace s.
Proof. apply Forall_impl. intros c H. now apply digit_not_sign. Qed.

Lemma get_string_field (ws tok rest old : str) :
  Forall (fun c => isspace c = true) ws ->
  token tok ->
  get_string {| buf := ws ++ tok ++ " "%char :: rest;
                s_eof := false; s_fail := false |} old
  = ({| buf := " "%char :: rest; s_eof := false; s_fail := false |}, tok).
Proof.
  intros Hws [Hne Htok]. unfold get_string, sentry, s_good.
  cbn [s_eof s_fail buf negb andb].
  assert (match tok ++ " "%char :: rest with
          | [] => True | c :: _ => isspace c = false end) as Hhd.
  { destruct tok as [|c tok]; [contradiction|]. now inversion Htok. }
  rewrite (span_stop isspace ws (tok ++ " "%char :: rest) Hws Hhd).
  cbn [snd].
  destruct (tok ++ " "%char :: rest) as [|a t] eqn:E;
    [destruct tok; discriminate|].
  cbn [buf]. rewrite <- E.
  rewrite (span_stop (fun c => negb (isspace c)) tok (" "%char :: rest)).
  - reflexivity.
  - eapply Forall_impl; [|exact Htok]. intros b Hb. simpl. now rewrite Hb.
  - reflexivity.
Qed.

Lemma get_string_first (tok rest old : str) :
  token tok ->
  get_string {| buf := tok ++ " "%char :: rest;
                s_eof := false; s_fail := false |} old
  = ({| buf := " "%char :: rest; s_eof := false; s_fail := false |}, tok).
Proof. intros H. exact (get_string_field [] tok rest old (Forall_nil _) H). Qed.

Lemma get_string_next (tok rest old : str) :
  token tok ->
  get_string {| buf := " "%char :: tok ++ " "%char :: rest;
                s_eof := false; s_fail := false |} old
  = ({| buf := " "%char :: rest; s_eof := false; s_fail := false |}, tok).
Proof.
  intros H. apply (get_string_field [" "%char] tok rest old); auto.
Qed.

Lemma get_size_t_last (n old : N) :
  (n <= size_t_max)%N ->
  snd (get_size_t {| buf := " "%char :: put_N n;
                     s_eof := false; s_fail := false |} old) = n.
Proof.
  intros Hn. destruct (put_N_spec n) as (Hne & Hd & Hv).
  unfold get_size_t, sentry, s_good.
  cbn [s_eof s_fail buf negb andb].
  assert (span isspace (" "%char :: put_N n) = ([" "%char], put_N n)) as E1.
  { apply (span_stop isspace [" "%char] (put_N n)).
    - now constructor.
    - destruct (put_N n) as [|c ds]; [exact I|].
      apply digit_not_sign. now inversion Hd. }
  rewrite E1. cbn [snd].
  destruct (put_N n) as [|c ds] eqn:E; [contradiction|].
  cbn [buf].
  assert (is_digit c = true) as Hc by now inversion Hd.
  destruct (digit_not_sign c Hc) as (H1 & H2 & _).
  rewrite H1, H2.
  replace (c :: ds) with ((c :: ds) ++ []) at 1 by apply app_nil_r.
  rewrite (span_stop is_digit (c :: ds) [] Hd I).
  rewrite Hv. destruct (N.leb_spec n size_t_max); [reflexivity|lia].
Qed.


(** *** Reading a record *)

Lemma getline_in (file pre l rest line : str) :
  file = pre ++ l ++ nl :: rest ->
  Forall (fun c => Ascii.eqb c nl = false) l ->
  getline (at_pos file (length pre)) line
  = (at_pos file (length (pre ++ l ++ [nl])), l, true).
Proof.
  intros -> Hl. rewrite getline_at by exact Hl.
  rewrite !length_app. cbn [length]. do 3 f_equal. lia.
Qed.

Lemma skip_payload_in (file p x : str) :
  (N.of_nat (length (p ++ x)) < 9223372036854775808)%N ->
  skip_payload (at_pos file (length p)) (N.of_nat (length x))
  = at_pos file (length (p ++ x)).
Proof.
  intros H. rewrite length_app in *. now apply skip_payload_at.
Qed.

Section Records.

Variable text_round : float -> float.
Hypothesis laws : text_laws text_round.

Lemma header_line_no_nl (r : frecord) :
  wf_record r -> Forall (fun c => Ascii.eqb c nl = false) (header_line r).
Proof.
  intros [[_ Ht] [_ Hk]]. unfold header_line.
  destruct (put_dim_token laws (r_dim r)) as [_ Hd].
  destruct (put_N_spec (N.of_nat (length (payload_text (r_payload r)))))
    as (_ & Hn & _).
  repeat (apply Forall_app; split);
    try (now apply nospace_no_nl);
    try (now repeat constructor).
  now apply nospace_no_nl, alldigits_nospace.
Qed.

Lemma read_header_record (r : frecord) (h : header) :
  wf_record r ->
  (N.of_nat (length (payload_text (r_payload r))) <= size_t_max)%N ->
  read_header (header_line r) h = header_of r.
Proof.
  intros [Ht Hk] Hn. unfold read_header, header_line, istringstream.
  change (lit " ") with [" "%char]. cbn [app].
  rewrite (get_string_first _ _ _ Ht).
  rewrite (get_string_next _ _ _ Hk).
  rewrite (get_put_dim laws).
  pose proof (get_size_t_last _ (h_byte_count h) Hn) as E.
  destruct (get_size_t _ _) as [s bc]. simpl in E. subst bc.
  reflexivity.
Qed.

Lemma encode_app (r : frecord) (post : str) :
  encode r ++ post
  = header_line r ++ nl :: payload_text (r_payload r) ++ post.
Proof. unfold encode. now rewrite <- !app_assoc. Qed.

Lemma getline_header (file pre post line : str) (r : frecord) :
  file = pre ++ encode r ++ post ->
  wf_record r ->
  getline (at_pos file (length pre)) line
  = (at_pos file (length (pre ++ header_line r ++ [nl])), header_line r, true).
Proof.
  intros E Hr. rewrite encode_app in E.
  apply (getline_in _ _ _ _ _ E). now apply header_line_no_nl.
Qed.

Lemma read_values_in (file pre post line : str) (v vals : list float) :
  file = pre ++ put_floats FLOAT32_PRECISION v ++ nl :: post ->
  length vals = length v ->
  read_values (at_pos file (length pre)) line vals
  = (at_pos file (length (pre ++ put_floats FLOAT32_PRECISION v ++ [nl])),
     put_floats FLOAT32_PRECISION v, map text_round v).
Proof.
  intros E Hv. unfold read_values.
  rewrite (getline_in _ _ _ _ _ E (put_floats_line laws v)).
  now rewrite (get_put_floats laws).
Qed.

(** One turn of the single-entity loop at a record that does not match:
    the payload is stepped over, whatever it holds. *)
Lemma scan_loop_skip {St R : Type} (tag key : str)
    (on_match : ifstream -> str -> header -> St -> ifstream * St * outcome R)
    (file pre post line : str) (r : frecord) (h : header) (s : St) (fuel : nat) :
  file = pre ++ encode r ++ post ->
  wf_record r ->
  (N.of_nat (length (pre ++ encode r)) < 9223372036854775808)%N ->
  ~ (r_tag r = tag /\ r_key r = key) ->
  scan_loop tag key on_match (S fuel) (at_pos file (length pre)) line h s
  = scan_loop tag key on_match fuel (at_pos file (length (pre ++ encode r)))
              (header_line r) (header_of r) s.
Proof.
  intros E Hr Hlen Hno. cbn [scan_loop].
  rewrite (getline_header _ _ _ _ _ E Hr).
  rewrite read_header_record; auto.
  2:{ unfold size_t_max. rewrite length_app in Hlen. unfold encode in Hlen.
      rewrite !length_app in Hlen. lia. }
  cbn [header_of h_type h_name h_byte_count].
  assert (str_eqb (r_tag r) tag && str_eqb (r_key r) key = false) as Hm.
  { apply andb_false_iff.
    destruct (str_eqb (r_tag r) tag) eqn:E1; [|now left].
    destruct (str_eqb (r_key r) key) eqn:E2; [|now right].
    apply str_eqb_eq in E1, E2. exfalso. now apply Hno. }
  rewrite Hm.
  assert ((pre ++ header_line r ++ [nl]) ++ payload_text (r_payload r)
          = pre ++ encode r) as Ea.
  { unfold encode. now rewrite <- !app_assoc. }
  rewrite skip_payload_in; rewrite Ea; auto.
Qed.

(** The same loop at a record that matches: the matching branch runs with
    the stream just after the header line. *)
Lemma scan_loop_hit {St R : Type} (tag key : str)
    (on_match : ifstream -> str -> header -> St -> ifstream * St * outcome R)
    (file pre post line : str) (r : frecord) (h : header) (s : St) (fuel : nat) :
  file = pre ++ encode r ++ post ->
  wf_record r ->
  (N.of_nat (length (payload_text (r_payload r))) <= size_t_max)%N ->
  r_tag r = tag -> r_key r = key ->
  scan_loop tag key on_match (S fuel) (at_pos file (length pre)) line h s
  = Some (on_match (at_pos file (length (pre ++ header_line r ++ [nl])))
                   (header_line r) (header_of r) s).
Proof.
  intros E Hr Hlen Ht Hk. cbn [scan_loop].
  rewrite (getline_header _ _ _ _ _ E Hr).
  rewrite read_header_record; auto.
  cbn [header_of h_type h_name].
  rewrite Ht, Hk, !str_eqb_refl. reflexivity.
Qed.


(** *** Scanning a file of records for one entity *)

Section ScanRecords.

Context {St R : Type}.
Variables (tag key : str).
Variable on_match : ifstream -> str -> header -> St -> ifstream * St * outcome R.

Lemma scan_loop_skips (file post : str) (s : St) :
  forall (rs : list frecord) (pre line : str) (h : header) (fuel : nat),
  file = pre ++ file_of rs ++ post ->
  Forall wf_record rs ->
  Forall (other_record tag key) rs ->
  (N.of_nat (length (pre ++ file_of rs)) < 9223372036854775808)%N ->
  exists line' h',
    scan_loop tag key on_match (length rs + fuel)
              (at_pos file (length pre)) line h s
    = scan_loop tag key on_match fuel
                (at_pos file (length (pre ++ file_of rs))) line' h' s.
Proof.
  induction rs as [|r rs IH]; intros pre line h fuel E Hwf Hno Hlen.
  - exists line, h. simpl. now rewrite app_nil_r.
  - inversion Hwf as [|? ? Hr Hwf']; subst.
    inversion Hno as [|? ? Hn Hno']; subst.
    cbn [file_of flat_map] in *. fold (file_of rs) in *.
    assert (pre ++ encode r ++ file_of rs = (pre ++ encode r) ++ file_of rs)
      as Ea by now rewrite <- app_assoc.
    rewrite Ea in Hlen.
    cbn [length plus].
    rewrite (scan_loop_skip tag key on_match
               (pre ++ (encode r ++ file_of rs) ++ post) pre
               (file_of rs ++ post) line r h s (length rs + fuel)); auto.
    + destruct (IH (pre ++ encode r) (header_line r) (header_of r) fuel)
        as (line' & h' & E'); auto.
      * now rewrite <- !app_assoc.
      * exists line', h'. rewrite E'. now rewrite Ea.
    + now rewrite <- !app_assoc.
    + rewrite length_app in Hlen. lia.
Qed.

(** No record matches: the scan steps over every record, finds the end of
    the stream and the statement after the loop throws. *)
Lemma scan_loop_not_found (rs : list frecord) (s : St) (fuel : nat) :
  Forall wf_record rs ->
  Forall (other_record tag key) rs ->
  (N.of_nat (length (file_of rs)) < 9223372036854775808)%N ->
  length rs < fuel ->
  scan_loop tag key on_match fuel (open (file_of rs)) [] header0 s
  = Some (at_end (file_of rs) (length (file_of rs)), s, Throw (not_found key)).
Proof.
  intros Hwf Hno Hlen Hf.
  destruct (scan_loop_skips (file_of rs) [] s rs [] [] header0
              (fuel - length rs)) as (line' & h' & E); auto.
  - now rewrite app_nil_r.
  - replace (length rs + (fuel - length rs)) with fuel in E by lia.
    change (at_pos (file_of rs) (length [])) with (open (file_of rs)) in E.
    rewrite E. cbn [app].
    destruct (fuel - length rs) as [|k] eqn:Ek; [lia|].
    cbn [scan_loop]. rewrite getline_end by lia. reflexivity.
Qed.

(** The first matching record is [r]: the records before it are stepped
    over and the matching branch runs just after the header line of [r]. *)
Lemma scan_loop_found (rs : list frecord) (r : frecord) (post : str)
    (s : St) (fuel : nat) :
  Forall wf_record rs ->
  Forall (other_record tag key) rs ->
  wf_record r -> r_tag r = tag -> r_key r = key ->
  (N.of_nat (length (file_of rs ++ encode r)) < 9223372036854775808)%N ->
  length rs < fuel ->
  scan_loop tag key on_match fuel (open (file_of rs ++ encode r ++ post))
            [] header0 s
  = Some (on_match
            (at_pos (file_of rs ++ encode r ++ post)
                    (length (file_of rs ++ header_line r ++ [nl])))
            (header_line r) (header_of r) s).
Proof.
  intros Hwf Hno Hr Ht Hk Hlen Hf.
  rewrite length_app in Hlen.
  destruct (scan_loop_skips (file_of rs ++ encode r ++ post) (encode r ++ post)
              s rs [] [] header0 (fuel - length rs)) as (line' & h' & E); auto.
  - cbn [app]. lia.
  - replace (length rs + (fuel - length rs)) with fuel in E by lia.
    change (at_pos (file_of rs ++ encode r ++ post) (length []))
      with (open (file_of rs ++ encode r ++ post)) in E.
    rewrite E. cbn [app].
    destruct (fuel - length rs) as [|k] eqn:Ek; [lia|].
    apply scan_loop_hit with (post := post); auto.
    unfold encode in Hlen. rewrite !length_app in Hlen.
    unfold size_t_max. lia.
Qed.

End ScanRecords.


(** *** The whole-model populate on a file of records *)

Lemma substr0_startswith (p s : str) :
  str_eqb (substr0 s (length p)) p = startswith s p.
Proof.
  unfold substr0. revert s. induction p as [|c p IH]; intros s.
  - now destruct s.
  - destruct s as [|d s]; [reflexivity|].
    cbn [length firstn str_eqb startswith]. rewrite IH.
    now rewrite Ascii.eqb_sym.
Qed.

Lemma length_resize (v : list float) (n : N) :
  length (resize v n) = N.to_nat n.
Proof.
  unfold resize. rewrite length_app, length_firstn, repeat_length. lia.
Qed.

Lemma payload_bound (pre : str) (r : frecord) :
  (N.of_nat (length (pre ++ encode r)) < 9223372036854775808)%N ->
  (N.of_nat (length (payload_text (r_payload r))) <= size_t_max)%N.
Proof.
  unfold encode, size_t_max. rewrite !length_app. lia.
Qed.

Ltac body_header E Hr Hlen :=
  unfold populate_pc_body;
  cbn [v_stream v_line v_header v_values v_param_id v_lookup_id v_storage];
  rewrite (getline_header _ _ _ _ _ E Hr);
  cbn [negb];
  rewrite (read_header_record _ _ Hr (payload_bound _ _ Hlen));
  cbn [header_of h_type h_name h_dim h_byte_count].

Section Body.

Variables (key key_ file : str).
Hypothesis key_not_empty : key <> [].

Let vars f line h vals pid lid st : pc_vars :=
  {| v_stream := f; v_line := line; v_header := h; v_values := vals;
     v_param_id := pid; v_lookup_id := lid; v_storage := st |}.

Lemma key_length_test : negb (length key =? 0) = true.
Proof. destruct key; [contradiction|reflexivity]. Qed.

Lemma body_skip (pre post line : str) (r : frecord) (h : header)
    (vals : list float) (pid lid : nat) (st : ParameterCollectionStorage) :
  file = pre ++ encode r ++ post ->
  wf_record r ->
  (N.of_nat (length (pre ++ encode r)) < 9223372036854775808)%N ->
  key_matches key_ r = false ->
  populate_pc_body key key_ (vars (at_pos file (length pre)) line h vals pid lid st)
  = Continue (vars (at_pos file (length (pre ++ encode r)))
                   (header_line r) (header_of r) vals pid lid st).
Proof.
  intros E Hr Hlen Hm. unfold vars. body_header E Hr Hlen.
  rewrite key_length_test, substr0_startswith.
  unfold key_matches in Hm. rewrite Hm. cbn [negb andb].
  assert ((pre ++ header_line r ++ [nl]) ++ payload_text (r_payload r)
          = pre ++ encode r) as Ea.
  { unfold encode. now rewrite <- !app_assoc. }
  rewrite skip_payload_in; rewrite Ea; auto.
Qed.

Lemma matched_test (r : frecord) :
  key_matches key_ r = true ->
  negb (length key =? 0)
  && negb (str_eqb (substr0 (r_key r) (length key_)) key_) = false.
Proof.
  unfold key_matches. intros H. rewrite substr0_startswith, H.
  now rewrite andb_false_r.
Qed.

Lemma nth_error_length_test {A} (l : list A) (n : nat) (x : A) :
  nth_error l n = Some x -> (length l <=? n) = false.
Proof.
  intros H. apply Nat.leb_gt. apply nth_error_Some. congruence.
Qed.

Lemma nth_error_length_test_none {A} (l : list A) (n : nat) :
  nth_error l n = None -> (length l <=? n) = true.
Proof. intros H. apply Nat.leb_le. now apply nth_error_None. Qed.

Lemma item_file (pre post : str) (i : item) :
  file = pre ++ encode (item_record i) ++ post ->
  file = (pre ++ header_line (item_record i) ++ [nl])
         ++ put_floats FLOAT32_PRECISION (i_values i)
         ++ nl :: put_floats FLOAT32_PRECISION (i_grads i) ++ nl :: post.
Proof.
  intros ->. unfold encode. cbn [item_record r_payload payload_text].
  now rewrite <- !app_assoc.
Qed.

Lemma item_file2 (pre post : str) (i : item) :
  file = pre ++ encode (item_record i) ++ post ->
  file = ((pre ++ header_line (item_record i) ++ [nl])
          ++ put_floats FLOAT32_PRECISION (i_values i) ++ [nl])
         ++ put_floats FLOAT32_PRECISION (i_grads i) ++ nl :: post.
Proof.
  intros ->. unfold encode. cbn [item_record r_payload payload_text].
  now rewrite <- !app_assoc.
Qed.

Lemma item_end (pre : str) (i : item) :
  ((pre ++ header_line (item_record i) ++ [nl])
   ++ put_floats FLOAT32_PRECISION (i_values i) ++ [nl])
  ++ put_floats FLOAT32_PRECISION (i_grads i) ++ [nl]
  = pre ++ encode (item_record i).
Proof.
  unfold encode. cbn [item_record r_payload payload_text].
  now rewrite <- !app_assoc.
Qed.

(** A matching Parameter record of the right shape is read into the next
    Parameter. *)
Lemma body_param (pre post line : str) (i : item) (h : header)
    (vals : list float) (pid lid : nat) (st : ParameterCollectionStorage)
    (p : ParameterStorage) :
  file = pre ++ encode (item_record i) ++ post ->
  wf_record (item_record i) -> wf_item i ->
  (N.of_nat (length (pre ++ encode (item_record i))) < 9223372036854775808)%N ->
  key_matches key_ (item_record i) = true ->
  i_tag i = lit "#Parameter#" ->
  nth_error (params st) pid = Some p ->
  dim p = i_dim i ->
  populate_pc_body key key_ (vars (at_pos file (length pre)) line h vals pid lid st)
  = Continue (vars (at_pos file (length (pre ++ encode (item_record i))))
                   (put_floats FLOAT32_PRECISION (i_grads i))
                   (header_of (item_record i))
                   (map text_round (i_grads i)) (S pid) lid
                   {| params := set_nth pid (overwrite_param text_round p i)
                                        (params st);
                      lookup_params := lookup_params st |}).
Proof.
  intros E Hr [Hv Hg] Hlen Hm Ht Hp Hd. unfold vars. body_header E Hr Hlen.
  rewrite (matched_test _ Hm).
  cbn [item_record r_tag r_key r_dim]. rewrite Ht, str_eqb_refl.
  rewrite (nth_error_length_test _ _ _ Hp), Hp.
  rewrite Hd, (proj2 (dim_eqb_eq _ _) eq_refl). cbn [negb].
  rewrite (read_values_in _ _ _ _ (i_values i) _ (item_file _ _ _ E))
    by (rewrite length_resize; now rewrite Hv).
  rewrite (read_values_in _ _ _ _ (i_grads i) _ (item_file2 _ _ _ E))
    by (rewrite length_map; now rewrite Hv, Hg).
  rewrite item_end. unfold overwrite_param. cbn [name dim values g].
  now rewrite Hd.
Qed.

Lemma body_lookup (pre post line : str) (i : item) (h : header)
    (vals : list float) (pid lid : nat) (st : ParameterCollectionStorage)
    (p : LookupParameterStorage) :
  file = pre ++ encode (item_record i) ++ post ->
  wf_record (item_record i) -> wf_item i ->
  (N.of_nat (length (pre ++ encode (item_record i))) < 9223372036854775808)%N ->
  key_matches key_ (item_record i) = true ->
  i_tag i = lit "#LookupParameter#" ->
  nth_error (lookup_params st) lid = Some p ->
  all_dim p = i_dim i ->
  populate_pc_body key key_ (vars (at_pos file (length pre)) line h vals pid lid st)
  = Continue (vars (at_pos file (length (pre ++ encode (item_record i))))
                   (put_floats FLOAT32_PRECISION (i_grads i))
                   (header_of (item_record i))
                   (map text_round (i_grads i)) pid (S lid)
                   {| params := params st;
                      lookup_params :=
                        set_nth lid (overwrite_lookup text_round p i)
                                (lookup_params st) |}).
Proof.
  intros E Hr [Hv Hg] Hlen Hm Ht Hp Hd. unfold vars. body_header E Hr Hlen.
  rewrite (matched_test _ Hm).
  cbn [item_record r_tag r_key r_dim]. rewrite Ht.
  change (str_eqb (lit "#LookupParameter#") (lit "#Parameter#")) with false.
  cbn iota. rewrite str_eqb_refl.
  rewrite (nth_error_length_test _ _ _ Hp), Hp.
  rewrite Hd, (proj2 (dim_eqb_eq _ _) eq_refl). cbn [negb].
  rewrite (read_values_in _ _ _ _ (i_values i) _ (item_file _ _ _ E))
    by (rewrite length_resize; now rewrite Hv).
  rewrite (read_values_in _ _ _ _ (i_grads i) _ (item_file2 _ _ _ E))
    by (rewrite length_map; now rewrite Hv, Hg).
  rewrite item_end. unfold overwrite_lookup.
  cbn [lp_name all_dim all_values all_grads].
  now rewrite Hd.
Qed.

(** The turns that leave the loop with an error; the storage is as it was
    before the turn. *)
Lemma body_too_many_params (pre post line : str) (r : frecord) (h : header)
    (vals : list float) (pid lid : nat) (st : ParameterCollectionStorage) :
  file = pre ++ encode r ++ post ->
  wf_record r ->
  (N.of_nat (length (pre ++ encode r)) < 9223372036854775808)%N ->
  key_matches key_ r = true ->
  r_tag r = lit "#Parameter#" ->
  nth_error (params st) pid = None ->
  populate_pc_body key key_ (vars (at_pos file (length pre)) line h vals pid lid st)
  = Leave (vars (at_pos file (length (pre ++ header_line r ++ [nl])))
                (header_line r) (header_of r)
                (resize vals (dim_size (r_dim r))) pid lid st)
          (Throw (too_many_params (r_key r))).
Proof.
  intros E Hr Hlen Hm Ht Hp. unfold vars. body_header E Hr Hlen.
  rewrite (matched_test _ Hm). rewrite Ht, str_eqb_refl.
  now rewrite (nth_error_length_test_none _ _ Hp).
Qed.

Lemma body_param_mismatch (pre post line : str) (r : frecord) (h : header)
    (vals : list float) (pid lid : nat) (st : ParameterCollectionStorage)
    (p : ParameterStorage) :
  file = pre ++ encode r ++ post ->
  wf_record r ->
  (N.of_nat (length (pre ++ encode r)) < 9223372036854775808)%N ->
  key_matches key_ r = true ->
  r_tag r = lit "#Parameter#" ->
  nth_error (params st) pid = Some p ->
  dim_eqb (dim p) (r_dim r) = false ->
  populate_pc_body key key_ (vars (at_pos file (length pre)) line h vals pid lid st)
  = Leave (vars (at_pos file (length (pre ++ header_line r ++ [nl])))
                (header_line r) (header_of r)
                (resize vals (dim_size (r_dim r))) (S pid) lid st)
          (Throw (param_dim_mismatch (r_key r) (r_dim r) (dim p))).
Proof.
  intros E Hr Hlen Hm Ht Hp Hd. unfold vars. body_header E Hr Hlen.
  rewrite (matched_test _ Hm). rewrite Ht, str_eqb_refl.
  now rewrite (nth_error_length_test _ _ _ Hp), Hp, Hd.
Qed.

Lemma body_too_many_lookups (pre post line : str) (r : frecord) (h : header)
    (vals : list float) (pid lid : nat) (st : ParameterCollectionStorage) :
  file = pre ++ encode r ++ post ->
  wf_record r ->
  (N.of_nat (length (pre ++ encode r)) < 9223372036854775808)%N ->
  key_matches key_ r = true ->
  r_tag r = lit "#LookupParameter#" ->
  nth_error (lookup_params st) lid = None ->
  populate_pc_body key key_ (vars (at_pos file (length pre)) line h vals pid lid st)
  = Leave (vars (at_pos file (length (pre ++ header_line r ++ [nl])))
                (header_line r) (header_of r)
                (resize vals (dim_size (r_dim r))) pid lid st)
          (Throw (too_many_lookups (r_key r))).
Proof.
  intros E Hr Hlen Hm Ht Hp. unfold vars. body_header E Hr Hlen.
  rewrite (matched_test _ Hm). rewrite Ht.
  change (str_eqb (lit "#LookupParameter#") (lit "#Parameter#")) with false.
  cbn iota. rewrite str_eqb_refl.
  now rewrite (nth_error_length_test_none _ _ Hp).
Qed.

Lemma body_lookup_mismatch (pre post line : str) (r : frecord) (h : header)
    (vals : list float) (pid lid : nat) (st : ParameterCollectionStorage)
    (p : LookupParameterStorage) :
  file = pre ++ encode r ++ post ->
  wf_record r ->
  (N.of_nat (length (pre ++ encode r)) < 9223372036854775808)%N ->
  key_matches key_ r = true ->
  r_tag r = lit "#LookupParameter#" ->
  nth_error (lookup_params st) lid = Some p ->
  dim_eqb (all_dim p) (r_dim r) = false ->
  populate_pc_body key key_ (vars (at_pos file (length pre)) line h vals pid lid st)
  = Leave (vars (at_pos file (length (pre ++ header_line r ++ [nl])))
                (header_line r) (header_of r)
                (resize vals (dim_size (r_dim r))) pid (S lid) st)
          (Throw (lookup_dim_mismatch (r_key r) (r_dim r) (all_dim p))).
Proof.
  intros E Hr Hlen Hm Ht Hp Hd. unfold vars. body_header E Hr Hlen.
  rewrite (matched_test _ Hm). rewrite Ht.
  change (str_eqb (lit "#LookupParameter#") (lit "#Parameter#")) with false.
  cbn iota. rewrite str_eqb_refl.
  now rewrite (nth_error_length_test _ _ _ Hp), Hp, Hd.
Qed.

Lemma body_bad_tag (pre post line : str) (r : frecord) (h : header)
    (vals : list float) (pid lid : nat) (st : ParameterCollectionStorage) :
  file = pre ++ encode r ++ post ->
  wf_record r ->
  (N.of_nat (length (pre ++ encode r)) < 9223372036854775808)%N ->
  key_matches key_ r = true ->
  str_eqb (r_tag r) (lit "#Parameter#") = false ->
  str_eqb (r_tag r) (lit "#LookupParameter#") = false ->
  populate_pc_body key key_ (vars (at_pos file (length pre)) line h vals pid lid st)
  = Leave (vars (at_pos file (length (pre ++ header_line r ++ [nl])))
                (header_line r) (header_of r) vals pid lid st)
          (Throw (bad_specification (header_line r))).
Proof.
  intros E Hr Hlen Hm Ht1 Ht2. unfold vars. body_header E Hr Hlen.
  rewrite (matched_test _ Hm). now rewrite Ht1, Ht2.
Qed.

Lemma body_end (line : str) (n : nat) (h : header)
    (vals : list float) (pid lid : nat) (st : ParameterCollectionStorage) :
  length file <= n ->
  populate_pc_body key key_ (vars (at_pos file n) line h vals pid lid st)
  = Leave (vars (at_end file n) [] h vals pid lid st) (Ret tt).
Proof.
  intros H. unfold vars, populate_pc_body.
  cbn [v_stream v_line v_header v_values v_param_id v_lookup_id v_storage].
  now rewrite getline_end.
Qed.

End Body.


(** The loop on a file of records does what the positional assignment of
    the matching records does. *)
Lemma populate_pc_loop_records (key key_ file : str) :
  key <> [] ->
  (N.of_nat (length file) < 9223372036854775808)%N ->
  forall (rs : list frecord) (items : list item) (pre line : str) (h : header)
         (vals : list float) (pid lid : nat) (st : ParameterCollectionStorage)
         (fuel : nat) pid' lid' st' out,
  file = pre ++ file_of rs ->
  Forall wf_record rs ->
  filter (key_matches key_) rs = map item_record items ->
  Forall wf_item items ->
  length rs < fuel ->
  assign_loop text_round items pid lid st = (pid', lid', st', out) ->
  exists v',
    populate_pc_loop key key_ fuel
      {| v_stream := at_pos file (length pre); v_line := line; v_header := h;
         v_values := vals; v_param_id := pid; v_lookup_id := lid;
         v_storage := st |} = Some (v', out)
    /\ v_storage v' = st'
    /\ (out = Ret tt ->
        v_param_id v' = pid' /\ v_lookup_id v' = lid' /\
        v_stream v' = at_end file (length file)).
Proof.
  intros Hkey Hlen.
  induction rs as [|r rs IH];
    intros items pre line h vals pid lid st fuel pid' lid' st' out
           E Hwf Hf Hit Hfuel Ha;
    (destruct fuel as [|fuel]; [lia|]); cbn [populate_pc_loop].
  - destruct items; [|discriminate]. cbn in Ha. injection Ha as <- <- <- <-.
    cbn [file_of flat_map] in E. rewrite app_nil_r in E.
    rewrite (body_end key key_ file) by (subst file; lia).
    eexists. split; [reflexivity|]. cbn. repeat split.
    now subst file.
  - apply Forall_cons_iff in Hwf as [Hr Hwf'].
    cbn [file_of flat_map] in E. fold (file_of rs) in E.
    assert (N.of_nat (length (pre ++ encode r)) < 9223372036854775808)%N
      as Hlen'.
    { rewrite E, !length_app in Hlen. rewrite length_app. lia. }
    assert (file = (pre ++ encode r) ++ file_of rs) as E'
      by now rewrite <- app_assoc.
    cbn [length] in Hfuel. apply Nat.succ_lt_mono in Hfuel.
    cbn [filter] in Hf.
    destruct (key_matches key_ r) eqn:Hm.
    + destruct items as [|i items]; [discriminate|].
      cbn [map] in Hf. injection Hf as Hri Hf. subst r.
      apply Forall_cons_iff in Hit as [Hi Hit'].
      cbn [assign_loop] in Ha.
      destruct (str_eqb (i_tag i) (lit "#Parameter#")) eqn:Ht.
      * apply str_eqb_eq in Ht.
        destruct (nth_error (params st) pid) as [p|] eqn:Hp.
        -- destruct (dim_eqb (dim p) (i_dim i)) eqn:Hd.
           ++ apply dim_eqb_eq in Hd.
              rewrite (body_param key key_ file pre (file_of rs) line i h
                         vals pid lid st p); auto.
              eapply IH; eauto.
           ++ rewrite (body_param_mismatch key key_ file pre (file_of rs)
                         line (item_record i) h vals pid lid st p); auto.
              injection Ha as <- <- <- <-.
              eexists. split; [reflexivity|]. cbn. split; [reflexivity|].
              discriminate.
        -- rewrite (body_too_many_params key key_ file pre (file_of rs)
                      line (item_record i) h vals pid lid st); auto.
           injection Ha as <- <- <- <-.
           eexists. split; [reflexivity|]. cbn. split; [reflexivity|].
           discriminate.
      * destruct (str_eqb (i_tag i) (lit "#LookupParameter#")) eqn:Ht2.
        -- apply str_eqb_eq in Ht2.
           destruct (nth_error (lookup_params st) lid) as [p|] eqn:Hp.
           ++ destruct (dim_eqb (all_dim p) (i_dim i)) eqn:Hd.
              ** apply dim_eqb_eq in Hd.
                 rewrite (body_lookup key key_ file pre (file_of rs) line
                            i h vals pid lid st p); auto.
                 eapply IH; eauto.
              ** rewrite (body_lookup_mismatch key key_ file pre
                            (file_of rs) line (item_record i) h vals pid lid
                            st p); auto.
                 injection Ha as <- <- <- <-.
                 eexists. split; [reflexivity|]. cbn. split; [reflexivity|].
                 discriminate.
           ++ rewrite (body_too_many_lookups key key_ file pre
                         (file_of rs) line (item_record i) h vals pid lid st);
                auto.
              injection Ha as <- <- <- <-.
              eexists. split; [reflexivity|]. cbn. split; [reflexivity|].
              discriminate.
        -- rewrite (body_bad_tag key key_ file pre (file_of rs) line
                      (item_record i) h vals pid lid st); auto.
           injection Ha as <- <- <- <-.
           eexists. split; [reflexivity|]. cbn. split; [reflexivity|].
           discriminate.
    + rewrite (body_skip key key_ file Hkey pre (file_of rs) line r h vals
                 pid lid st); auto.
      eapply IH; eauto.
Qed.


Lemma back_not_empty (s : str) : s <> [] -> exists c, back s = Some c.
Proof.
  induction s as [|a s IH]; [contradiction|]. intros _.
  destruct s as [|b s].
  - now exists a.
  - destruct IH as [c Hc]; [discriminate|]. exists c. exact Hc.
Qed.

Lemma back_app_last (s : str) (c : ascii) : back (s ++ [c]) = Some c.
Proof.
  induction s as [|a s IH]; [reflexivity|].
  cbn [app]. destruct (s ++ [c]) eqn:E.
  - destruct s; discriminate.
  - exact IH.
Qed.

(** The prefix that the saver and the loader compute is [normalized]. *)
Lemma key_prefix_normalized (key : str) (c : ascii) :
  back key = Some c ->
  (if negb (Ascii.eqb c "/") then key ++ lit "/" else key) = normalized key.
Proof. intros H. unfold normalized. rewrite H. now destruct (Ascii.eqb c "/"). Qed.

Lemma normalized_ends_in_slash (key : str) : back (normalized key) = Some "/"%char.
Proof.
  unfold normalized. destruct (back key) as [c|] eqn:E; [|reflexivity].
  destruct (Ascii.eqb_spec c "/"%char) as [->|_]; [exact E|].
  apply back_app_last.
Qed.

(** The whole-model populate on a file of records: what the positional
    assignment of the records matching the normalized key yields. *)
Lemma populate_pc_records (ld : TextFileLoader) (rs : list frecord)
    (items : list item) (st : ParameterCollectionStorage) (key : str)
    (fuel : nat) :
  key <> [] ->
  disk ld = Some (file_of rs) ->
  (N.of_nat (length (file_of rs)) < 9223372036854775808)%N ->
  Forall wf_record rs ->
  filter (key_matches (normalized key)) rs = map item_record items ->
  Forall wf_item items ->
  length rs < fuel ->
  populate_pc ld fuel st key = Some (assign text_round items st).
Proof.
  intros Hkey Hdisk Hlen Hwf Hf Hit Hfuel. unfold populate_pc. rewrite Hdisk.
  destruct (back_not_empty key Hkey) as [c Hc]. rewrite Hc.
  rewrite (key_prefix_normalized key c Hc).
  unfold assign.
  destruct (assign_loop text_round items 0 0 st) as [[[pid' lid'] st'] out]
    eqn:Ea.
  destruct (populate_pc_loop_records key (normalized key) (file_of rs) Hkey Hlen
              rs items [] [] header0 [] 0 0 st fuel pid' lid' st' out)
    as (v' & E & Hst & Hret); auto.
  change (at_pos (file_of rs) (length [])) with (open (file_of rs)) in E.
  rewrite E. destruct out as [[]|e|].
  - destruct (Hret eq_refl) as (-> & -> & _). rewrite Hst.
    destruct (pid' =? length (params st')), (lid' =? length (lookup_params st'));
      reflexivity.
  - now rewrite Hst.
  - now rewrite Hst.
Qed.


(** *** What the saver writes *)

Lemma save_ps_record (d : str) (p : ParameterStorage) (key : str) :
  save_ps d p key = d ++ encode (item_record (param_item key p)).
Proof.
  unfold save_ps, encode, header_line, param_item, item_record, saved_key,
    as_vector.
  cbn [r_tag r_key r_dim r_payload payload_text i_tag i_key i_dim i_values
       i_grads].
  change (lit "#Parameter# ") with (lit "#Parameter#" ++ lit " ").
  now rewrite <- !app_assoc.
Qed.

Lemma save_lps_record (d : str) (p : LookupParameterStorage) (key : str) :
  save_lps d p key = d ++ encode (item_record (lookup_item key p)).
Proof.
  unfold save_lps, encode, header_line, lookup_item, item_record, saved_key,
    as_vector.
  cbn [r_tag r_key r_dim r_payload payload_text i_tag i_key i_dim i_values
       i_grads].
  change (lit "#LookupParameter# ") with (lit "#LookupParameter#" ++ lit " ").
  now rewrite <- !app_assoc.
Qed.

(** A record is read back as written, and the skip from behind its header
    line ends behind its payload. *)
Lemma record_skip_exact (d rest line : str) (r : frecord) (h : header) :
  wf_record r ->
  (N.of_nat (length (d ++ encode r)) < 9223372036854775808)%N ->
  let file := d ++ encode r ++ rest in
  let after_header := at_pos file (length (d ++ header_line r ++ [nl])) in
  getline (at_pos file (length d)) line = (after_header, header_line r, true)
  /\ h_byte_count (read_header (header_line r) h)
     = N.of_nat (length (payload_text (r_payload r)))
  /\ skip_payload after_header (h_byte_count (read_header (header_line r) h))
     = at_pos file (length (d ++ encode r)).
Proof.
  intros Hr Hlen file after_header. subst file after_header.
  rewrite (getline_header _ d rest line r eq_refl Hr).
  rewrite (read_header_record _ _ Hr (payload_bound _ _ Hlen)).
  cbn [header_of h_byte_count]. repeat split.
  assert ((d ++ header_line r ++ [nl]) ++ payload_text (r_payload r)
          = d ++ encode r) as Ea.
  { unfold encode. now rewrite <- !app_assoc. }
  rewrite skip_payload_in; rewrite Ea; auto.
Qed.


Lemma token_lit_param : token (lit "#Parameter#").
Proof. split; [discriminate|]. repeat constructor. Qed.

Lemma token_lit_lookup : token (lit "#LookupParameter#").
Proof. split; [discriminate|]. repeat constructor. Qed.

Lemma saved_record_exact (d rest line : str) (i : item) (h : header) :
  let payload := put_floats FLOAT32_PRECISION (i_values i) ++ [nl] ++
                 put_floats FLOAT32_PRECISION (i_grads i) ++ [nl] in
  let hdr := header_line (item_record i) in
  let out := d ++ encode (item_record i) in
  (N.of_nat (length out) < 9223372036854775808)%N ->
  out = d ++ hdr ++ [nl] ++ payload
  /\ skip_payload (at_pos (out ++ rest) (length (d ++ hdr ++ [nl])))
                  (N.of_nat (length payload))
     = at_pos (out ++ rest) (length out)
  /\ (token (i_tag i) -> token (i_key i) ->
      getline (at_pos (out ++ rest) (length d)) line
      = (at_pos (out ++ rest) (length (d ++ hdr ++ [nl])), hdr, true)
      /\ h_byte_count (read_header hdr h) = N.of_nat (length payload)).
Proof.
  intros payload hdr out Hlen. subst payload hdr out.
  assert ((d ++ header_line (item_record i) ++ [nl])
          ++ payload_text (r_payload (item_record i))
          = d ++ encode (item_record i)) as Ea.
  { unfold encode. now rewrite <- !app_assoc. }
  split; [reflexivity|]. split.
  - change (put_floats FLOAT32_PRECISION (i_values i) ++ [nl] ++
            put_floats FLOAT32_PRECISION (i_grads i) ++ [nl])
      with (payload_text (r_payload (item_record i))).
    rewrite skip_payload_in; rewrite Ea; auto.
  - intros Ht Hk.
    destruct (record_skip_exact d rest line (item_record i) h (conj Ht Hk) Hlen)
      as (E1 & E2 & _).
    rewrite <- !app_assoc. split; [exact E1|exact E2].
Qed.

(** C2.  In every record that the saver writes, for a Parameter or a Lookup
    Parameter, the last field of the header line is the exact number of
    characters of the two payload lines with their terminators: the output
    is the header line with that number, the terminator and the payload,
    and the skip of the readers, started behind the header line with that
    number, ends exactly behind the record, where the next record starts or
    the stream ends.  When the key written is one field, a reader placed at
    the start of the record reads that header line and finds that number in
    it. *)
Theorem saved_payload_length_exact (d key rest line : str) (h : header) :
  (forall p : ParameterStorage,
     let payload := put_floats FLOAT32_PRECISION (values p) ++ [nl] ++
                    put_floats FLOAT32_PRECISION (g p) ++ [nl] in
     let hdr := lit "#Parameter#" ++ lit " " ++ saved_key key (name p)
                ++ lit " " ++ put_dim (dim p) ++ lit " "
                ++ put_N (N.of_nat (length payload)) in
     let out := save_ps d p key in
     (N.of_nat (length out) < 9223372036854775808)%N ->
     out = d ++ hdr ++ [nl] ++ payload
     /\ skip_payload (at_pos (out ++ rest) (length (d ++ hdr ++ [nl])))
                     (N.of_nat (length payload))
        = at_pos (out ++ rest) (length out)
     /\ (token (saved_key key (name p)) ->
         getline (at_pos (out ++ rest) (length d)) line
         = (at_pos (out ++ rest) (length (d ++ hdr ++ [nl])), hdr, true)
         /\ h_byte_count (read_header hdr h) = N.of_nat (length payload)))
  /\
  (forall p : LookupParameterStorage,
     let payload := put_floats FLOAT32_PRECISION (all_values p) ++ [nl] ++
                    put_floats FLOAT32_PRECISION (all_grads p) ++ [nl] in
     let hdr := lit "#LookupParameter#" ++ lit " " ++ saved_key key (lp_name p)
                ++ lit " " ++ put_dim (all_dim p) ++ lit " "
                ++ put_N (N.of_nat (length payload)) in
     let out := save_lps d p key in
     (N.of_nat (length out) < 9223372036854775808)%N ->
     out = d ++ hdr ++ [nl] ++ payload
     /\ skip_payload (at_pos (out ++ rest) (length (d ++ hdr ++ [nl])))
                     (N.of_nat (length payload))
        = at_pos (out ++ rest) (length out)
     /\ (token (saved_key key (lp_name p)) ->
         getline (at_pos (out ++ rest) (length d)) line
         = (at_pos (out ++ rest) (length (d ++ hdr ++ [nl])), hdr, true)
         /\ h_byte_count (read_header hdr h) = N.of_nat (length payload))).
Proof.
  split; intros p payload hdr out; subst payload hdr out.
  - rewrite save_ps_record. intros Hlen.
    destruct (saved_record_exact d rest line (param_item key p) h Hlen)
      as (E1 & E2 & E3).
    split; [exact E1|]. split; [exact E2|].
    intros Hk. exact (E3 token_lit_param Hk).
  - rewrite save_lps_record. intros Hlen.
    destruct (saved_record_exact d rest line (lookup_item key p) h Hlen)
      as (E1 & E2 & E3).
    split; [exact E1|]. split; [exact E2|].
    intros Hk. exact (E3 token_lit_lookup Hk).
Qed.

(** *** The readers of a single entity on a file of records *)

Lemma scan_records_not_found {St R : Type} (tag key what : str)
    (on_match : ifstream -> str -> header -> St -> ifstream * St * outcome R)
    (ld : TextFileLoader) (rs : list frecord) (s : St) (fuel : nat) :
  key <> [] ->
  disk ld = Some (file_of rs) ->
  Forall wf_record rs ->
  Forall (other_record tag key) rs ->
  (N.of_nat (length (file_of rs)) < 9223372036854775808)%N ->
  length rs < fuel ->
  scan tag key on_match what ld fuel s
  = Some (at_end (file_of rs) (length (file_of rs)), s, Throw (not_found key)).
Proof.
  intros Hkey Hdisk Hwf Hno Hlen Hfuel. unfold scan.
  rewrite (proj2 (str_eqb_neq key []) Hkey), Hdisk.
  now apply scan_loop_not_found.
Qed.

Lemma scan_records_found {St R : Type} (tag key what : str)
    (on_match : ifstream -> str -> header -> St -> ifstream * St * outcome R)
    (ld : TextFileLoader) (rs : list frecord) (r : frecord) (post : str)
    (s : St) (fuel : nat) :
  key <> [] ->
  disk ld = Some (file_of rs ++ encode r ++ post) ->
  Forall wf_record rs ->
  Forall (other_record tag key) rs ->
  wf_record r -> r_tag r = tag -> r_key r = key ->
  (N.of_nat (length (file_of rs ++ encode r)) < 9223372036854775808)%N ->
  length rs < fuel ->
  scan tag key on_match what ld fuel s
  = Some (on_match
            (at_pos (file_of rs ++ encode r ++ post)
                    (length (file_of rs ++ header_line r ++ [nl])))
            (header_line r) (header_of r) s).
Proof.
  intros Hkey Hdisk Hwf Hno Hr Ht Hk Hlen Hfuel. unfold scan.
  rewrite (proj2 (str_eqb_neq key []) Hkey), Hdisk.
  now apply scan_loop_found.
Qed.

(** C6, as the code has it.  The file is a sequence of records [rs], each
    a header line whose tag and key are fields without white space and
    whose length field is the length of the payload behind it; it is
    shorter than 2^63 bytes.  When none of the records has both the tag
    looked for and the key asked for, each of the four readers of a single
    entity, called with a key that is not empty, steps over every record,
    whatever its payload holds, reaches the end of the stream and throws
    the error that names the key. *)
Theorem single_entity_not_found (ld : TextFileLoader) (rs : list frecord)
    (key : str) (fuel : nat) :
  key <> [] ->
  disk ld = Some (file_of rs) ->
  Forall wf_record rs ->
  (N.of_nat (length (file_of rs)) < 9223372036854775808)%N ->
  length rs < fuel ->
  let eos := at_end (file_of rs) (length (file_of rs)) in
  let err := runtime_error
               (lit "Could not find key " ++ key ++ lit " in the model file") in
  (Forall (fun r => ~ (r_tag r = lit "#Parameter#" /\ r_key r = key)) rs ->
   (forall param,
      populate_param ld fuel param key = Some (eos, param, Throw err)) /\
   (forall model,
      load_param ld fuel model key = Some (eos, model, Throw err)))
  /\
  (Forall (fun r => ~ (r_tag r = lit "#LookupParameter#" /\ r_key r = key)) rs ->
   (forall lookup_param,
      populate_lookup ld fuel lookup_param key
      = Some (eos, lookup_param, Throw err)) /\
   (forall model,
      load_lookup_param ld fuel model key = Some (eos, model, Throw err))).
Proof.
  intros Hkey Hdisk Hwf Hlen Hfuel eos err.
  split; intros Hno; split; intros s;
    unfold populate_param, load_param, populate_lookup, load_lookup_param;
    now apply scan_records_not_found.
Qed.


Lemma split_last_snoc (d : Dim) (n : N) : split_last (d ++ [n]) = Some (d, n).
Proof.
  induction d as [|x d IH]; [reflexivity|].
  cbn [app split_last]. rewrite IH.
  destruct (d ++ [n]) eqn:E; [destruct d; discriminate|reflexivity].
Qed.

Lemma set_nth_last {A} (l : list A) (x y : A) :
  set_nth (length l) y (l ++ [x]) = l ++ [y].
Proof.
  unfold set_nth. rewrite skipn_length_app.
  rewrite firstn_app, Nat.sub_diag, firstn_all. cbn [firstn].
  now rewrite app_nil_r.
Qed.

Lemma nth_error_last {A} (l : list A) (x : A) :
  nth_error (l ++ [x]) (length l) = Some x.
Proof.
  rewrite nth_error_app2 by lia. now rewrite Nat.sub_diag.
Qed.

Lemma update_lookup_last (ps : list ParameterStorage)
    (ls : list LookupParameterStorage) (x : LookupParameterStorage) (fn : str)
    (upd : LookupParameterStorage -> LookupParameterStorage) :
  update_lookup {| get_storage := {| params := ps; lookup_params := ls ++ [x] |};
                   get_fullname := fn |} (length ls) upd
  = {| get_storage := {| params := ps; lookup_params := ls ++ [upd x] |};
       get_fullname := fn |}.
Proof.
  unfold update_lookup. cbn [get_storage get_fullname params lookup_params].
  now rewrite nth_error_last, set_nth_last.
Qed.

Lemma update_param_last (ps : list ParameterStorage)
    (ls : list LookupParameterStorage) (x : ParameterStorage) (fn : str)
    (upd : ParameterStorage -> ParameterStorage) :
  update_param {| get_storage := {| params := ps ++ [x]; lookup_params := ls |};
                  get_fullname := fn |} (length ps) upd
  = {| get_storage := {| params := ps ++ [upd x]; lookup_params := ls |};
       get_fullname := fn |}.
Proof.
  unfold update_param. cbn [get_storage get_fullname params lookup_params].
  now rewrite nth_error_last, set_nth_last.
Qed.

Lemma set_elements_all (t vec : list float) :
  length t <= length vec -> set_elements t vec = vec.
Proof.
  intros H. unfold set_elements. rewrite skipn_all2 by exact H.
  apply app_nil_r.
Qed.

Lemma length_new_values (n : N) : length (new_values n) = N.to_nat n.
Proof. apply repeat_length. Qed.



(** *** The positional assignment *)

Lemma length_set_nth {A} (l : list A) (n : nat) (x y : A) :
  nth_error l n = Some y -> length (set_nth n x l) = length l.
Proof.
  intros H. unfold set_nth.
  destruct (nth_error_split l n H) as (l1 & l2 & -> & <-).
  rewrite skipn_length_app, firstn_app, Nat.sub_diag, firstn_all.
  cbn [firstn]. rewrite app_nil_r, !length_app. reflexivity.
Qed.

Lemma nth_error_set_nth_other {A} (l : list A) (n k : nat) (x y : A) :
  nth_error l n = Some y -> k <> n ->
  nth_error (set_nth n x l) k = nth_error l k.
Proof.
  intros H Hk. unfold set_nth.
  destruct (nth_error_split l n H) as (l1 & l2 & -> & <-).
  rewrite skipn_length_app, firstn_app, Nat.sub_diag, firstn_all.
  cbn [firstn]. rewrite app_nil_r.
  destruct (Nat.lt_ge_cases k (length l1)) as [Hlt|Hge].
  - now rewrite !nth_error_app1 by exact Hlt.
  - rewrite !nth_error_app2 by exact Hge.
    destruct (k - length l1) as [|m] eqn:Em; [lia|reflexivity].
Qed.

Lemma assign_loop_app (a b : list item) :
  forall pid lid st,
  assign_loop text_round (a ++ b) pid lid st
  = match assign_loop text_round a pid lid st with
    | (pid', lid', st', Ret _) => assign_loop text_round b pid' lid' st'
    | r => r
    end.
Proof.
  induction a as [|i a IH]; intros pid lid st; [reflexivity|].
  cbn [app assign_loop].
  destruct (str_eqb (i_tag i) (lit "#Parameter#")).
  - destruct (nth_error (params st) pid); [|reflexivity].
    destruct (dim_eqb (dim p) (i_dim i)); [apply IH|reflexivity].
  - destruct (str_eqb (i_tag i) (lit "#LookupParameter#")); [|reflexivity].
    destruct (nth_error (lookup_params st) lid); [|reflexivity].
    destruct (dim_eqb (all_dim l) (i_dim i)); [apply IH|reflexivity].
Qed.

(** The assignment touches no entity at or beyond the numbers consumed, and
    keeps the numbers of entities. *)
Lemma assign_loop_frame (items : list item) :
  forall pid lid st pid' lid' st' out,
  assign_loop text_round items pid lid st = (pid', lid', st', out) ->
  pid <= pid' /\ lid <= lid' /\
  length (params st') = length (params st) /\
  length (lookup_params st') = length (lookup_params st) /\
  (forall k, pid' <= k -> nth_error (params st') k = nth_error (params st) k) /\
  (forall k, lid' <= k ->
     nth_error (lookup_params st') k = nth_error (lookup_params st) k).
Proof.
  induction items as [|i items IH]; intros pid lid st pid' lid' st' out H.
  - cbn in H. injection H as <- <- <- <-. repeat split; auto.
  - cbn [assign_loop] in H.
    destruct (str_eqb (i_tag i) (lit "#Parameter#")).
    + destruct (nth_error (params st) pid) as [p|] eqn:Hp.
      * destruct (dim_eqb (dim p) (i_dim i)).
        -- apply IH in H as (H1 & H2 & H3 & H4 & H5 & H6).
           cbn [params lookup_params] in *.
           rewrite (length_set_nth _ _ _ _ Hp) in H3.
           repeat split; auto; try lia.
           intros k Hk. rewrite H5 by exact Hk.
           apply (nth_error_set_nth_other _ _ _ _ _ Hp). lia.
        -- injection H as <- <- <- <-. repeat split; auto.
      * injection H as <- <- <- <-. repeat split; auto.
    + destruct (str_eqb (i_tag i) (lit "#LookupParameter#")).
      * destruct (nth_error (lookup_params st) lid) as [p|] eqn:Hp.
        -- destruct (dim_eqb (all_dim p) (i_dim i)).
           ++ apply IH in H as (H1 & H2 & H3 & H4 & H5 & H6).
              cbn [params lookup_params] in *.
              rewrite (length_set_nth _ _ _ _ Hp) in H4.
              repeat split; auto; try lia.
              intros k Hk. rewrite H6 by exact Hk.
              apply (nth_error_set_nth_other _ _ _ _ _ Hp). lia.
           ++ injection H as <- <- <- <-. repeat split; auto.
        -- injection H as <- <- <- <-. repeat split; auto.
      * injection H as <- <- <- <-. repeat split; auto.
Qed.

Lemma assign_stops (before after : list item) (i : item)
    (st st1 : ParameterCollectionStorage) (pid lid : nat) (e : exn) :
  assign_loop text_round before 0 0 st = (pid, lid, st1, Ret tt) ->
  assign_loop text_round [i] pid lid st1 = (pid, lid, st1, Throw e) ->
  assign text_round (before ++ i :: after) st = (st1, Throw e).
Proof.
  intros Hb Hi. unfold assign. rewrite assign_loop_app, Hb.
  change (i :: after) with ([i] ++ after). rewrite assign_loop_app, Hi.
  reflexivity.
Qed.





Lemma assign_loop_counts (items : list item) :
  forall pid lid st pid' lid' st',
  assign_loop text_round items pid lid st = (pid', lid', st', Ret tt) ->
  pid' = pid + count_tag (lit "#Parameter#") items /\
  lid' = lid + count_tag (lit "#LookupParameter#") items.
Proof.
  unfold count_tag, with_tag.
  induction items as [|i items IH]; intros pid lid st pid' lid' st' H.
  - cbn in H. injection H as <- <- <-. cbn. lia.
  - cbn [assign_loop] in H. cbn [filter].
    destruct (str_eqb (i_tag i) (lit "#Parameter#")) eqn:Ht.
    + apply str_eqb_eq in Ht. rewrite Ht.
      change (str_eqb (lit "#Parameter#") (lit "#LookupParameter#")) with false.
      destruct (nth_error (params st) pid) as [p|]; [|discriminate].
      destruct (dim_eqb (dim p) (i_dim i)); [|discriminate].
      apply IH in H. cbn [length]. lia.
    + destruct (str_eqb (i_tag i) (lit "#LookupParameter#")); [|discriminate].
      destruct (nth_error (lookup_params st) lid) as [p|]; [|discriminate].
      destruct (dim_eqb (all_dim p) (i_dim i)); [|discriminate].
      apply IH in H. cbn [length]. lia.
Qed.



Lemma firstn_length_app {A} (a b : list A) : firstn (length a) (a ++ b) = a.
Proof. induction a; simpl; [now destruct b|now f_equal]. Qed.

Lemma set_nth_split {A} (l1 l2 : list A) (x y : A) :
  set_nth (length l1) y (l1 ++ x :: l2) = l1 ++ y :: l2.
Proof.
  unfold set_nth. now rewrite skipn_length_app, firstn_length_app.
Qed.

Lemma firstn_S_app {A} (l1 l2 : list A) (y : A) :
  firstn (S (length l1)) (l1 ++ y :: l2) = l1 ++ [y].
Proof. induction l1; simpl; [now destruct l2|now f_equal]. Qed.

Lemma skipn_S_app {A} (l1 l2 : list A) (y : A) :
  skipn (S (length l1)) (l1 ++ y :: l2) = l2.
Proof. induction l1; simpl; auto. Qed.

Lemma assign_loop_result (items : list item) :
  forall pid lid st pid' lid' st',
  assign_loop text_round items pid lid st = (pid', lid', st', Ret tt) ->
  params st'
  = firstn pid (params st)
    ++ overwrite_all (overwrite_param text_round) (skipn pid (params st))
                     (with_tag (lit "#Parameter#") items)
  /\
  lookup_params st'
  = firstn lid (lookup_params st)
    ++ overwrite_all (overwrite_lookup text_round)
                     (skipn lid (lookup_params st))
                     (with_tag (lit "#LookupParameter#") items).
Proof.
  unfold with_tag.
  induction items as [|i items IH]; intros pid lid st pid' lid' st' H.
  - cbn in H. injection H as <- <- <-. cbn [filter].
    assert (forall A B (f : A -> B -> A) l, overwrite_all f l [] = l) as E
      by (intros A B f l; now destruct l).
    now rewrite !E, !firstn_skipn.
  - cbn [assign_loop] in H. cbn [filter].
    destruct (str_eqb (i_tag i) (lit "#Parameter#")) eqn:Ht.
    + apply str_eqb_eq in Ht. rewrite Ht.
      change (str_eqb (lit "#Parameter#") (lit "#LookupParameter#")) with false.
      destruct (nth_error (params st) pid) as [p|] eqn:Hp; [|discriminate].
      destruct (dim_eqb (dim p) (i_dim i)); [|discriminate].
      apply IH in H as [H1 H2]. cbn [params lookup_params] in H1, H2.
      split; [|exact H2]. rewrite H1.
      destruct (nth_error_split _ _ Hp) as (l1 & l2 & E & El). rewrite E.
      subst pid.
      rewrite set_nth_split, firstn_S_app, skipn_S_app.
      rewrite firstn_length_app, skipn_length_app.
      cbn [overwrite_all]. now rewrite <- app_assoc.
    + destruct (str_eqb (i_tag i) (lit "#LookupParameter#")); [|discriminate].
      destruct (nth_error (lookup_params st) lid) as [p|] eqn:Hp; [|discriminate].
      destruct (dim_eqb (all_dim p) (i_dim i)); [|discriminate].
      apply IH in H as [H1 H2]. cbn [params lookup_params] in H1, H2.
      split; [exact H1|]. rewrite H2.
      destruct (nth_error_split _ _ Hp) as (l1 & l2 & E & El). rewrite E.
      subst lid.
      rewrite set_nth_split, firstn_S_app, skipn_S_app.
      rewrite firstn_length_app, skipn_length_app.
      cbn [overwrite_all]. now rewrite <- app_assoc.
Qed.

(** A call of [assign] that returns has consumed as many records of each
    kind as the model has entities of that kind, and has overwritten the
    entities in their order by the records of their kind in file order. *)
Lemma assign_returns (items : list item) (st st' : ParameterCollectionStorage) :
  assign text_round items st = (st', Ret tt) ->
  count_tag (lit "#Parameter#") items = length (params st) /\
  count_tag (lit "#LookupParameter#") items = length (lookup_params st) /\
  params st' = overwrite_all (overwrite_param text_round) (params st)
                             (with_tag (lit "#Parameter#") items) /\
  lookup_params st' = overwrite_all (overwrite_lookup text_round)
                                    (lookup_params st)
                                    (with_tag (lit "#LookupParameter#") items).
Proof.
  unfold assign.
  destruct (assign_loop text_round items 0 0 st) as [[[pid lid] st1] out] eqn:Ha.
  destruct out as [[]|e|]; try discriminate.
  destruct (assign_loop_counts _ _ _ _ _ _ _ Ha) as [Hp Hl].
  destruct (assign_loop_frame _ _ _ _ _ _ _ _ Ha) as (_ & _ & H3 & H4 & _).
  destruct (assign_loop_result _ _ _ _ _ _ _ Ha) as [R1 R2].
  cbn [plus firstn skipn app] in *.
  destruct (Nat.eqb_spec pid (length (params st1))) as [E1|E1];
    destruct (Nat.eqb_spec lid (length (lookup_params st1))) as [E2|E2];
    cbn [andb]; intros H; try discriminate.
  injection H as <-. repeat split; auto; lia.
Qed.

(** C3, as the code has it.  The file is a sequence of records [rs], each
    a header line whose tag and key are fields without white space and
    whose length field is the length of the payload behind it; it is
    shorter than 2^63 bytes.  For a key that is not empty, the whole-model
    populate works with the key normalized to a prefix ending in a slash;
    it reads the records whose key starts with that prefix, [items], whose
    payloads are the two vector lines of their shapes, and steps over the
    others whatever their payload holds; its result is that of assigning
    [items] by position: when it returns, the Parameter records in file
    order have overwritten the Parameters of the model in stored order, one
    for one, and the Lookup Parameter records the Lookup Parameters; no
    name of an entity is looked at. *)
Theorem populate_pc_positional (ld : TextFileLoader) (rs : list frecord)
    (items : list item) (st : ParameterCollectionStorage) (key : str)
    (fuel : nat) :
  key <> [] ->
  disk ld = Some (file_of rs) ->
  (N.of_nat (length (file_of rs)) < 9223372036854775808)%N ->
  Forall wf_record rs ->
  filter (fun r => startswith (r_key r) (normalized key)) rs
    = map item_record items ->
  Forall wf_item items ->
  length rs < fuel ->
  back (normalized key) = Some "/"%char
  /\ populate_pc ld fuel st key = Some (assign text_round items st)
  /\ (forall st',
        populate_pc ld fuel st key = Some (st', Ret tt) ->
        length (with_tag (lit "#Parameter#") items) = length (params st) /\
        length (with_tag (lit "#LookupParameter#") items)
          = length (lookup_params st) /\
        params st'
          = overwrite_all (overwrite_param text_round) (params st)
                          (with_tag (lit "#Parameter#") items) /\
        lookup_params st'
          = overwrite_all (overwrite_lookup text_round) (lookup_params st)
                          (with_tag (lit "#LookupParameter#") items)).
Proof.
  intros Hkey Hdisk Hlen Hwf Hf Hit Hfuel.
  split; [apply normalized_ends_in_slash|].
  rewrite (populate_pc_records ld rs items st key fuel); auto.
  split; [reflexivity|].
  intros st' H. injection H as H. now apply assign_returns.
Qed.


(** C7, as the code has it.  The only test of a header that the readers make
    is the test of the tag in the whole-model populate: a header line whose
    second field starts with the normalized key and whose first field is
    neither of the two tags makes the call throw the error that quotes the
    line.  This holds for the first line of any file, whatever it holds, and
    for every matching record of a file of records that is reached.  No
    reader looks at the state of a stream after an extraction. *)
Theorem bad_tag_detected (ld : TextFileLoader)
    (st : ParameterCollectionStorage) (key : str) (fuel : nat) :
  key <> [] ->
  (forall (l rest : str),
     disk ld = Some (l ++ nl :: rest) ->
     Forall (fun c => Ascii.eqb c nl = false) l ->
     let h := read_header l header0 in
     startswith (h_name h) (normalized key) = true ->
     h_type h <> lit "#Parameter#" ->
     h_type h <> lit "#LookupParameter#" ->
     populate_pc ld (S fuel) st key
     = Some (st, Throw (runtime_error
                          (lit "Bad parameter specification in model: " ++ l))))
  /\
  (forall rs before i after pid lid st1,
     disk ld = Some (file_of rs) ->
     (N.of_nat (length (file_of rs)) < 9223372036854775808)%N ->
     Forall wf_record rs ->
     filter (key_matches (normalized key)) rs
       = map item_record (before ++ i :: after) ->
     Forall wf_item (before ++ i :: after) ->
     length rs < fuel ->
     assign_loop text_round before 0 0 st = (pid, lid, st1, Ret tt) ->
     i_tag i <> lit "#Parameter#" ->
     i_tag i <> lit "#LookupParameter#" ->
     populate_pc ld fuel st key
     = Some (st1, Throw (runtime_error
                           (lit "Bad parameter specification in model: "
                            ++ header_line (item_record i))))).
Proof.
  intros Hkey. split.
  - intros l rest Hdisk Hl h Hm Ht1 Ht2. unfold populate_pc. rewrite Hdisk.
    destruct (back_not_empty key Hkey) as [c Hc]. rewrite Hc.
    rewrite (key_prefix_normalized key c Hc).
    cbn [populate_pc_loop]. unfold populate_pc_body.
    cbn [v_stream v_line v_header v_values v_param_id v_lookup_id v_storage].
    change (open (l ++ nl :: rest))
      with (at_pos (l ++ nl :: rest) (length (@nil ascii))).
    rewrite (getline_in (l ++ nl :: rest) [] l rest [] eq_refl Hl).
    cbn [negb]. fold h.
    rewrite substr0_startswith, Hm. cbn [negb]. rewrite andb_false_r.
    rewrite (proj2 (str_eqb_neq _ _) Ht1), (proj2 (str_eqb_neq _ _) Ht2).
    reflexivity.
  - intros rs before i after pid lid st1 Hdisk Hlen Hwf Hf Hit Hfuel Hb Ht1 Ht2.
    rewrite (populate_pc_records ld rs (before ++ i :: after) st key fuel);
      auto.
    apply f_equal. apply assign_stops with (pid := pid) (lid := lid); auto.
    cbn [assign_loop].
    now rewrite (proj2 (str_eqb_neq _ _) Ht1), (proj2 (str_eqb_neq _ _) Ht2).
Qed.


(** *** Saving a model and reading it back *)

Lemma file_of_app (a b : list frecord) : file_of (a ++ b) = file_of a ++ file_of b.
Proof. apply flat_map_app. Qed.

Lemma save_each_records {A} (save : str -> A -> str -> str) (nm : A -> str)
    (mk : str -> A -> item) (key_ : str) (strip_size : nat) :
  (forall d p k, save d p k = d ++ encode (item_record (mk k p))) ->
  forall (ps : list A) (d : str),
  Forall (fun p => strip_size <= length (nm p)) ps ->
  save_each save nm key_ strip_size d ps
  = (d ++ file_of (map (fun p =>
             item_record (mk (key_ ++ skipn strip_size (nm p)) p)) ps),
     Ret tt).
Proof.
  intros Hsave. induction ps as [|p ps IH]; intros d Hps.
  - cbn. now rewrite app_nil_r.
  - apply Forall_cons_iff in Hps as [Hp Hps].
    cbn [save_each]. unfold substr_from.
    rewrite (proj2 (Nat.leb_le _ _) Hp).
    rewrite IH by exact Hps. rewrite Hsave.
    cbn [map file_of flat_map]. now rewrite <- app_assoc.
Qed.

(** A whole-model save under a key that is not empty writes the records
    [saved_items]. *)
Lemma save_pc_records (d : str) (model : ParameterCollection) (key : str) :
  key <> [] -> valid_pc_key key = true ->
  Forall (fun p => length (get_fullname model) <= length (name p))
         (params (get_storage model)) ->
  Forall (fun p => length (get_fullname model) <= length (lp_name p))
         (lookup_params (get_storage model)) ->
  save_pc d model key
  = (d ++ file_of (map item_record (saved_items model key)), Ret tt).
Proof.
  intros Hkey Hvalid Hps Hls. unfold save_pc. rewrite Hvalid. cbn [negb].
  destruct (back_not_empty key Hkey) as [c Hc]. rewrite Hc.
  rewrite (key_prefix_normalized key c Hc).
  destruct key as [|k0 key']; [contradiction|]. cbn [length Nat.eqb].
  rewrite (save_each_records save_ps name param_item _ _ save_ps_record _ _ Hps).
  rewrite (save_each_records save_lps lp_name lookup_item _ _ save_lps_record
             _ _ Hls).
  unfold saved_items. rewrite map_app, file_of_app, !map_map.
  now rewrite <- app_assoc.
Qed.

Lemma startswith_app (p s : str) : startswith (p ++ s) p = true.
Proof.
  induction p as [|c p IH]; [now destruct s|].
  cbn [app startswith]. now rewrite Ascii.eqb_refl, IH.
Qed.

Lemma filter_all {A} (f : A -> bool) (l : list A) :
  Forall (fun x => f x = true) l -> filter f l = l.
Proof.
  induction 1 as [|x l Hx _ IH]; [reflexivity|].
  cbn [filter]. now rewrite Hx, IH.
Qed.

Lemma normalized_not_empty (key : str) : normalized key <> [].
Proof.
  pose proof (normalized_ends_in_slash key) as H.
  destruct (normalized key); [discriminate|discriminate].
Qed.

Lemma saved_key_long (k nm : str) : k <> [] -> saved_key k nm = k.
Proof. destruct k; [contradiction|reflexivity]. Qed.

Lemma normalized_nospace (key : str) : nospace key -> nospace (normalized key).
Proof.
  intros H. unfold normalized. destruct (back key) as [c|].
  - destruct (Ascii.eqb c "/"); [exact H|].
    apply Forall_app. split; [exact H|]. now repeat constructor.
  - now repeat constructor.
Qed.

Lemma app_not_empty (a b : str) : a <> [] -> a ++ b <> [].
Proof. destruct a; [contradiction|discriminate]. Qed.

(** The records of a save all match the key of the save, are well formed
    when key and names hold no white space, and carry vectors of the length
    of their shape when the tensors of the model do. *)
Lemma saved_items_ok (model : ParameterCollection) (key : str) :
  nospace key -> names_ok model -> wf_storage (get_storage model) ->
  let items := saved_items model key in
  Forall wf_record (map item_record items) /\
  filter (key_matches (normalized key)) (map item_record items)
    = map item_record items /\
  Forall wf_item items.
Proof.
  intros Hkey [Hn1 Hn2] [Hw1 Hw2] items. subst items. unfold saved_items.
  pose proof (normalized_not_empty key) as Hne.
  pose proof (normalized_nospace key Hkey) as Hns.
  assert (forall rest, nospace rest -> token (normalized key ++ rest)) as Htok.
  { intros rest Hr. split; [now apply app_not_empty|].
    apply Forall_app. now split. }
  repeat split.
  - rewrite map_app, !map_map. apply Forall_app. split.
    + apply Forall_map. eapply Forall_impl; [|exact Hn1].
      intros p [_ Hp]. split; cbn.
      * exact token_lit_param.
      * rewrite saved_key_long by now apply app_not_empty. now apply Htok.
    + apply Forall_map. eapply Forall_impl; [|exact Hn2].
      intros p [_ Hp]. split; cbn.
      * exact token_lit_lookup.
      * rewrite saved_key_long by now apply app_not_empty. now apply Htok.
  - apply filter_all. rewrite map_app, !map_map. apply Forall_app. split.
    + apply Forall_map, Forall_forall. intros p _. unfold key_matches. cbn.
      rewrite saved_key_long by now apply app_not_empty.
      apply startswith_app.
    + apply Forall_map, Forall_forall. intros p _. unfold key_matches. cbn.
      rewrite saved_key_long by now apply app_not_empty.
      apply startswith_app.
  - apply Forall_app. split.
    + apply Forall_map. eapply Forall_impl; [|exact Hw1]. intros p Hp. exact Hp.
    + apply Forall_map. eapply Forall_impl; [|exact Hw2]. intros p Hp. exact Hp.
Qed.


Lemma nth_error_middle {A} (l1 l2 : list A) (x : A) :
  nth_error (l1 ++ x :: l2) (length l1) = Some x.
Proof. rewrite nth_error_app2 by lia. now rewrite Nat.sub_diag. Qed.

Lemma assign_loop_saved_params (f : ParameterStorage -> item) :
  (forall p, i_tag (f p) = lit "#Parameter#" /\ i_dim (f p) = dim p /\
             i_values (f p) = values p /\ i_grads (f p) = g p) ->
  forall ps ts, Forall2 (fun p t => dim t = dim p) ps ts ->
  Forall wf_param ps -> Forall wf_param ts ->
  forall done rest lid lks,
  assign_loop text_round (map f ps ++ rest) (length done) lid
              {| params := done ++ ts; lookup_params := lks |}
  = assign_loop text_round rest (length done + length ps) lid
      {| params := done ++ overwrite_all (fun t p =>
                     {| name := name t; dim := dim t;
                        values := map text_round (values p);
                        g := map text_round (g p) |}) ts ps;
         lookup_params := lks |}.
Proof.
  intros Hf ps ts H2. induction H2 as [|p t ps ts Hd H2 IH];
    intros Hps Hts done rest lid lks.
  - cbn. now rewrite Nat.add_0_r.
  - apply Forall_cons_iff in Hps as [[Hp1 Hp2] Hps].
    apply Forall_cons_iff in Hts as [[Ht1 Ht2] Hts].
    destruct (Hf p) as (F1 & F2 & F3 & F4).
    cbn [map app assign_loop params lookup_params].
    rewrite F1, str_eqb_refl, nth_error_middle.
    rewrite F2, Hd, (proj2 (dim_eqb_eq _ _) eq_refl).
    rewrite set_nth_split. unfold overwrite_param. rewrite F3, F4.
    rewrite Hd in Ht1, Ht2.
    rewrite !set_elements_all by (rewrite length_map; lia).
    cbn [overwrite_all length].
    specialize (IH Hps Hts
      (done ++ [{| name := name t; dim := dim t;
                   values := map text_round (values p);
                   g := map text_round (g p) |}]) rest lid lks).
    rewrite length_app in IH. cbn [length] in IH.
    rewrite <- !app_assoc in IH. cbn [app] in IH.
    replace (S (length done)) with (length done + 1) by lia.
    rewrite IH. f_equal. lia.
Qed.

Lemma assign_loop_saved_lookups (f : LookupParameterStorage -> item) :
  (forall p, i_tag (f p) = lit "#LookupParameter#" /\ i_dim (f p) = all_dim p /\
             i_values (f p) = all_values p /\ i_grads (f p) = all_grads p) ->
  forall ps ts, Forall2 (fun p t => all_dim t = all_dim p) ps ts ->
  Forall wf_lookup ps -> Forall wf_lookup ts ->
  forall done rest pid prs,
  assign_loop text_round (map f ps ++ rest) pid (length done)
              {| params := prs; lookup_params := done ++ ts |}
  = assign_loop text_round rest pid (length done + length ps)
      {| params := prs;
         lookup_params := done ++ overwrite_all (fun t p =>
                     {| lp_name := lp_name t; all_dim := all_dim t;
                        all_values := map text_round (all_values p);
                        all_grads := map text_round (all_grads p) |}) ts ps |}.
Proof.
  intros Hf ps ts H2. induction H2 as [|p t ps ts Hd H2 IH];
    intros Hps Hts done rest pid prs.
  - cbn. now rewrite Nat.add_0_r.
  - apply Forall_cons_iff in Hps as [[Hp1 Hp2] Hps].
    apply Forall_cons_iff in Hts as [[Ht1 Ht2] Hts].
    destruct (Hf p) as (F1 & F2 & F3 & F4).
    cbn [map app assign_loop params lookup_params].
    rewrite F1.
    change (str_eqb (lit "#LookupParameter#") (lit "#Parameter#")) with false.
    cbn iota.
    rewrite str_eqb_refl, nth_error_middle.
    rewrite F2, Hd, (proj2 (dim_eqb_eq _ _) eq_refl).
    rewrite set_nth_split. unfold overwrite_lookup. rewrite F3, F4.
    rewrite Hd in Ht1, Ht2.
    rewrite !set_elements_all by (rewrite length_map; lia).
    cbn [overwrite_all length].
    specialize (IH Hps Hts
      (done ++ [{| lp_name := lp_name t; all_dim := all_dim t;
                   all_values := map text_round (all_values p);
                   all_grads := map text_round (all_grads p) |}]) rest pid prs).
    rewrite length_app in IH. cbn [length] in IH.
    rewrite <- !app_assoc in IH. cbn [app] in IH.
    replace (S (length done)) with (length done + 1) by lia.
    rewrite IH. f_equal. lia.
Qed.

Lemma length_overwrite_all {A B} (f : A -> B -> A) (l : list A) (recs : list B) :
  length (overwrite_all f l recs) = length l.
Proof.
  revert recs. induction l as [|x l IH]; intros [|i recs]; cbn; auto.
Qed.

(** The saved records of [src] assigned to a model of the same structure. *)
Lemma assign_saved_items (model : ParameterCollection) (key : str)
    (dst : ParameterCollectionStorage) :
  wf_storage (get_storage model) -> wf_storage dst ->
  same_structure (get_storage model) dst ->
  assign text_round (saved_items model key) dst
  = (reloaded text_round (get_storage model) dst, Ret tt).
Proof.
  intros [Hw1 Hw2] [Hd1 Hd2] [Hs1 Hs2]. unfold assign, saved_items.
  destruct dst as [ts tl]. cbn [params lookup_params] in *.
  pose proof (assign_loop_saved_params
                (fun p => param_item
                   (normalized key ++ skipn (length (get_fullname model)) (name p)) p))
    as Hp.
  specialize (Hp (fun p => conj eq_refl (conj eq_refl (conj eq_refl eq_refl)))
                 _ _ Hs1 Hw1 Hd1 []).
  cbn [app length plus] in Hp. rewrite Hp.
  pose proof (assign_loop_saved_lookups
                (fun p => lookup_item
                   (normalized key ++ skipn (length (get_fullname model)) (lp_name p)) p))
    as Hl.
  specialize (Hl (fun p => conj eq_refl (conj eq_refl (conj eq_refl eq_refl)))
                 _ _ Hs2 Hw2 Hd2 [] []).
  cbn [app length plus] in Hl. rewrite app_nil_r in Hl.
  rewrite Hl. cbn [assign_loop params lookup_params].
  rewrite !length_overwrite_all.
  rewrite (Forall2_length Hs1), (Forall2_length Hs2), !Nat.eqb_refl.
  reflexivity.
Qed.


Lemma reloaded_contents (src dst : ParameterCollectionStorage) :
  same_structure src dst ->
  let r := reloaded text_round src dst in
  map values (params r) = map (fun p => map text_round (values p)) (params src)
  /\ map g (params r) = map (fun p => map text_round (g p)) (params src)
  /\ map all_values (lookup_params r)
     = map (fun p => map text_round (all_values p)) (lookup_params src)
  /\ map all_grads (lookup_params r)
     = map (fun p => map text_round (all_grads p)) (lookup_params src)
  /\ map dim (params r) = map dim (params dst)
  /\ map name (params r) = map name (params dst)
  /\ map all_dim (lookup_params r) = map all_dim (lookup_params dst)
  /\ map lp_name (lookup_params r) = map lp_name (lookup_params dst).
Proof.
  intros [H1 H2]. unfold reloaded. cbn [params lookup_params].
  repeat split.
  1,2,5,6: induction H1; cbn; [reflexivity|now f_equal].
  all: induction H2; cbn; [reflexivity|now f_equal].
Qed.

(** C1, as the code has it.  A model whose entity names can be stripped and
    hold no white space, saved under a key that the validator accepts, that
    is not empty and holds no white space of any kind, yields a file from
    which a model of the same structure is populated under the same key
    without error: afterwards every entity of the target holds the values
    and the gradients of the entity of the same position in the saved
    model, each number taken through the text form ([text_round]); shapes
    and names of the target are as before. *)
Theorem save_populate_roundtrip (model : ParameterCollection)
    (dst : ParameterCollectionStorage) (key filename : str) (fuel : nat) :
  key <> [] -> valid_pc_key key = true -> nospace key ->
  names_ok model ->
  wf_storage (get_storage model) -> wf_storage dst ->
  same_structure (get_storage model) dst ->
  let file := fst (save_pc [] model key) in
  (N.of_nat (length file) < 9223372036854775808)%N ->
  length (params (get_storage model))
    + length (lookup_params (get_storage model)) < fuel ->
  let src := get_storage model in
  save_pc [] model key = (file, Ret tt)
  /\ exists dst',
       populate_pc {| dataname := filename; disk := Some file |} fuel dst key
       = Some (dst', Ret tt)
       /\ map values (params dst')
          = map (fun p => map text_round (values p)) (params src)
       /\ map g (params dst')
          = map (fun p => map text_round (g p)) (params src)
       /\ map all_values (lookup_params dst')
          = map (fun p => map text_round (all_values p)) (lookup_params src)
       /\ map all_grads (lookup_params dst')
          = map (fun p => map text_round (all_grads p)) (lookup_params src)
       /\ map dim (params dst') = map dim (params dst)
       /\ map name (params dst') = map name (params dst)
       /\ map all_dim (lookup_params dst') = map all_dim (lookup_params dst)
       /\ map lp_name (lookup_params dst') = map lp_name (lookup_params dst).
Proof.
  intros Hkey Hvalid Hns Hnames Hwf Hwfd Hsame file Hlen Hfuel src.
  assert (save_pc [] model key
          = (file_of (map item_record (saved_items model key)), Ret tt)) as Es.
  { destruct Hnames as [Hn1 Hn2].
    apply (save_pc_records [] model key Hkey Hvalid).
    - eapply Forall_impl; [|exact Hn1]. now intros p [Hp _].
    - eapply Forall_impl; [|exact Hn2]. now intros p [Hp _]. }
  subst file. rewrite Es in *. cbn [fst] in *.
  split; [reflexivity|].
  destruct (saved_items_ok model key Hns Hnames Hwf) as (Hr & Hf & Hi).
  exists (reloaded text_round src dst). split.
  - rewrite (populate_pc_records _ (map item_record (saved_items model key))
               (saved_items model key) dst key fuel); auto.
    + now rewrite assign_saved_items.
    + rewrite length_map. unfold saved_items.
      rewrite length_app, !length_map. exact Hfuel.
  - now apply reloaded_contents.
Qed.


(** *** The empty key *)

(** C10, at the empty key.  The validator accepts the empty key, the access
    to the last character of the key is then out of bounds, and both
    whole-model operations make that access before they test whether the key
    is empty. *)
Theorem empty_key_reads_out_of_bounds :
  valid_pc_key [] = true
  /\ back [] = None
  /\ (forall d model, save_pc d model [] = (d, Undefined))
  /\ (forall filename file fuel st,
        populate_pc {| dataname := filename; disk := Some file |} fuel st []
        = Some (st, Undefined)).
Proof. repeat split. Qed.


(** ** Further properties

    *** What the readers do on any file *)

Lemma map_set_nth {A B} (f : A -> B) (l : list A) (n : nat) (x y : A) :
  nth_error l n = Some y -> f x = f y -> map f (set_nth n x l) = map f l.
Proof.
  intros H E. destruct (nth_error_split l n H) as (l1 & l2 & -> & <-).
  rewrite set_nth_split, !map_app. cbn [map]. now rewrite E.
Qed.

Lemma frame_kept_refl (st : ParameterCollectionStorage) : frame_kept st st.
Proof. repeat split. Qed.

Lemma frame_kept_trans (a b c : ParameterCollectionStorage) :
  frame_kept a b -> frame_kept b c -> frame_kept a c.
Proof.
  intros (A1 & A2 & A3 & A4) (B1 & B2 & B3 & B4).
  repeat split; congruence.
Qed.

Lemma populate_pc_body_frame (key key_ : str) (v : pc_vars) :
  match populate_pc_body key key_ v with
  | Continue v' => frame_kept (v_storage v) (v_storage v')
  | Leave v' _ => frame_kept (v_storage v) (v_storage v')
  end.
Proof.
  unfold populate_pc_body.
  destruct (getline (v_stream v) (v_line v)) as [[f1 line1] ok].
  destruct ok; cbn [negb]; [|apply frame_kept_refl].
  destruct (negb (length key =? 0) && _); [apply frame_kept_refl|].
  destruct (str_eqb (h_type _) (lit "#Parameter#")).
  - destruct (length (params (v_storage v)) <=? v_param_id v);
      [apply frame_kept_refl|].
    destruct (nth_error (params (v_storage v)) (v_param_id v)) as [p|] eqn:Hp;
      [|apply frame_kept_refl].
    destruct (negb (dim_eqb (dim p) _)); [apply frame_kept_refl|].
    destruct (read_values f1 line1 _) as [[f2 line2] vals2].
    destruct (read_values f2 line2 vals2) as [[f3 line3] vals3].
    cbn [v_storage]. unfold frame_kept. cbn [params lookup_params].
    repeat split; apply (map_set_nth _ _ _ _ _ Hp); reflexivity.
  - destruct (str_eqb (h_type _) (lit "#LookupParameter#"));
      [|apply frame_kept_refl].
    destruct (length (lookup_params (v_storage v)) <=? v_lookup_id v);
      [apply frame_kept_refl|].
    destruct (nth_error (lookup_params (v_storage v)) (v_lookup_id v))
      as [p|] eqn:Hp; [|apply frame_kept_refl].
    destruct (negb (dim_eqb (all_dim p) _)); [apply frame_kept_refl|].
    destruct (read_values f1 line1 _) as [[f2 line2] vals2].
    destruct (read_values f2 line2 vals2) as [[f3 line3] vals3].
    cbn [v_storage]. unfold frame_kept. cbn [params lookup_params].
    repeat split; apply (map_set_nth _ _ _ _ _ Hp); reflexivity.
Qed.

Lemma populate_pc_loop_frame (key key_ : str) (fuel : nat) :
  forall v v' o,
  populate_pc_loop key key_ fuel v = Some (v', o) ->
  frame_kept (v_storage v) (v_storage v').
Proof.
  induction fuel as [|fuel IH]; intros v v' o H; [discriminate|].
  cbn [populate_pc_loop] in H.
  pose proof (populate_pc_body_frame key key_ v) as Hb.
  destruct (populate_pc_body key key_ v) as [v1|v1 o1].
  - eapply frame_kept_trans; [exact Hb|]. eapply IH; eauto.
  - injection H as <- <-. exact Hb.
Qed.

(** X1.  The whole-model populate, whatever the bytes of the file, the key and
    the fuel: when the call ends, the model has the entities it had, in the
    same order, with the same names and the same shapes; values and
    gradients alone can have changed. *)
Theorem populate_pc_keeps_frame (ld : TextFileLoader) (fuel : nat)
    (st st' : ParameterCollectionStorage) (key : str) (o : outcome unit) :
  populate_pc ld fuel st key = Some (st', o) ->
  map name (params st') = map name (params st) /\
  map dim (params st') = map dim (params st) /\
  map lp_name (lookup_params st') = map lp_name (lookup_params st) /\
  map all_dim (lookup_params st') = map all_dim (lookup_params st).
Proof.
  unfold populate_pc. intros H.
  destruct (disk ld) as [file|]; [|injection H as <- <-; repeat split].
  destruct (back key) as [c|]; [|injection H as <- <-; repeat split].
  destruct (populate_pc_loop key _ fuel _) as [[v o1]|] eqn:E; [|discriminate].
  apply populate_pc_loop_frame in E. cbn [v_storage] in E.
  destruct o1 as [[]|e|].
  - destruct (negb _ || negb _); injection H as <- <-; exact E.
  - injection H as <- <-. exact E.
  - injection H as <- <-. exact E.
Qed.


Lemma scan_loop_cases {St R : Type} (tag key : str)
    (on_match : ifstream -> str -> header -> St -> ifstream * St * outcome R)
    (s : St) (fuel : nat) :
  forall f line h r,
  scan_loop tag key on_match fuel f line h s = Some r ->
  (exists f', r = (f', s, Throw (not_found key))) \/
  (exists f' line' h',
     h_type h' = tag /\ h_name h' = key /\ r = on_match f' line' h' s).
Proof.
  induction fuel as [|fuel IH]; intros f line h r H; [discriminate|].
  cbn [scan_loop] in H.
  destruct (getline f line) as [[f1 line1] ok]. destruct ok.
  - destruct (str_eqb (h_type (read_header line1 h)) tag
              && str_eqb (h_name (read_header line1 h)) key) eqn:E.
    + apply andb_true_iff in E as [E1 E2].
      apply str_eqb_eq in E1, E2. injection H as <-.
      right. exists f1, line1, (read_header line1 h). auto.
    + eapply IH; eauto.
  - injection H as <-. left. now exists f1.
Qed.

Lemma scan_cases {St R : Type} (tag key what : str)
    (on_match : ifstream -> str -> header -> St -> ifstream * St * outcome R)
    (ld : TextFileLoader) (s : St) (fuel : nat) r :
  scan tag key on_match what ld fuel s = Some r ->
  (exists f' e, r = (f', s, Throw e)) \/
  (key <> [] /\
   exists f' line' h',
     h_type h' = tag /\ h_name h' = key /\ r = on_match f' line' h' s).
Proof.
  unfold scan. intros H.
  destruct (str_eqb key []) eqn:Ek; [injection H as <-; left; eauto|].
  apply str_eqb_neq in Ek.
  destruct (disk ld) as [file|]; [|injection H as <-; left; eauto].
  apply scan_loop_cases in H as [[f' ->]|(f' & line' & h' & H1 & H2 & ->)].
  - left. eauto.
  - right. split; [exact Ek|]. eauto 6.
Qed.

(** X2.  The readers that populate one entity, whatever the bytes of the file:
    they return or throw; the entity keeps its name and its shape; and when
    the call does not return, the entity is exactly as it was. *)
Theorem populate_single_inert_on_failure (ld : TextFileLoader) (fuel : nat)
    (key : str) :
  (forall param f param' o,
     populate_param ld fuel param key = Some (f, param', o) ->
     name param' = name param /\ dim param' = dim param /\
     ((o = Ret tt) \/ (exists e, o = Throw e) /\ param' = param))
  /\
  (forall lookup_param f lookup_param' o,
     populate_lookup ld fuel lookup_param key = Some (f, lookup_param', o) ->
     lp_name lookup_param' = lp_name lookup_param /\
     all_dim lookup_param' = all_dim lookup_param /\
     ((o = Ret tt) \/ (exists e, o = Throw e) /\ lookup_param' = lookup_param)).
Proof.
  split.
  - intros param f param' o H. unfold populate_param in H.
    apply scan_cases in H as [(f' & e & H)|(_ & f' & line' & h' & _ & _ & H)].
    + injection H as -> -> ->. repeat split. right. eauto.
    + unfold populate_param_match in H.
      destruct (negb (dim_eqb (dim param) (h_dim h'))).
      * injection H as -> -> ->. repeat split. right. eauto.
      * destruct (read_values f' line' _) as [[f2 line2] vals2].
        destruct (read_values f2 line2 vals2) as [[f3 line3] vals3].
        injection H as -> -> ->. repeat split. now left.
  - intros param f param' o H. unfold populate_lookup in H.
    apply scan_cases in H as [(f' & e & H)|(_ & f' & line' & h' & _ & _ & H)].
    + injection H as -> -> ->. repeat split. right. eauto.
    + unfold populate_lookup_match in H.
      destruct (negb (dim_eqb (all_dim param) (h_dim h'))).
      * injection H as -> -> ->. repeat split. right. eauto.
      * destruct (read_values f' line' _) as [[f2 line2] vals2].
        destruct (read_values f2 line2 vals2) as [[f3 line3] vals3].
        injection H as -> -> ->. repeat split. now left.
Qed.

(** X3.  The readers that load one entity into a model, whatever the bytes of
    the file: a call that throws leaves the model as it was; a call that
    returns has added exactly one entity, behind those of its kind, whose
    name is the key asked for, returns its position as the handle, and has
    touched nothing else of the model. *)
Theorem load_adds_one_or_nothing (ld : TextFileLoader) (fuel : nat)
    (key : str) (model : ParameterCollection) :
  (forall f model' o,
     load_param ld fuel model key = Some (f, model', o) ->
     match o with
     | Ret handle =>
         handle = length (params (get_storage model)) /\
         exists p,
           name p = key /\
           model' = {| get_storage :=
                         {| params := params (get_storage model) ++ [p];
                            lookup_params := lookup_params (get_storage model) |};
                       get_fullname := get_fullname model |}
     | _ => model' = model
     end)
  /\
  (forall f model' o,
     load_lookup_param ld fuel model key = Some (f, model', o) ->
     match o with
     | Ret handle =>
         handle = length (lookup_params (get_storage model)) /\
         exists p,
           lp_name p = key /\
           model' = {| get_storage :=
                         {| params := params (get_storage model);
                            lookup_params :=
                              lookup_params (get_storage model) ++ [p] |};
                       get_fullname := get_fullname model |}
     | _ => model' = model
     end).
Proof.
  destruct model as [[ps ls] fn]. cbn [get_storage get_fullname params lookup_params].
  split.
  - intros f model' o H. unfold load_param in H.
    apply scan_cases in H as [(f' & e & H)|(_ & f' & line' & h' & _ & Hn & H)].
    + injection H as -> -> ->. reflexivity.
    + unfold load_param_match, add_parameters in H.
      cbn [get_storage get_fullname params lookup_params] in H.
      rewrite update_param_last in H.
      destruct (read_values f' line' _) as [[f2 line2] vals2].
      rewrite update_param_last in H.
      destruct (read_values f2 line2 vals2) as [[f3 line3] vals3].
      rewrite update_param_last in H.
      injection H as -> -> ->. split; [reflexivity|].
      eexists. split; [|reflexivity]. exact Hn.
  - intros f model' o H. unfold load_lookup_param in H.
    apply scan_cases in H as [(f' & e & H)|(_ & f' & line' & h' & _ & Hn & H)].
    + injection H as -> -> ->. reflexivity.
    + unfold load_lookup_param_match in H.
      destruct (split_last (h_dim h')) as [[d size]|].
      * unfold add_lookup_parameters in H.
        cbn [get_storage get_fullname params lookup_params] in H.
        rewrite update_lookup_last in H.
        destruct (read_values f' line' _) as [[f2 line2] vals2].
        rewrite update_lookup_last in H.
        destruct (read_values f2 line2 vals2) as [[f3 line3] vals3].
        rewrite update_lookup_last in H.
        injection H as -> -> ->. split; [reflexivity|].
        eexists. split; [|reflexivity]. exact Hn.
      * injection H as -> -> ->. reflexivity.
Qed.


(** *** What the saver does on any input *)

Lemma save_each_appends {A} (save : str -> A -> str -> str) (nm : A -> str)
    (key_ : str) (strip_size : nat) :
  (forall d p k, exists w, save d p k = d ++ w) ->
  forall ps d, exists w, fst (save_each save nm key_ strip_size d ps) = d ++ w.
Proof.
  intros Hsave. induction ps as [|p ps IH]; intros d.
  - exists []. cbn. now rewrite app_nil_r.
  - cbn [save_each]. destruct (substr_from (nm p) strip_size) as [rest|].
    + destruct (Hsave d p (key_ ++ rest)) as [w1 E1].
      destruct (IH (save d p (key_ ++ rest))) as [w2 E2].
      exists (w1 ++ w2). now rewrite E2, E1, app_assoc.
    + exists []. cbn. now rewrite app_nil_r.
Qed.

(** X4.  The saver only ever adds to what is written: whatever the model, the
    entity and the key, and whether the call returns or throws, the output
    starts with the output as it was before the call. *)
Theorem save_only_appends (d key : str) :
  (forall model, exists w, fst (save_pc d model key) = d ++ w) /\
  (forall param, exists w, fst (save_param d param key) = d ++ w) /\
  (forall param, exists w, fst (save_lookup d param key) = d ++ w).
Proof.
  assert (forall d p k, exists w, save_ps d p k = d ++ w) as Hps
    by (intros; rewrite save_ps_record; eauto).
  assert (forall d p k, exists w, save_lps d p k = d ++ w) as Hls
    by (intros; rewrite save_lps_record; eauto).
  assert (exists w, d = d ++ w) as Hd by (exists []; now rewrite app_nil_r).
  repeat split.
  - intros model. unfold save_pc.
    destruct (negb (valid_pc_key key)); [exact Hd|].
    destruct (back key) as [c|] eqn:Hc; [|exact Hd].
    destruct key as [|k0 key']; [discriminate Hc|]. cbn [length Nat.eqb].
    destruct (save_each_appends save_ps name
                (if negb (Ascii.eqb c "/") then (k0 :: key') ++ lit "/"
                 else k0 :: key')
                (length (get_fullname model)) Hps
                (params (get_storage model)) d) as [w1 E1].
    destruct (save_each save_ps name _ _ d (params (get_storage model)))
      as [d1 [[]|e|]] eqn:E; cbn [fst] in E1; subst d1; cbv beta iota;
      try (exists w1; reflexivity).
    destruct (save_each_appends save_lps lp_name
                (if negb (Ascii.eqb c "/") then (k0 :: key') ++ lit "/"
                 else k0 :: key')
                (length (get_fullname model)) Hls
                (lookup_params (get_storage model)) (d ++ w1)) as [w2 E2].
    exists (w1 ++ w2). etransitivity; [exact E2|]. now rewrite app_assoc.
  - intros param. unfold save_param.
    destruct (negb (valid_key key)); [exact Hd|apply Hps].
  - intros param. unfold save_lookup.
    destruct (negb (valid_key key)); [exact Hd|apply Hls].
Qed.

Lemma valid_key_false (key : str) :
  In " "%char key \/ In "#"%char key \/ key = lit "/" -> valid_key key = false.
Proof.
  intros H. unfold valid_key.
  destruct key as [|c key]; [destruct H as [[]|[[]|H]]; discriminate H|].
  cbn [length Nat.eqb].
  destruct (str_eqb (c :: key) (lit "/")) eqn:E; [reflexivity|].
  apply str_eqb_neq in E.
  destruct (find _ (c :: key)) eqn:F; [reflexivity|].
  rewrite find_none_iff in F.
  destruct H as [H|[H|H]]; [| |contradiction];
    specialize (F _ H); discriminate F.
Qed.

(** X5.  A key with a blank or a hash sign in it, and the key that is one slash,
    are refused by the three save operations that take a key: each throws
    the invalid-argument error that quotes the key and writes nothing.  The
    whole-model save also refuses every key that is not empty and does not
    start with a slash. *)
Theorem save_refuses_bad_key (d key : str) :
  (In " "%char key \/ In "#"%char key \/ key = lit "/" ->
   (forall model,
      save_pc d model key
      = (d, Throw (invalid_argument
             (lit "Key should start with '/' and could not include ' ' or '#': "
              ++ key)))) /\
   (forall param,
      save_param d param key
      = (d, Throw (invalid_argument
             (lit "Key could not include ' ' or '#': " ++ key)))) /\
   (forall param,
      save_lookup d param key
      = (d, Throw (invalid_argument
             (lit "Key could not include ' ' or '#': " ++ key)))))
  /\
  (forall c rest model,
     key = c :: rest -> c <> "/"%char ->
     save_pc d model key
     = (d, Throw (invalid_argument
            (lit "Key should start with '/' and could not include ' ' or '#': "
             ++ key)))).
Proof.
  split.
  - intros H. pose proof (valid_key_false key H) as Hv.
    assert (valid_pc_key key = false) as Hp.
    { unfold valid_pc_key.
      destruct key as [|c key]; [destruct H as [[]|[[]|H]]; discriminate H|].
      cbn [length Nat.eqb].
      destruct (negb (startswith (c :: key) (lit "/"))); [reflexivity|exact Hv]. }
    repeat split; intros x.
    + unfold save_pc. now rewrite Hp.
    + unfold save_param. now rewrite Hv.
    + unfold save_lookup. now rewrite Hv.
  - intros c rest model -> Hc. unfold save_pc, valid_pc_key.
    cbn [length Nat.eqb startswith lit list_ascii_of_string].
    destruct (Ascii.eqb_spec "/"%char c) as [E|_]; [congruence|].
    reflexivity.
Qed.


(** X6.  A whole-model save under a key that is not empty and that the validator
    accepts, of a model all of whose entity names are at least as long as
    the name of the model: the call returns, and what it has added to the
    output is one record for each entity, the Parameters in stored order
    and then the Lookup Parameters in stored order, each under the
    normalized key followed by the name of the entity without its first
    characters, as many as the name of the model has. *)
Theorem save_pc_writes_every_entity (d : str) (model : ParameterCollection)
    (key : str) :
  key <> [] -> valid_pc_key key = true ->
  Forall (fun p => length (get_fullname model) <= length (name p))
         (params (get_storage model)) ->
  Forall (fun p => length (get_fullname model) <= length (lp_name p))
         (lookup_params (get_storage model)) ->
  let strip_size := length (get_fullname model) in
  save_pc d model key
  = (d ++ file_of
            (map (fun p => item_record
                    (param_item (normalized key ++ skipn strip_size (name p)) p))
                 (params (get_storage model))
             ++ map (fun p => item_record
                    (lookup_item (normalized key ++ skipn strip_size (lp_name p)) p))
                 (lookup_params (get_storage model))),
     Ret tt).
Proof.
  intros Hkey Hvalid Hps Hls strip_size. subst strip_size.
  rewrite (save_pc_records d model key Hkey Hvalid Hps Hls).
  unfold saved_items. now rewrite map_app, !map_map.
Qed.

Lemma save_each_short {A} (save : str -> A -> str -> str) (nm : A -> str)
    (mk : str -> A -> item) (key_ : str) (strip_size : nat) :
  (forall d p k, save d p k = d ++ encode (item_record (mk k p))) ->
  forall (before : list A) (p : A) (after : list A) (d : str),
  Forall (fun p => strip_size <= length (nm p)) before ->
  length (nm p) < strip_size ->
  save_each save nm key_ strip_size d (before ++ p :: after)
  = (d ++ file_of (map (fun p =>
             item_record (mk (key_ ++ skipn strip_size (nm p)) p)) before),
     Throw out_of_range).
Proof.
  intros Hsave. induction before as [|q before IH]; intros p after d Hb Hp.
  - cbn [app save_each map file_of flat_map]. unfold substr_from.
    rewrite (proj2 (Nat.leb_gt _ _) Hp). now rewrite app_nil_r.
  - apply Forall_cons_iff in Hb as [Hq Hb].
    cbn [app save_each]. unfold substr_from.
    rewrite (proj2 (Nat.leb_le _ _) Hq).
    rewrite IH by assumption. rewrite Hsave.
    cbn [map file_of flat_map]. now rewrite <- app_assoc.
Qed.

(** X7.  A whole-model save of a model one of whose entities has a name shorter
    than the name of the model: [substr] throws the out-of-range error at
    that entity, and the records of the entities before it stay written. *)
Theorem save_pc_short_name (d : str) (model : ParameterCollection) (key : str) :
  key <> [] -> valid_pc_key key = true ->
  let strip_size := length (get_fullname model) in
  let precord := fun p => item_record
                   (param_item (normalized key ++ skipn strip_size (name p)) p) in
  let lrecord := fun p => item_record
                   (lookup_item (normalized key ++ skipn strip_size (lp_name p)) p) in
  (forall before p after,
     params (get_storage model) = before ++ p :: after ->
     Forall (fun p => strip_size <= length (name p)) before ->
     length (name p) < strip_size ->
     save_pc d model key
     = (d ++ file_of (map precord before), Throw out_of_range))
  /\
  (forall before p after,
     Forall (fun p => strip_size <= length (name p)) (params (get_storage model)) ->
     lookup_params (get_storage model) = before ++ p :: after ->
     Forall (fun p => strip_size <= length (lp_name p)) before ->
     length (lp_name p) < strip_size ->
     save_pc d model key
     = (d ++ file_of (map precord (params (get_storage model))
                      ++ map lrecord before),
        Throw out_of_range)).
Proof.
  intros Hkey Hvalid strip_size precord lrecord.
  subst strip_size precord lrecord.
  destruct (back_not_empty key Hkey) as [c Hc].
  split.
  - intros before p after E Hb Hp. unfold save_pc.
    rewrite Hvalid, Hc. cbn [negb].
    rewrite (key_prefix_normalized key c Hc).
    destruct key as [|k0 key']; [contradiction|]. cbn [length Nat.eqb].
    rewrite E.
    now rewrite (save_each_short save_ps name param_item _ _ save_ps_record
                   before p after d Hb Hp).
  - intros before p after Hps E Hb Hp. unfold save_pc.
    rewrite Hvalid, Hc. cbn [negb].
    rewrite (key_prefix_normalized key c Hc).
    destruct key as [|k0 key']; [contradiction|]. cbn [length Nat.eqb].
    rewrite (save_each_records save_ps name param_item _ _ save_ps_record
               _ _ Hps).
    rewrite E.
    rewrite (save_each_short save_lps lp_name lookup_item _ _ save_lps_record
               before p after _ Hb Hp).
    now rewrite file_of_app, <- app_assoc.
Qed.


(** *** The slash at the end of the key *)

Lemma valid_pc_key_normalized (key : str) :
  key <> [] -> valid_pc_key key = true -> valid_pc_key (normalized key) = true.
Proof.
  intros Hkey Hv. unfold normalized.
  destruct (back_not_empty key Hkey) as [c Hc]. rewrite Hc. clear Hc.
  destruct (Ascii.eqb c "/"); [exact Hv|].
  destruct key as [|c0 rest]; [contradiction|].
  unfold valid_pc_key in *. cbn [length Nat.eqb app] in *.
  cbn [startswith lit list_ascii_of_string] in *.
  destruct (Ascii.eqb "/" c0); cbn [andb negb] in *; [|discriminate].
  replace (startswith rest []) with true in Hv by now destruct rest.
  replace (startswith (rest ++ ["/"%char]) []) with true
    by now destruct (rest ++ ["/"%char]).
  cbn [negb] in *.
  unfold valid_key in *. cbn [length Nat.eqb lit list_ascii_of_string] in *.
  destruct (str_eqb (c0 :: rest) ["/"%char]); [discriminate|].
  assert (str_eqb (c0 :: rest ++ ["/"%char]) ["/"%char] = false) as ->.
  { apply (proj2 (str_eqb_neq _ _)). intros E. injection E as _ E.
    apply app_eq_nil in E as [_ E]. discriminate E. }
  destruct (find _ (c0 :: rest)) eqn:F; [discriminate|].
  rewrite find_none_iff in F.
  assert (find (fun ch => Ascii.eqb ch " " || Ascii.eqb ch "#")
               (c0 :: rest ++ ["/"%char]) = None) as ->; [|reflexivity].
  apply find_none_iff. intros x Hx.
  change (c0 :: rest ++ ["/"%char]) with ((c0 :: rest) ++ ["/"%char]) in Hx.
  apply in_app_or in Hx as [Hx|[<-|[]]]; [now apply F|reflexivity].
Qed.

Lemma normalized_idempotent (key : str) : normalized (normalized key) = normalized key.
Proof.
  unfold normalized at 1. now rewrite normalized_ends_in_slash.
Qed.

(** X8.  For the whole-model save, a key and the same key with a slash at its end
    are one key: under a key that is not empty and that the validator
    accepts, the call ends as it does under the normalized key, with the
    same output. *)
Theorem save_pc_final_slash (d : str) (model : ParameterCollection) (key : str) :
  key <> [] -> valid_pc_key key = true ->
  save_pc d model key = save_pc d model (normalized key).
Proof.
  intros Hkey Hv.
  pose proof (valid_pc_key_normalized key Hkey Hv) as Hv'.
  pose proof (normalized_not_empty key) as Hne.
  unfold save_pc. rewrite Hv, Hv'. cbn [negb].
  destruct (back_not_empty key Hkey) as [c Hc]. rewrite Hc.
  rewrite (key_prefix_normalized key c Hc).
  rewrite normalized_ends_in_slash.
  change (negb (Ascii.eqb "/" "/")) with false. cbv iota.
  destruct key as [|k0 key']; [contradiction|].
  destruct (normalized (k0 :: key')) as [|n0 nk] eqn:En; [contradiction|].
  reflexivity.
Qed.

Lemma populate_pc_body_key (k1 k2 key_ : str) (v : pc_vars) :
  k1 <> [] -> k2 <> [] ->
  populate_pc_body k1 key_ v = populate_pc_body k2 key_ v.
Proof.
  intros H1 H2. destruct k1; [contradiction|]. destruct k2; [contradiction|].
  reflexivity.
Qed.

Lemma populate_pc_loop_key (k1 k2 key_ : str) (fuel : nat) :
  k1 <> [] -> k2 <> [] ->
  forall v, populate_pc_loop k1 key_ fuel v = populate_pc_loop k2 key_ fuel v.
Proof.
  intros H1 H2. induction fuel as [|fuel IH]; intros v; [reflexivity|].
  cbn [populate_pc_loop]. rewrite (populate_pc_body_key k1 k2 key_ v H1 H2).
  destruct (populate_pc_body k2 key_ v); [apply IH|reflexivity].
Qed.

(** X9.  For the whole-model populate as well: whatever the bytes of the file,
    the model and the fuel, the call under a key that is not empty does
    what the call under the normalized key does. *)
Theorem populate_pc_final_slash (ld : TextFileLoader) (fuel : nat)
    (st : ParameterCollectionStorage) (key : str) :
  key <> [] ->
  populate_pc ld fuel st key = populate_pc ld fuel st (normalized key).
Proof.
  intros Hkey. unfold populate_pc.
  destruct (disk ld) as [file|]; [|reflexivity].
  destruct (back_not_empty key Hkey) as [c Hc]. rewrite Hc.
  rewrite (key_prefix_normalized key c Hc).
  rewrite normalized_ends_in_slash.
  change (negb (Ascii.eqb "/" "/")) with false. cbv iota.
  now rewrite (populate_pc_loop_key key (normalized key) (normalized key) fuel
                 Hkey (normalized_not_empty key)).
Qed.


(** *** Reading one entity that is there *)

Lemma item_wf_record (i : item) (tag key : str) :
  i_tag i = tag -> i_key i = key -> token tag -> token key ->
  wf_record (item_record i).
Proof. intros <- <- Ht Hk. now split. Qed.

(** The readers that populate one entity, on a file whose first record with
    the tag and the key asked for is [i], a record of the shape of the
    entity: the call returns, the entity holds the two vectors of [i], and
    the stream stands just behind [i].  What follows [i] in the file is
    never read: it can be further records, with the same key or not, or
    bytes that are no records. *)
Lemma populate_single_hit (ld : TextFileLoader) (rs : list frecord)
    (i : item) (post key : str) (fuel : nat) :
  key <> [] -> token key ->
  disk ld = Some (file_of rs ++ encode (item_record i) ++ post) ->
  Forall wf_record rs ->
  i_key i = key -> wf_item i ->
  (N.of_nat (length (file_of rs ++ encode (item_record i)))
   < 9223372036854775808)%N ->
  length rs < fuel ->
  let behind := at_pos (file_of rs ++ encode (item_record i) ++ post)
                       (length (file_of rs ++ encode (item_record i))) in
  (forall param,
     Forall (other_record (lit "#Parameter#") key) rs ->
     i_tag i = lit "#Parameter#" -> dim param = i_dim i ->
     populate_param ld fuel param key
     = Some (behind, overwrite_param text_round param i, Ret tt))
  /\
  (forall lookup_param,
     Forall (other_record (lit "#LookupParameter#") key) rs ->
     i_tag i = lit "#LookupParameter#" -> all_dim lookup_param = i_dim i ->
     populate_lookup ld fuel lookup_param key
     = Some (behind, overwrite_lookup text_round lookup_param i, Ret tt)).
Proof.
  intros Hkey Htok Hdisk Hwf Hk [Hv Hg] Hlen Hfuel behind. subst behind.
  split.
  - intros param Hno Ht Hd.
    pose proof (item_wf_record i _ _ Ht Hk token_lit_param Htok) as Hr.
    unfold populate_param.
    rewrite (scan_records_found (lit "#Parameter#") key _ _ ld rs
               (item_record i) post param fuel); auto.
    unfold populate_param_match. cbn [header_of h_dim item_record r_dim].
    rewrite Hd, (proj2 (dim_eqb_eq _ _) eq_refl). cbn [negb].
    rewrite (read_values_in _ _ _ _ (i_values i) _
               (item_file _ (file_of rs) post i eq_refl))
      by (rewrite length_new_values; now rewrite Hv).
    rewrite (read_values_in _ _ _ _ (i_grads i) _
               (item_file2 _ (file_of rs) post i eq_refl))
      by (rewrite length_map; now rewrite Hv, Hg).
    rewrite item_end. unfold overwrite_param. cbn [name dim values g].
    now rewrite Hd.
  - intros param Hno Ht Hd.
    pose proof (item_wf_record i _ _ Ht Hk token_lit_lookup Htok) as Hr.
    unfold populate_lookup.
    rewrite (scan_records_found (lit "#LookupParameter#") key _ _ ld rs
               (item_record i) post param fuel); auto.
    unfold populate_lookup_match. cbn [header_of h_dim item_record r_dim].
    rewrite Hd, (proj2 (dim_eqb_eq _ _) eq_refl). cbn [negb].
    rewrite (read_values_in _ _ _ _ (i_values i) _
               (item_file _ (file_of rs) post i eq_refl))
      by (rewrite length_new_values; now rewrite Hv).
    rewrite (read_values_in _ _ _ _ (i_grads i) _
               (item_file2 _ (file_of rs) post i eq_refl))
      by (rewrite length_map; now rewrite Hv, Hg).
    rewrite item_end. unfold overwrite_lookup.
    cbn [lp_name all_dim all_values all_grads].
    now rewrite Hd.
Qed.

(** [load_param] on a file whose first Parameter record with the key asked
    for is [i]: the model gets one more Parameter, behind the others, with
    the key as its name, the shape written in [i] and the two vectors of
    [i]; its position is returned as the handle; what follows [i] in the
    file is never read. *)
Lemma load_param_hit (ld : TextFileLoader) (rs : list frecord)
    (i : item) (post key : str) (model : ParameterCollection) (fuel : nat) :
  key <> [] -> token key ->
  disk ld = Some (file_of rs ++ encode (item_record i) ++ post) ->
  Forall wf_record rs ->
  Forall (other_record (lit "#Parameter#") key) rs ->
  i_tag i = lit "#Parameter#" -> i_key i = key -> wf_item i ->
  (N.of_nat (length (file_of rs ++ encode (item_record i)))
   < 9223372036854775808)%N ->
  length rs < fuel ->
  load_param ld fuel model key
  = Some (at_pos (file_of rs ++ encode (item_record i) ++ post)
                 (length (file_of rs ++ encode (item_record i))),
          {| get_storage :=
               {| params := params (get_storage model)
                            ++ [{| name := key; dim := i_dim i;
                                   values := map text_round (i_values i);
                                   g := map text_round (i_grads i) |}];
                  lookup_params := lookup_params (get_storage model) |};
             get_fullname := get_fullname model |},
          Ret (length (params (get_storage model)))).
Proof.
  intros Hkey Htok Hdisk Hwf Hno Ht Hk [Hv Hg] Hlen Hfuel.
  pose proof (item_wf_record i _ _ Ht Hk token_lit_param Htok) as Hr.
  unfold load_param.
  rewrite (scan_records_found (lit "#Parameter#") key _ _ ld rs
             (item_record i) post model fuel); auto.
  unfold load_param_match, add_parameters.
  cbn [header_of h_dim h_name item_record r_dim r_key].
  destruct model as [[ps ls] fn].
  cbn [get_storage get_fullname params lookup_params].
  rewrite !update_param_last.
  rewrite (read_values_in _ _ _ _ (i_values i) _
             (item_file _ (file_of rs) post i eq_refl))
    by (rewrite length_new_values; now rewrite Hv).
  rewrite !update_param_last.
  rewrite (read_values_in _ _ _ _ (i_grads i) _
             (item_file2 _ (file_of rs) post i eq_refl))
    by (rewrite length_map; now rewrite Hv, Hg).
  rewrite !update_param_last.
  rewrite item_end. cbn [name dim values g].
  rewrite !set_elements_all by (rewrite length_new_values, length_map; lia).
  now rewrite Hk.
Qed.


(** *** Saving one entity and reading it back *)

Lemma load_lookup_hit (ld : TextFileLoader) (rs : list frecord)
    (i : item) (post key : str) (model : ParameterCollection)
    (d : Dim) (n : N) (fuel : nat) :
  key <> [] -> token key ->
  disk ld = Some (file_of rs ++ encode (item_record i) ++ post) ->
  Forall wf_record rs ->
  Forall (other_record (lit "#LookupParameter#") key) rs ->
  i_tag i = lit "#LookupParameter#" -> i_key i = key -> wf_item i ->
  i_dim i = d ++ [n] ->
  (N.of_nat (length (file_of rs ++ encode (item_record i)))
   < 9223372036854775808)%N ->
  length rs < fuel ->
  load_lookup_param ld fuel model key
  = Some (at_pos (file_of rs ++ encode (item_record i) ++ post)
                 (length (file_of rs ++ encode (item_record i))),
          {| get_storage :=
               {| params := params (get_storage model);
                  lookup_params :=
                    lookup_params (get_storage model)
                    ++ [{| lp_name := key; all_dim := i_dim i;
                           all_values := map text_round (i_values i);
                           all_grads := map text_round (i_grads i) |}] |};
             get_fullname := get_fullname model |},
          Ret (length (lookup_params (get_storage model)))).
Proof.
  intros Hkey Htok Hdisk Hwf Hno Ht Hk [Hv Hg] Hd Hlen Hfuel.
  pose proof (item_wf_record i _ _ Ht Hk token_lit_lookup Htok) as Hr.
  unfold load_lookup_param.
  rewrite (scan_records_found (lit "#LookupParameter#") key _ _ ld rs
             (item_record i) post model fuel); auto.
  unfold load_lookup_param_match.
  cbn [header_of h_dim h_name item_record r_dim r_key].
  rewrite Hd, split_last_snoc. unfold add_lookup_parameters.
  destruct model as [[ps ls] fn].
  cbn [get_storage get_fullname params lookup_params].
  rewrite !update_lookup_last.
  rewrite (read_values_in _ _ _ _ (i_values i) _
             (item_file _ (file_of rs) post i eq_refl))
    by (rewrite length_new_values, <- Hd; now rewrite Hv).
  rewrite !update_lookup_last.
  rewrite (read_values_in _ _ _ _ (i_grads i) _
             (item_file2 _ (file_of rs) post i eq_refl))
    by (rewrite length_map; now rewrite Hv, Hg).
  rewrite !update_lookup_last.
  rewrite item_end. cbn [lp_name all_dim all_values all_grads].
  rewrite !set_elements_all
    by (rewrite length_new_values, length_map, <- Hd; lia).
  now rewrite Hk.
Qed.

Lemma save_param_ok (d : str) (p : ParameterStorage) (key : str) :
  valid_key key = true ->
  save_param d p key = (d ++ encode (item_record (param_item key p)), Ret tt).
Proof. intros H. unfold save_param. now rewrite H, save_ps_record. Qed.

Lemma save_lookup_ok (d : str) (p : LookupParameterStorage) (key : str) :
  valid_key key = true ->
  save_lookup d p key = (d ++ encode (item_record (lookup_item key p)), Ret tt).
Proof. intros H. unfold save_lookup. now rewrite H, save_lps_record. Qed.

Lemma token_not_empty (s : str) : token s -> s <> [].
Proof. now intros [H _]. Qed.



(** X10.  Populating one entity that is in the file.  On a file that starts with
    records, the first of which with the tag and the key asked for is [i],
    a record of the shape of the entity, [populate] of a Parameter and of a
    LookupParameter return; the entity keeps its name and shape and holds
    the values and gradients of [i]; the stream stands just behind [i].
    What follows [i] is never read: further records, with the same key or
    not, or bytes that are no records. *)
Theorem populate_single_found (ld : TextFileLoader) (rs : list frecord)
    (i : item) (post key : str) (fuel : nat) :
  key <> [] -> token key ->
  disk ld = Some (file_of rs ++ encode (item_record i) ++ post) ->
  Forall wf_record rs ->
  i_key i = key -> wf_item i ->
  (N.of_nat (length (file_of rs ++ encode (item_record i)))
   < 9223372036854775808)%N ->
  length rs < fuel ->
  (forall param,
     Forall (other_record (lit "#Parameter#") key) rs ->
     i_tag i = lit "#Parameter#" -> dim param = i_dim i ->
     populate_param ld fuel param key
     = Some (at_pos (file_of rs ++ encode (item_record i) ++ post)
                    (length (file_of rs ++ encode (item_record i))),
             {| name := name param; dim := dim param;
                values := set_elements (values param)
                            (map text_round (i_values i));
                g := set_elements (g param) (map text_round (i_grads i)) |},
             Ret tt))
  /\
  (forall lookup_param,
     Forall (other_record (lit "#LookupParameter#") key) rs ->
     i_tag i = lit "#LookupParameter#" -> all_dim lookup_param = i_dim i ->
     populate_lookup ld fuel lookup_param key
     = Some (at_pos (file_of rs ++ encode (item_record i) ++ post)
                    (length (file_of rs ++ encode (item_record i))),
             {| lp_name := lp_name lookup_param;
                all_dim := all_dim lookup_param;
                all_values := set_elements (all_values lookup_param)
                                (map text_round (i_values i));
                all_grads := set_elements (all_grads lookup_param)
                               (map text_round (i_grads i)) |},
             Ret tt)).
Proof.
  intros Hkey Htok Hdisk Hwf Hk Hi Hlen Hfuel.
  destruct (populate_single_hit ld rs i post key fuel
              Hkey Htok Hdisk Hwf Hk Hi Hlen Hfuel) as [Hp Hl].
  split.
  - intros param Hno Ht Hd. exact (Hp param Hno Ht Hd).
  - intros lookup_param Hno Ht Hd. exact (Hl lookup_param Hno Ht Hd).
Qed.

(** X11.  Loading one entity that is in the file.  On a file that starts with
    records, the first of which with the tag and the key asked for is [i],
    [load_param] gives the model one more Parameter, behind the others,
    with the key as its name, the shape written in [i] and the two vectors
    of [i], and returns its position as the handle.  [load_lookup_param]
    does the same for a LookupParameter whose written shape has a last
    extent; the shape of the new entity is the written one.  What follows
    [i] in the file is never read. *)
Theorem load_single_found (ld : TextFileLoader) (rs : list frecord)
    (i : item) (post key : str) (model : ParameterCollection) (fuel : nat) :
  key <> [] -> token key ->
  disk ld = Some (file_of rs ++ encode (item_record i) ++ post) ->
  Forall wf_record rs ->
  i_key i = key -> wf_item i ->
  (N.of_nat (length (file_of rs ++ encode (item_record i)))
   < 9223372036854775808)%N ->
  length rs < fuel ->
  (Forall (other_record (lit "#Parameter#") key) rs ->
   i_tag i = lit "#Parameter#" ->
   load_param ld fuel model key
   = Some (at_pos (file_of rs ++ encode (item_record i) ++ post)
                  (length (file_of rs ++ encode (item_record i))),
           {| get_storage :=
                {| params := params (get_storage model)
                             ++ [{| name := key; dim := i_dim i;
                                    values := map text_round (i_values i);
                                    g := map text_round (i_grads i) |}];
                   lookup_params := lookup_params (get_storage model) |};
              get_fullname := get_fullname model |},
           Ret (length (params (get_storage model)))))
  /\
  (forall d n,
     Forall (other_record (lit "#LookupParameter#") key) rs ->
     i_tag i = lit "#LookupParameter#" -> i_dim i = d ++ [n] ->
     load_lookup_param ld fuel model key
     = Some (at_pos (file_of rs ++ encode (item_record i) ++ post)
                    (length (file_of rs ++ encode (item_record i))),
             {| get_storage :=
                  {| params := params (get_storage model);
                     lookup_params :=
                       lookup_params (get_storage model)
                       ++ [{| lp_name := key; all_dim := i_dim i;
                              all_values := map text_round (i_values i);
                              all_grads := map text_round (i_grads i) |}] |};
                get_fullname := get_fullname model |},
             Ret (length (lookup_params (get_storage model))))).
Proof.
  intros Hkey Htok Hdisk Hwf Hk Hi Hlen Hfuel. split.
  - intros Hno Ht. now apply load_param_hit.
  - intros d n Hno Ht Hd. now apply (load_lookup_hit ld rs i post key model d n).
Qed.

(** X13.  One entity saved behind earlier records and loaded into a model.
    The earlier content is a sequence of well-formed records, the key of
    the save is one that the validator accepts, and [k] is the key of the
    record written: the key given to the save, or the name of the entity
    when that key is empty.  Provided that [k] is one field (not empty, no
    white space), that no earlier record has the tag and the key [k], that
    the tensors of the entity have the sizes of its shape and that the file
    stays below 2^63 bytes: [load_param] with [k] adds to the model a
    Parameter named [k] with the shape of the saved one and its values and
    gradients, each number taken through the text form.
    [load_lookup_param] does the same for a saved LookupParameter whose
    shape has a last extent. *)
Theorem save_load_single (rs : list frecord) (key filename : str)
    (model : ParameterCollection) (fuel : nat) :
  valid_key key = true ->
  Forall wf_record rs ->
  length rs < fuel ->
  (forall p,
     let k := saved_key key (name p) in
     let out := fst (save_param (file_of rs) p key) in
     token k ->
     Forall (other_record (lit "#Parameter#") k) rs ->
     wf_param p ->
     (N.of_nat (length out) < 9223372036854775808)%N ->
     load_param {| dataname := filename; disk := Some out |} fuel model k
     = Some (at_pos out (length out),
             {| get_storage :=
                  {| params := params (get_storage model)
                               ++ [{| name := k; dim := dim p;
                                      values := map text_round (values p);
                                      g := map text_round (g p) |}];
                     lookup_params := lookup_params (get_storage model) |};
                get_fullname := get_fullname model |},
             Ret (length (params (get_storage model)))))
  /\
  (forall p d n,
     let k := saved_key key (lp_name p) in
     let out := fst (save_lookup (file_of rs) p key) in
     token k ->
     Forall (other_record (lit "#LookupParameter#") k) rs ->
     wf_lookup p -> all_dim p = d ++ [n] ->
     (N.of_nat (length out) < 9223372036854775808)%N ->
     load_lookup_param {| dataname := filename; disk := Some out |} fuel
                       model k
     = Some (at_pos out (length out),
             {| get_storage :=
                  {| params := params (get_storage model);
                     lookup_params :=
                       lookup_params (get_storage model)
                       ++ [{| lp_name := k; all_dim := all_dim p;
                              all_values := map text_round (all_values p);
                              all_grads := map text_round (all_grads p) |}] |};
                get_fullname := get_fullname model |},
             Ret (length (lookup_params (get_storage model))))).
Proof.
  intros Hvalid Hwf Hfuel. split.
  - intros p k out Htok Hno [Hp1 Hp2] Hlen. subst k out.
    rewrite (save_param_ok _ p key Hvalid) in *. cbn [fst] in *.
    assert (wf_item (param_item key p)) as Hi by (split; assumption).
    pose proof (load_param_hit
                {| dataname := filename;
                   disk := Some (file_of rs ++ encode (item_record (param_item key p))) |}
                rs (param_item key p) [] (saved_key key (name p)) model fuel)
      as H.
    rewrite app_nil_r in H. cbn [disk] in H.
    etransitivity; [apply H; auto; now apply token_not_empty|].
    reflexivity.
  - intros p d n k out Htok Hno [Hp1 Hp2] Hd Hlen. subst k out.
    rewrite (save_lookup_ok _ p key Hvalid) in *. cbn [fst] in *.
    assert (wf_item (lookup_item key p)) as Hi by (split; assumption).
    pose proof (load_lookup_hit
                {| dataname := filename;
                   disk := Some (file_of rs ++ encode (item_record (lookup_item key p))) |}
                rs (lookup_item key p) [] (saved_key key (lp_name p)) model
                d n fuel)
      as H.
    rewrite app_nil_r in H. cbn [disk] in H.
    etransitivity; [apply H; auto; now apply token_not_empty|].
    reflexivity.
Qed.


(** *** Several models in one file *)

Lemma startswith_app_cases (a b s : str) :
  startswith (b ++ s) a = true ->
  startswith b a = true \/ startswith a b = true.
Proof.
  revert b. induction a as [|c a IH]; intros [|d b] H; cbn in *; auto.
  apply andb_true_iff in H as [Hc H].
  destruct (IH b H) as [H1|H1]; [left|right]; rewrite H1.
  - now rewrite Hc.
  - now rewrite Ascii.eqb_sym, Hc.
Qed.

Lemma filter_none {A} (f : A -> bool) (l : list A) :
  Forall (fun x => f x = false) l -> filter f l = [].
Proof.
  induction 1 as [|x l Hx _ IH]; [reflexivity|].
  cbn [filter]. now rewrite Hx.
Qed.

Lemma saved_items_other_key (model : ParameterCollection) (key prefix : str) :
  startswith (normalized key) prefix = false ->
  startswith prefix (normalized key) = false ->
  filter (key_matches prefix) (map item_record (saved_items model key)) = [].
Proof.
  intros H1 H2. apply filter_none. unfold saved_items.
  pose proof (normalized_not_empty key) as Hne.
  assert (forall rest, startswith (normalized key ++ rest) prefix = false) as Hk.
  { intros rest.
    destruct (startswith (normalized key ++ rest) prefix) eqn:E; [|reflexivity].
    destruct (startswith_app_cases _ _ _ E) as [E'|E']; congruence. }
  rewrite map_app, !map_map. apply Forall_app. split.
  - apply Forall_map, Forall_forall. intros p _. unfold key_matches. cbn.
    rewrite saved_key_long by now apply app_not_empty. apply Hk.
  - apply Forall_map, Forall_forall. intros p _. unfold key_matches. cbn.
    rewrite saved_key_long by now apply app_not_empty. apply Hk.
Qed.

Lemma saved_items_length (model : ParameterCollection) (key : str) :
  length (saved_items model key)
  = length (params (get_storage model))
    + length (lookup_params (get_storage model)).
Proof. unfold saved_items. now rewrite length_app, !length_map. Qed.

Lemma save_pc_saved_items (d : str) (model : ParameterCollection) (key : str) :
  key <> [] -> valid_pc_key key = true -> names_ok model ->
  save_pc d model key
  = (d ++ file_of (map item_record (saved_items model key)), Ret tt).
Proof.
  intros Hkey Hvalid [Hn1 Hn2].
  apply (save_pc_records d model key Hkey Hvalid).
  - eapply Forall_impl; [|exact Hn1]. now intros p [Hp _].
  - eapply Forall_impl; [|exact Hn2]. now intros p [Hp _].
Qed.

(** X14.  Two models in one file.  Model [A] is saved under the key [ka]
    into a new file, the file is opened again for appending and model [B]
    is saved under [kb].  Both keys are not empty, are accepted by the
    validator and hold no white space of any kind; in both models the
    entity names are at least as long as the name of the model and hold no
    white space behind it, and the tensors have the sizes of their shapes;
    each target has the shapes of the model it is read from; the file
    stays below 2^63 bytes.  When in addition neither key, with its final
    slash, is the beginning of the other, each model is populated back from
    the one file under its own key: the target of the structure of [A]
    gets the contents of [A], the target of the structure of [B] those of
    [B], each number taken through the text form. *)
Theorem append_keeps_both_models (A B : ParameterCollection)
    (ta tb : ParameterCollectionStorage) (ka kb filename : str) (fuel : nat) :
  ka <> [] -> valid_pc_key ka = true -> nospace ka ->
  kb <> [] -> valid_pc_key kb = true -> nospace kb ->
  startswith (normalized ka) (normalized kb) = false ->
  startswith (normalized kb) (normalized ka) = false ->
  names_ok A -> wf_storage (get_storage A) -> wf_storage ta ->
  same_structure (get_storage A) ta ->
  names_ok B -> wf_storage (get_storage B) -> wf_storage tb ->
  same_structure (get_storage B) tb ->
  let d1 := fst (save_pc [] A ka) in
  let d2 := fst (save_pc d1 B kb) in
  (N.of_nat (length d2) < 9223372036854775808)%N ->
  length (params (get_storage A)) + length (lookup_params (get_storage A))
  + (length (params (get_storage B)) + length (lookup_params (get_storage B)))
  < fuel ->
  let ld := {| dataname := filename; disk := Some d2 |} in
  save_pc [] A ka = (d1, Ret tt)
  /\ TextFileSaver_new filename (Some d1) true true = Ret d1
  /\ save_pc d1 B kb = (d2, Ret tt)
  /\ populate_pc ld fuel ta ka
     = Some (reloaded text_round (get_storage A) ta, Ret tt)
  /\ populate_pc ld fuel tb kb
     = Some (reloaded text_round (get_storage B) tb, Ret tt).
Proof.
  intros Hka Hva Hsa Hkb Hvb Hsb Hab Hba HnA HwA Hwta HsA HnB HwB Hwtb HsB
         d1 d2 Hlen Hfuel ld.
  subst ld d2 d1.
  rewrite (save_pc_saved_items [] A ka Hka Hva HnA) in *. cbn [fst app] in *.
  rewrite (save_pc_saved_items _ B kb Hkb Hvb HnB) in *. cbn [fst] in *.
  rewrite <- file_of_app in *.
  destruct (saved_items_ok A ka Hsa HnA HwA) as (HrA & HfA & HiA).
  destruct (saved_items_ok B kb Hsb HnB HwB) as (HrB & HfB & HiB).
  assert (length (map item_record (saved_items A ka)
                  ++ map item_record (saved_items B kb)) < fuel) as Hf.
  { now rewrite length_app, !length_map, !saved_items_length. }
  set (rs := map item_record (saved_items A ka)
             ++ map item_record (saved_items B kb)) in *.
  repeat split.
  - rewrite (populate_pc_records
               {| dataname := filename; disk := Some (file_of rs) |} rs
               (saved_items A ka) ta ka fuel Hka eq_refl Hlen); auto.
    + now rewrite assign_saved_items.
    + apply Forall_app. now split.
    + subst rs.
      rewrite filter_app, HfA, (saved_items_other_key B kb _ Hba Hab).
      apply app_nil_r.
  - rewrite (populate_pc_records
               {| dataname := filename; disk := Some (file_of rs) |} rs
               (saved_items B kb) tb kb fuel Hkb eq_refl Hlen); auto.
    + now rewrite assign_saved_items.
    + apply Forall_app. now split.
    + subst rs.
      rewrite filter_app, HfB, (saved_items_other_key A ka _ Hab Hba).
      reflexivity.
Qed.



(** *** A saved model read entity by entity *)

Lemma file_of_middle (a b : list frecord) (r : frecord) :
  file_of (a ++ r :: b) = file_of a ++ encode r ++ file_of b.
Proof. now rewrite file_of_app. Qed.

Lemma length_file_prefix (a post : str) (n : N) :
  (N.of_nat (length (a ++ post)) < n)%N -> (N.of_nat (length a) < n)%N.
Proof. rewrite length_app. lia. Qed.

(** X16.  The records of a whole-model save can be read one at a time.
    The model is saved into a new file under a key that is not empty, that
    the validator accepts and that holds no white space of any kind; its
    entity names are at least as long as the name of the model and hold no
    white space behind it, its tensors have the sizes of their shapes, and
    the file stays below 2^63 bytes.  The Parameter [p] of the model is
    then the record whose key is the key of the save, with its final slash,
    followed by the name of [p] without the name of the model; populating a
    Parameter of the shape of [p] with that key gives it the values and
    gradients of [p], each number taken through the text form, when no
    Parameter before [p] in the model has the same remaining name.  The
    same holds for a Lookup Parameter [l] of the model, its key and the
    Lookup Parameters before it. *)
Theorem saved_model_read_by_entity (model : ParameterCollection)
    (key filename : str) (fuel : nat) :
  key <> [] -> valid_pc_key key = true -> nospace key ->
  names_ok model -> wf_storage (get_storage model) ->
  let strip_size := length (get_fullname model) in
  let file := fst (save_pc [] model key) in
  let ld := {| dataname := filename; disk := Some file |} in
  (N.of_nat (length file) < 9223372036854775808)%N ->
  length (params (get_storage model))
    + length (lookup_params (get_storage model)) < fuel ->
  (forall ps1 p ps2 target,
     params (get_storage model) = ps1 ++ p :: ps2 ->
     Forall (fun q => skipn strip_size (name q) <> skipn strip_size (name p))
            ps1 ->
     wf_param target -> dim target = dim p ->
     exists s,
       populate_param ld fuel target
                      (normalized key ++ skipn strip_size (name p))
       = Some (s,
               {| name := name target; dim := dim target;
                  values := map text_round (values p);
                  g := map text_round (g p) |},
               Ret tt))
  /\
  (forall ls1 l ls2 target,
     lookup_params (get_storage model) = ls1 ++ l :: ls2 ->
     Forall (fun q => skipn strip_size (lp_name q)
                      <> skipn strip_size (lp_name l)) ls1 ->
     wf_lookup target -> all_dim target = all_dim l ->
     exists s,
       populate_lookup ld fuel target
                       (normalized key ++ skipn strip_size (lp_name l))
       = Some (s,
               {| lp_name := lp_name target; all_dim := all_dim target;
                  all_values := map text_round (all_values l);
                  all_grads := map text_round (all_grads l) |},
               Ret tt)).
Proof.
  intros Hkey Hvalid Hns Hnames Hwf strip_size file ld Hlen Hfuel.
  subst ld file.
  rewrite (save_pc_saved_items [] model key Hkey Hvalid Hnames) in *.
  cbn [fst app] in *.
  destruct (saved_items_ok model key Hns Hnames Hwf) as (Hr & _ & Hi).
  pose proof (normalized_not_empty key) as Hne.
  pose proof (normalized_nospace key Hns) as Hnn.
  unfold saved_items in *. fold strip_size in Hr, Hi, Hlen |- *.
  set (fP := fun q : ParameterStorage =>
               param_item (normalized key ++ skipn strip_size (name q)) q) in *.
  set (fL := fun q : LookupParameterStorage =>
               lookup_item (normalized key ++ skipn strip_size (lp_name q)) q)
    in *.
  split.
  - intros ps1 p ps2 target Hps Hdiff [Ht1 Ht2] Hd.
    rewrite Hps in *. clear Hps.
    rewrite !map_app in *. cbn [map] in *. rewrite <- !app_assoc in *.
    cbn [app] in *.
    rewrite file_of_middle in *.
    apply Forall_app in Hr as [Hr1 Hr]. apply Forall_cons_iff in Hr as [Hrp _].
    apply Forall_app in Hi as [_ Hi]. apply Forall_cons_iff in Hi as [Hip _].
    assert (i_key (fP p) = normalized key ++ skipn strip_size (name p)) as Hk.
    { unfold fP. cbn. now rewrite saved_key_long by now apply app_not_empty. }
    destruct (populate_single_hit
                {| dataname := filename;
                   disk := Some (file_of (map item_record (map fP ps1))
                                 ++ encode (item_record (fP p))
                                 ++ file_of (map item_record (map fP ps2)
                                             ++ map item_record
                                                  (map fL (lookup_params
                                                     (get_storage model)))))
                |}
                (map item_record (map fP ps1)) (fP p)
                (file_of (map item_record (map fP ps2)
                          ++ map item_record
                               (map fL (lookup_params (get_storage model)))))
                (normalized key ++ skipn strip_size (name p)) fuel)
      as [H _]; auto.
    + now apply app_not_empty.
    + destruct Hrp as [_ Hrp]. cbn [item_record r_key] in Hrp.
      now rewrite Hk in Hrp.
    + rewrite app_assoc in Hlen. now apply length_file_prefix in Hlen.
    + rewrite !length_map. rewrite length_app in Hfuel. cbn [length] in Hfuel.
      lia.
    + eexists.
      etransitivity; [apply (H target)|].
      * rewrite map_map. apply Forall_map.
        eapply Forall_impl; [|exact Hdiff].
        intros q Hq [_ Hkq]. apply Hq.
        cbn [item_record r_key fP param_item i_key] in Hkq.
        rewrite !saved_key_long in Hkq by now apply app_not_empty.
        now apply app_inv_head in Hkq.
      * reflexivity.
      * exact Hd.
      * unfold overwrite_param. cbn [fP param_item i_values i_grads].
        destruct Hip as [Hp1 Hp2]. cbn [fP param_item i_values i_grads i_dim]
          in Hp1, Hp2.
        rewrite Hd in Ht1, Ht2.
        rewrite !set_elements_all by (rewrite length_map; lia).
        reflexivity.
  - intros ls1 l ls2 target Hls Hdiff [Ht1 Ht2] Hd.
    rewrite Hls in *. clear Hls.
    rewrite !map_app in *. cbn [map] in *. rewrite !app_assoc in *.
    rewrite file_of_middle in *.
    apply Forall_app in Hr as [Hr1 Hr]. apply Forall_cons_iff in Hr as [Hrp _].
    apply Forall_app in Hi as [_ Hi].
    apply Forall_cons_iff in Hi as [Hip _].
    assert (i_key (fL l) = normalized key ++ skipn strip_size (lp_name l))
      as Hk.
    { unfold fL. cbn. now rewrite saved_key_long by now apply app_not_empty. }
    destruct (populate_single_hit
                {| dataname := filename;
                   disk := Some (file_of
                                   (map item_record
                                      (map fP (params (get_storage model)))
                                    ++ map item_record (map fL ls1))
                                 ++ encode (item_record (fL l))
                                 ++ file_of (map item_record (map fL ls2)))
                |}
                (map item_record (map fP (params (get_storage model)))
                 ++ map item_record (map fL ls1)) (fL l)
                (file_of (map item_record (map fL ls2)))
                (normalized key ++ skipn strip_size (lp_name l)) fuel)
      as [_ H]; auto.
    + now apply app_not_empty.
    + destruct Hrp as [_ Hrp]. cbn [item_record r_key] in Hrp.
      now rewrite Hk in Hrp.
    + rewrite app_assoc in Hlen. now apply length_file_prefix in Hlen.
    + rewrite length_app, !length_map. rewrite length_app in Hfuel.
      cbn [length] in Hfuel. lia.
    + eexists.
      etransitivity; [apply (H target)|].
      * apply Forall_app. split.
        -- rewrite map_map. apply Forall_map, Forall_forall.
           intros q _ [Hq _]. cbn in Hq. discriminate Hq.
        -- rewrite map_map. apply Forall_map.
           eapply Forall_impl; [|exact Hdiff].
           intros q Hq [_ Hkq]. apply Hq.
           cbn [item_record r_key fL lookup_item i_key] in Hkq.
           rewrite !saved_key_long in Hkq by now apply app_not_empty.
           now apply app_inv_head in Hkq.
      * reflexivity.
      * exact Hd.
      * unfold overwrite_lookup. cbn [fL lookup_item i_values i_grads].
        destruct Hip as [Hp1 Hp2].
        cbn [fL lookup_item i_values i_grads i_dim] in Hp1, Hp2.
        rewrite Hd in Ht1, Ht2.
        rewrite !set_elements_all by (rewrite length_map; lia).
        reflexivity.
Qed.

End Records.

End TextIO.

Arguments Raw {float} bytes.

(** ** The decimal text form meets the assumptions *)

Section DecimalLaws.

Import DecimalText.

Lemma join_chars (P : ascii -> Prop) (sep : ascii) (l : list str) :
  P sep -> Forall (Forall P) l -> Forall P (join sep l).
Proof.
  intros Hs. induction 1 as [|x l Hx Hl IH]; [constructor|].
  destruct l as [|y l]; [exact Hx|].
  change (join sep (x :: y :: l)) with (x ++ sep :: join sep (y :: l)).
  apply Forall_app. split; [exact Hx|]. constructor; [exact Hs|exact IH].
Qed.

Lemma put_N_digits (n : N) : alldigits (put_N n).
Proof. apply put_N_spec. Qed.

Lemma join_put_N_head (sep : ascii) (n : N) (l : list N) :
  exists c t, join sep (map put_N (n :: l)) = c :: t /\ is_digit c = true.
Proof.
  destruct (put_N_spec n) as (Hne & Hd & _).
  destruct (put_N n) as [|c t] eqn:E; [contradiction|].
  assert (is_digit c = true) as Hc by now inversion Hd.
  destruct l as [|m l]; cbn [map join]; rewrite E.
  - now exists c, t.
  - exists c, (t ++ sep :: join sep (map put_N (m :: l))). now split.
Qed.

Lemma length_join_put_N (sep : ascii) (l : list N) :
  length l <= length (join sep (map put_N l)).
Proof.
  induction l as [|n l IH]; [cbn; lia|].
  destruct (put_N_spec n) as (Hne & _).
  destruct l as [|m l].
  - cbn [map join length]. destruct (put_N n); [contradiction|cbn; lia].
  - change (join sep (map put_N (n :: m :: l)))
      with (put_N n ++ sep :: join sep (map put_N (m :: l))).
    rewrite length_app. cbn [length] in *. lia.
Qed.

Lemma put_dim_is_token (d : Dim) : token (put_dim d).
Proof.
  split; [discriminate|]. unfold put_dim, nospace.
  constructor; [reflexivity|].
  apply Forall_app. split; [|now repeat constructor].
  apply join_chars; [reflexivity|].
  apply Forall_map, Forall_forall. intros n _.
  apply alldigits_nospace, put_N_digits.
Qed.

Lemma get_extents_join (d : Dim) : forall (n : N) (rest : str) (fuel : nat),
  length (n :: d) <= fuel ->
  get_extents fuel (join "," (map put_N (n :: d)) ++ "}"%char :: rest)
  = Some (n :: d, rest).
Proof.
  induction d as [|m d IH]; intros n rest fuel Hf;
    (destruct fuel as [|fuel]; [cbn in Hf; lia|]);
    destruct (put_N_spec n) as (Hne & Hd & Hv).
  - cbn [map join get_extents].
    rewrite (span_stop is_digit (put_N n) ("}"%char :: rest) Hd eq_refl).
    destruct (put_N n) as [|c t] eqn:E; [contradiction|].
    rewrite Hv. reflexivity.
  - change (join "," (map put_N (n :: m :: d)))
      with (put_N n ++ ","%char :: join "," (map put_N (m :: d))).
    rewrite <- app_assoc. cbn [app get_extents].
    rewrite (span_stop is_digit (put_N n)
               (","%char :: join "," (map put_N (m :: d)) ++ "}"%char :: rest)
               Hd eq_refl).
    destruct (put_N n) as [|c t] eqn:E; [contradiction|].
    rewrite Hv.
    change (Ascii.eqb "," "}") with false. cbn iota.
    change (Ascii.eqb "," ",") with true. cbn iota.
    rewrite IH by (cbn [length] in *; lia). reflexivity.
Qed.

Lemma get_put_dim_decimal (d old : Dim) (rest : str) :
  get_dim {| buf := " "%char :: put_dim d ++ " "%char :: rest;
             s_eof := false; s_fail := false |} old
  = ({| buf := " "%char :: rest; s_eof := false; s_fail := false |}, d).
Proof.
  unfold get_dim, sentry, s_good. cbn [s_eof s_fail buf negb andb].
  assert (span isspace (" "%char :: put_dim d ++ " "%char :: rest)
          = ([" "%char], put_dim d ++ " "%char :: rest)) as E.
  { apply (span_stop isspace [" "%char]); [now constructor|reflexivity]. }
  rewrite E. cbn [snd]. unfold put_dim. cbn [app buf].
  change (Ascii.eqb "{" "{") with true. cbn iota.
  destruct d as [|n d].
  - cbn [map join app]. change (Ascii.eqb "}" "}") with true. reflexivity.
  - rewrite <- app_assoc. cbn [app].
    destruct (join_put_N_head "," n d) as (c & t & Ej & Hc).
    rewrite Ej. cbn [app].
    assert (Ascii.eqb c "}" = false) as Hb.
    { destruct c as [[] [] [] [] [] [] [] []]; vm_compute in Hc |- *;
        congruence. }
    rewrite Hb.
    change (c :: t ++ "}"%char :: " "%char :: rest)
      with ((c :: t) ++ "}"%char :: " "%char :: rest).
    rewrite <- Ej. rewrite get_extents_join; [reflexivity|].
    rewrite length_app.
    pose proof (length_join_put_N "," (n :: d)). lia.
Qed.

Lemma put_floats_one_line (prec : nat) (v : list N) :
  Forall (fun c => Ascii.eqb c nl = false) (put_floats prec v).
Proof.
  unfold put_floats. apply join_chars; [reflexivity|].
  apply Forall_map, Forall_forall. intros n _.
  apply nospace_no_nl, alldigits_nospace, put_N_digits.
Qed.

Lemma get_numbers_join (v : list N) : forall (ws : str) (fuel : nat),
  Forall (fun c => isspace c = true) ws ->
  length v < fuel ->
  get_numbers fuel {| buf := ws ++ join " " (map put_N v);
                      s_eof := false; s_fail := false |} = v.
Proof.
  induction v as [|n v IH]; intros ws fuel Hws Hf;
    (destruct fuel as [|fuel]; [lia|]);
    cbn [get_numbers]; unfold sentry, s_good;
    cbn [s_eof s_fail buf negb andb].
  - cbn [map join]. rewrite (span_stop isspace ws [] Hws I). reflexivity.
  - destruct (put_N_spec n) as (Hne & Hd & Hv).
    destruct (join_put_N_head " " n v) as (c & t & Ej & Hc).
    rewrite (span_stop isspace ws (join " " (map put_N (n :: v))) Hws)
      by (rewrite Ej; now apply digit_not_sign).
    cbn [snd]. rewrite Ej. cbn [buf]. rewrite <- Ej.
    destruct v as [|m v].
    + cbn [map join].
      pose proof (span_stop is_digit (put_N n) [] Hd I) as Es.
      rewrite app_nil_r in Es. rewrite Es.
      destruct (put_N n) as [|c' t'] eqn:E; [contradiction|].
      rewrite Hv. f_equal.
      destruct fuel; reflexivity.
    + change (join " " (map put_N (n :: m :: v)))
        with (put_N n ++ " "%char :: join " " (map put_N (m :: v))).
      rewrite (span_stop is_digit (put_N n)
                 (" "%char :: join " " (map put_N (m :: v))) Hd eq_refl).
      destruct (put_N n) as [|c' t'] eqn:E; [contradiction|].
      rewrite Hv. f_equal.
      apply (IH [" "%char] fuel); [now constructor|].
      cbn [length] in *. lia.
Qed.

Lemma get_put_floats_decimal (prec : nat) (v old : list N) :
  length old = length v ->
  get_floats (put_floats prec v) old = map (fun x => x) v.
Proof.
  intros H. unfold get_floats, put_floats, istringstream.
  rewrite (get_numbers_join v [] _ (Forall_nil _))
    by (pose proof (length_join_put_N " " v); cbn [app]; lia).
  rewrite H, firstn_all, skipn_all2 by (rewrite H; lia).
  now rewrite app_nil_r, map_id.
Qed.

Lemma decimal_text_laws :
  text_laws put_floats get_floats put_dim get_dim (fun x => x).
Proof.
  constructor.
  - exact put_dim_is_token.
  - exact get_put_dim_decimal.
  - exact (put_floats_one_line FLOAT32_PRECISION).
  - exact (get_put_floats_decimal FLOAT32_PRECISION).
Qed.

End DecimalLaws.

(** ** Concrete runs

    A model with one Parameter of shape {2,3} and one Lookup Parameter of
    shape {4,2}, a target of the same structure filled with zeros, and the
    file of the model saved under the key /a. *)

Module Run.

Import DecimalText.

Definition W : ParameterStorage N :=
  {| name := lit "/W"; dim := [2; 3]%N;
     values := [1; 2; 3; 4; 5; 6]%N; g := [0; 0; 0; 0; 0; 7]%N |}.

Definition E : LookupParameterStorage N :=
  {| lp_name := lit "/E"; all_dim := [4; 2]%N;
     all_values := [1; 2; 3; 4; 5; 6; 7; 8]%N;
     all_grads := [0; 0; 0; 0; 0; 0; 0; 9]%N |}.

Definition model : ParameterCollection N :=
  {| get_storage := {| params := [W]; lookup_params := [E] |};
     get_fullname := lit "/" |}.

Definition target : ParameterCollectionStorage N :=
  {| params := [{| name := lit "/U"; dim := [2; 3]%N;
                   values := [0; 0; 0; 0; 0; 0]%N;
                   g := [0; 0; 0; 0; 0; 0]%N |}];
     lookup_params := [{| lp_name := lit "/F"; all_dim := [4; 2]%N;
                          all_values := [0; 0; 0; 0; 0; 0; 0; 0]%N;
                          all_grads := [0; 0; 0; 0; 0; 0; 0; 0]%N |}] |}.

Definition saved : str := fst (save_pc put_floats put_dim [] model (lit "/a")).

Definition loader (file : str) : TextFileLoader :=
  {| dataname := lit "model.txt"; disk := Some file |}.

(** A record of another name space whose payload is no vector text. *)
Definition foreign : frecord N :=
  {| r_tag := lit "#Parameter#"; r_key := lit "/b/W"; r_dim := [2]%N;
     r_payload := Raw (lit "not numbers" ++ [nl] ++ lit "{" ++ [nl; nl]) |}.

Definition W_item : item N := param_item (lit "/a/W") W.
Definition E_item : item N := lookup_item (lit "/a/E") E.

(** The key with a tab in it: [valid_pc_key] accepts it. *)
Definition tab_key : str := lit "/a" ++ [tab] ++ lit "b".

End Run.

Example saved_text :
  Run.saved
  = lit "#Parameter# /a/W {2,3} 24" ++ [nl]
    ++ lit "1 2 3 4 5 6" ++ [nl] ++ lit "0 0 0 0 0 7" ++ [nl]
    ++ lit "#LookupParameter# /a/E {4,2} 32" ++ [nl]
    ++ lit "1 2 3 4 5 6 7 8" ++ [nl] ++ lit "0 0 0 0 0 0 0 9" ++ [nl].
Proof. reflexivity. Qed.

(** ** Why the scans carry fuel

    A length field that is not the length of the payload can send the seek
    backwards: with 2^64 - 1 the sum with the position behind the header
    line wraps to the terminator of that very line; the empty line read
    from there changes no header variable, and the same seek is made again
    and again. *)

Section Fuel.

Import DecimalText.

Let wrapping : str := lit "x x {1} 18446744073709551615" ++ [nl].

Lemma scan_loop_wraps {St R : Type} (tag key : str)
    (on_match : ifstream -> str -> header -> St -> ifstream * St * outcome R)
    (s : St) (fuel : nat) :
  str_eqb (lit "x") tag = false ->
  scan_loop get_dim tag key on_match fuel (open wrapping) [] header0 s = None.
Proof.
  intros Ht.
  pose (h := {| h_type := lit "x"; h_name := lit "x"; h_dim := [1]%N;
                h_byte_count := size_t_max |}).
  assert (forall k line,
            scan_loop get_dim tag key on_match k (at_pos wrapping 28) line h s
            = None) as Hloop.
  { induction k as [|k IH]; intros line; [reflexivity|].
    cbn [scan_loop].
    change (getline (at_pos wrapping 28) line)
      with (at_pos wrapping 29, @nil ascii, true).
    cbv iota beta.
    change (read_header get_dim [] h) with h.
    cbn [h_type h_name h h_byte_count]. rewrite Ht. cbn [andb].
    change (skip_payload (at_pos wrapping 29) size_t_max)
      with (at_pos wrapping 28).
    apply IH. }
  destruct fuel as [|fuel]; [reflexivity|].
  cbn [scan_loop].
  change (getline (open wrapping) [])
    with (at_pos wrapping 29, lit "x x {1} 18446744073709551615", true).
  cbv iota beta.
  change (read_header get_dim (lit "x x {1} 18446744073709551615") header0)
    with h.
  cbn [h_type h_name h h_byte_count]. rewrite Ht. cbn [andb].
  change (skip_payload (at_pos wrapping 29) size_t_max)
    with (at_pos wrapping 28).
  apply Hloop.
Qed.

(** No amount of fuel lets the reader of one Parameter come back from that
    file. *)
Lemma populate_param_never_returns (param : ParameterStorage N) (fuel : nat) :
  populate_param 0%N get_floats put_dim get_dim
                 {| dataname := lit "model.txt"; disk := Some wrapping |}
                 fuel param (lit "/a")
  = None.
Proof.
  unfold populate_param, scan. cbn [str_eqb lit list_ascii_of_string disk].
  now apply scan_loop_wraps.
Qed.

End Fuel.

(** ** The theorems at the concrete runs *)

Section Witnesses.

Import DecimalText.

(** The model of [Run] saved under /a and read back into the target. *)
Lemma save_populate_roundtrip_witness :
  exists dst',
    populate_pc 0%N get_floats put_dim get_dim (Run.loader Run.saved) 3
                Run.target (lit "/a")
    = Some (dst', Ret tt)
    /\ map (@values N) (params dst') = [[1; 2; 3; 4; 5; 6]%N]
    /\ map (@all_grads N) (lookup_params dst') = [[0; 0; 0; 0; 0; 0; 0; 9]%N].
Proof.
  destruct (save_populate_roundtrip _ 0%N _ _ _ _ _ decimal_text_laws Run.model Run.target
              (lit "/a") (lit "model.txt") 3)
    as (_ & dst' & Hp & Hv & _ & _ & Hg & _).
  - discriminate.
  - reflexivity.
  - repeat constructor.
  - split; repeat constructor.
  - split; repeat constructor.
  - split; repeat constructor.
  - split; repeat constructor.
  - vm_compute. reflexivity.
  - cbn. lia.
  - exists dst'. split; [exact Hp|]. split; [exact Hv|exact Hg].
Defined.

(** The record that the saver writes for [Run.W] under the key /a/W, after
    some earlier output [d] and before whatever follows; and the record of
    [Run.E] written as the last of a file. *)
Lemma saved_payload_length_exact_witness :
  (let d := lit "earlier output" ++ [nl] in
   let rest := lit "#Parameter# /next {1} 4" ++ [nl] in
   let out := save_ps put_floats put_dim d Run.W (lit "/a/W") in
   let hdr := lit "#Parameter# /a/W {2,3} 24" in
   out = d ++ hdr ++ [nl] ++ lit "1 2 3 4 5 6" ++ [nl]
           ++ lit "0 0 0 0 0 7" ++ [nl]
   /\ skip_payload (at_pos (out ++ rest) (length (d ++ hdr ++ [nl]))) 24%N
      = at_pos (out ++ rest) (length out)
   /\ getline (at_pos (out ++ rest) (length d)) []
      = (at_pos (out ++ rest) (length (d ++ hdr ++ [nl])), hdr, true)
   /\ h_byte_count (read_header get_dim hdr header0) = 24%N)
  /\
  (let out := save_lps put_floats put_dim [] Run.E (lit "/a/E") in
   let hdr := lit "#LookupParameter# /a/E {4,2} 32" in
   out = hdr ++ [nl] ++ lit "1 2 3 4 5 6 7 8" ++ [nl]
           ++ lit "0 0 0 0 0 0 0 9" ++ [nl]
   /\ skip_payload (at_pos out (length (hdr ++ [nl]))) 32%N
      = at_pos out (length out)
   /\ h_byte_count (read_header get_dim hdr header0) = 32%N).
Proof.
  split.
  - intros d rest out hdr.
    destruct (proj1 (saved_payload_length_exact _ _ _ _ _ _ decimal_text_laws
                       d (lit "/a/W") rest [] header0) Run.W)
      as (E1 & E2 & E3).
    + vm_compute. reflexivity.
    + destruct E3 as [E3 E4].
      * split; [discriminate|repeat constructor].
      * split; [exact E1|]. split; [exact E2|]. split; [exact E3|exact E4].
  - intros out hdr.
    destruct (proj2 (saved_payload_length_exact _ _ _ _ _ _ decimal_text_laws
                       [] (lit "/a/E") [] [] header0) Run.E)
      as (E1 & E2 & E3).
    + vm_compute. reflexivity.
    + destruct E3 as [_ E4].
      * split; [discriminate|repeat constructor].
      * split; [exact E1|]. split; [|exact E4].
        cbn [app] in E2. rewrite app_nil_r in E2. exact E2.
Defined.

(** A file of three records read under the key /a: the first record is of
    another name space and its payload is no vector text; the two others
    go to the Parameter and to the Lookup Parameter of the target. *)
Lemma populate_pc_positional_witness :
  let rs := [Run.foreign; item_record Run.W_item; item_record Run.E_item] in
  populate_pc 0%N get_floats put_dim get_dim
              (Run.loader (file_of put_floats put_dim rs)) 4 Run.target
              (lit "/a")
  = Some (assign put_floats put_dim (fun x => x) [Run.W_item; Run.E_item]
                 Run.target).
Proof.
  intros rs.
  apply (populate_pc_positional _ 0%N _ _ _ _ _ decimal_text_laws
           (Run.loader (file_of put_floats put_dim rs)) rs
           [Run.W_item; Run.E_item] Run.target (lit "/a") 4).
  - discriminate.
  - reflexivity.
  - vm_compute. reflexivity.
  - repeat constructor; discriminate.
  - reflexivity.
  - repeat constructor.
  - cbn. lia.
Defined.



(** The key /missing of the spec, looked for by the reader of one Parameter
    and by the loader of a Lookup Parameter in a file of three records. *)
Lemma single_entity_not_found_witness :
  let rs := [Run.foreign; item_record Run.W_item; item_record Run.E_item] in
  let file := file_of put_floats put_dim rs in
  let err := runtime_error
               (lit "Could not find key /missing in the model file") in
  populate_param 0%N get_floats put_dim get_dim (Run.loader file) 4 Run.W
                 (lit "/missing")
  = Some (at_end file (length file), Run.W, Throw err)
  /\
  load_lookup_param 0%N get_floats get_dim (Run.loader file) 4 Run.model
                    (lit "/missing")
  = Some (at_end file (length file), Run.model, Throw err).
Proof.
  intros rs file err.
  pose proof (single_entity_not_found _ 0%N _ _ _ _ _ decimal_text_laws
                (Run.loader file) rs (lit "/missing") 4
                ltac:(discriminate) eq_refl
                ltac:(repeat constructor; discriminate)
                ltac:(vm_compute; reflexivity)
                ltac:(cbn; lia)) as [H1 H2].
  split.
  - apply H1. repeat constructor; intros [_ H]; discriminate H.
  - apply H2. repeat constructor; intros [_ H]; discriminate H.
Defined.

(** A first line with another tag whose second field starts with the
    normalized key; and a file of records whose second matching record has
    another tag. *)
Lemma bad_tag_detected_witness :
  populate_pc 0%N get_floats put_dim get_dim
    (Run.loader (lit "junk /a/x {1} 4" ++ nl :: lit "1" ++ [nl] ++ lit "2" ++ [nl]))
    1 Run.target (lit "/a")
  = Some (Run.target,
          Throw (runtime_error
            (lit "Bad parameter specification in model: junk /a/x {1} 4")))
  /\
  (let odd : item N :=
     {| i_tag := lit "#Tensor#"; i_key := lit "/a/T"; i_dim := [1]%N;
        i_values := [5]%N; i_grads := [0]%N |} in
   let rs := [item_record Run.W_item; Run.foreign; item_record odd] in
   exists st1,
     populate_pc 0%N get_floats put_dim get_dim
       (Run.loader (file_of put_floats put_dim rs)) 4 Run.target (lit "/a")
     = Some (st1,
             Throw (runtime_error
               (lit "Bad parameter specification in model: #Tensor# /a/T {1} 4")))).
Proof.
  split.
  - apply (proj1 (bad_tag_detected _ 0%N _ _ _ _ _ decimal_text_laws
                    (Run.loader (lit "junk /a/x {1} 4" ++ nl :: lit "1" ++ [nl]
                                 ++ lit "2" ++ [nl]))
                    Run.target (lit "/a") 0 ltac:(discriminate))
            (lit "junk /a/x {1} 4") (lit "1" ++ [nl] ++ lit "2" ++ [nl])).
    + reflexivity.
    + repeat constructor.
    + reflexivity.
    + vm_compute. discriminate.
    + vm_compute. discriminate.
  - intros odd rs.
    pose (st1 := snd (fst (assign_loop put_floats put_dim (fun x => x)
                             [Run.W_item] 0 0 Run.target))).
    exists st1.
    apply (proj2 (bad_tag_detected _ 0%N _ _ _ _ _ decimal_text_laws
                    (Run.loader (file_of put_floats put_dim rs))
                    Run.target (lit "/a") 4 ltac:(discriminate))
            rs [Run.W_item] odd [] 1 0 st1).
    + reflexivity.
    + vm_compute. reflexivity.
    + repeat constructor; discriminate.
    + reflexivity.
    + repeat constructor.
    + cbn. lia.
    + reflexivity.
    + discriminate.
    + discriminate.
Defined.


End Witnesses.

(** ** Where the code departs from the spec *)

Section Counterexamples.

Import DecimalText.

(** C1 at a key with a tab.  The validator accepts the key and the save
    succeeds; the header lines then hold the tab, the second field read back
    from them ends at it and never starts with the normalized key, every
    line is stepped over, and the populate throws the count error: the
    target keeps its zeros. *)
Lemma roundtrip_fails_for_tab_key :
  let file := fst (save_pc put_floats put_dim [] Run.model Run.tab_key) in
  valid_pc_key Run.tab_key = true
  /\ save_pc put_floats put_dim [] Run.model Run.tab_key = (file, Ret tt)
  /\ populate_pc 0%N get_floats put_dim get_dim (Run.loader file) 10
                 Run.target Run.tab_key
     = Some (Run.target,
             Throw (runtime_error
               (lit "Number of parameter/lookup parameter objects loaded from file (0/0) did not match number to be populated (1/1)")))
  /\ map (@values N) (params Run.target)
     <> map (@values N) (params (get_storage Run.model)).
Proof.
  cbv zeta. repeat split; try reflexivity. discriminate.
Qed.

(** C7 at a header line without its fourth field.  The extraction of the
    payload length fails, nothing looks at that, and the populate returns
    with the Parameter overwritten. *)
Lemma missing_length_field_goes_unnoticed :
  let file := lit "#Parameter# /a/W {2,3}" ++ [nl]
              ++ lit "1 2 3 4 5 6" ++ [nl] ++ lit "0 0 0 0 0 7" ++ [nl] in
  let st : ParameterCollectionStorage N :=
    {| params := [{| name := lit "/U"; dim := [2; 3]%N;
                     values := repeat 0%N 6; g := repeat 0%N 6 |}];
       lookup_params := [] |} in
  s_fail (fst (get_size_t (istringstream []) 0%N)) = true
  /\ populate_pc 0%N get_floats put_dim get_dim (Run.loader file) 2 st
                 (lit "/a")
     = Some ({| params := [{| name := lit "/U"; dim := [2; 3]%N;
                              values := [1; 2; 3; 4; 5; 6]%N;
                              g := [0; 0; 0; 0; 0; 7]%N |}];
                lookup_params := [] |},
             Ret tt).
Proof. cbv zeta. split; reflexivity. Qed.

(** C3 at a file that the saver writes.  The model of [Run] saved under the
    key with a tab gives the file of the two records [rs]; the key of each
    starts with the normalized key, their payloads are the vectors of their
    shapes, and assigning them by position fills the target.  Read back, the
    second field of each header line ends at the tab: the populate steps
    over both records and throws the count error with nothing loaded. *)
Lemma matching_records_unread_for_tab_key :
  let items := [param_item (Run.tab_key ++ lit "/W") Run.W;
                lookup_item (Run.tab_key ++ lit "/E") Run.E] in
  let rs := map (@item_record N) items in
  let file := file_of put_floats put_dim rs in
  Run.tab_key <> []
  /\ save_pc put_floats put_dim [] Run.model Run.tab_key = (file, Ret tt)
  /\ filter (fun r => startswith (r_key r) (normalized Run.tab_key)) rs = rs
  /\ Forall (@wf_item N) items
  /\ (N.of_nat (length file) < 9223372036854775808)%N
  /\ assign put_floats put_dim (fun x => x) items Run.target
     = (reloaded (fun x => x) (get_storage Run.model) Run.target, Ret tt)
  /\ populate_pc 0%N get_floats put_dim get_dim (Run.loader file) 10
                 Run.target Run.tab_key
     = Some (Run.target,
             Throw (runtime_error
               (lit "Number of parameter/lookup parameter objects loaded from file (0/0) did not match number to be populated (1/1)")))
  /\ populate_pc 0%N get_floats put_dim get_dim (Run.loader file) 10
                 Run.target Run.tab_key
     <> Some (assign put_floats put_dim (fun x => x) items Run.target).
Proof.
  cbv zeta. split; [discriminate|].
  split; [reflexivity|]. split; [reflexivity|].
  split; [repeat constructor|].
  split; [vm_compute; reflexivity|].
  split; [reflexivity|]. split; [reflexivity|].
  vm_compute. discriminate.
Qed.

(** C6 at a file that the saver writes.  [Run.W] saved under a key with a
    tab, which the validator accepts, gives a file of one record; its key
    is not /k.  Read back, the second field of the header line ends at the
    tab and is /k: the readers called with /k take the record as theirs.
    The shape is then not read and keeps its first value, so that
    [populate] throws the error on shapes, and [load_param] returns with a
    new Parameter named /k in the model; neither reports that the key is not
    found. *)
Lemma key_cut_at_tab_is_taken :
  let key := lit "/k" ++ [tab] ++ lit "x" in
  let r := item_record (param_item key Run.W) in
  let file := file_of put_floats put_dim [r] in
  let param : ParameterStorage N :=
    {| name := lit "/U"; dim := [2; 3]%N;
       values := repeat 0%N 6; g := repeat 0%N 6 |} in
  valid_key key = true
  /\ save_param put_floats put_dim [] Run.W key = (file, Ret tt)
  /\ ~ (r_tag r = lit "#Parameter#" /\ r_key r = lit "/k")
  /\ (exists f,
        populate_param 0%N get_floats put_dim get_dim (Run.loader file) 2
                       param (lit "/k")
        = Some (f, param,
                Throw (runtime_error
                  (lit "Attempted to populate parameter where arguments don't match ({2,3} != {})"))))
  /\ (exists f model',
        load_param 0%N get_floats get_dim (Run.loader file) 2 Run.model
                   (lit "/k")
        = Some (f, model', Ret 1)
        /\ map (@name N) (params (get_storage model'))
           = [lit "/W"; lit "/k"]).
Proof.
  cbv zeta. split; [reflexivity|]. split; [reflexivity|].
  split; [intros [_ H]; discriminate H|].
  split.
  - eexists. vm_compute. reflexivity.
  - eexists. eexists. split; vm_compute; reflexivity.
Qed.

End Counterexamples.

(** ** The further properties at concrete runs *)

Section FurtherRuns.

Import DecimalText.

(** The saved model of [Run] populated into the target: names and shapes
    of the target are as before. *)
Lemma populate_pc_keeps_frame_witness :
  exists st' o,
    populate_pc 0%N get_floats put_dim get_dim (Run.loader Run.saved) 3
                Run.target (lit "/a")
    = Some (st', o)
    /\ map (@name N) (params st') = [lit "/U"]
    /\ map (@dim N) (params st') = [[2; 3]%N]
    /\ map (@lp_name N) (lookup_params st') = [lit "/F"]
    /\ map (@all_dim N) (lookup_params st') = [[4; 2]%N].
Proof.
  assert (exists x,
            populate_pc 0%N get_floats put_dim get_dim (Run.loader Run.saved)
                        3 Run.target (lit "/a") = Some x)
    as [[st' o] H] by (vm_compute; eexists; reflexivity).
  exists st', o. split; [exact H|].
  exact (populate_pc_keeps_frame N 0%N get_floats put_dim get_dim
           (Run.loader Run.saved) 3 Run.target st' (lit "/a") o H).
Defined.

(** A Parameter of shape {3,4} populated from a record of shape {3,5}: the
    call throws and the Parameter is as it was. *)
Lemma populate_single_inert_on_failure_witness :
  let r : frecord N :=
    {| r_tag := lit "#Parameter#"; r_key := lit "/a/W"; r_dim := [3; 5]%N;
       r_payload := Raw [] |} in
  let param : ParameterStorage N :=
    {| name := lit "/W"; dim := [3; 4]%N;
       values := repeat 1%N 12; g := repeat 0%N 12 |} in
  exists f param' o,
    populate_param 0%N get_floats put_dim get_dim
      (Run.loader (file_of put_floats put_dim [Run.foreign; r])) 3 param
      (lit "/a/W")
    = Some (f, param', o)
    /\ name param' = name param /\ dim param' = dim param
    /\ (o = Ret tt \/ (exists e, o = Throw e) /\ param' = param).
Proof.
  intros r param.
  assert (exists x,
            populate_param 0%N get_floats put_dim get_dim
              (Run.loader (file_of put_floats put_dim [Run.foreign; r])) 3
              param (lit "/a/W") = Some x)
    as [[[f param'] o] H] by (vm_compute; eexists; reflexivity).
  exists f, param', o. split; [exact H|].
  exact (proj1 (populate_single_inert_on_failure N 0%N get_floats put_dim
                  get_dim
                  (Run.loader (file_of put_floats put_dim [Run.foreign; r]))
                  3 (lit "/a/W"))
           param f param' o H).
Defined.

(** [load_param] with the key /a/W on a file of two records, and with a key
    that no record has. *)
Lemma load_adds_one_or_nothing_witness :
  let file := file_of put_floats put_dim
                [Run.foreign; item_record Run.W_item] in
  (exists f model' o,
     load_param 0%N get_floats get_dim (Run.loader file) 3 Run.model
                (lit "/a/W")
     = Some (f, model', o)
     /\ match o with
        | Ret handle =>
            handle = 1 /\
            exists p, name p = lit "/a/W" /\
              model'
              = {| get_storage :=
                     {| params := [Run.W; p]; lookup_params := [Run.E] |};
                   get_fullname := lit "/" |}
        | _ => model' = Run.model
        end)
  /\
  (exists f model' o,
     load_lookup_param 0%N get_floats get_dim (Run.loader file) 3 Run.model
                       (lit "/a/W")
     = Some (f, model', o)
     /\ match o with
        | Ret handle =>
            handle = 1 /\
            exists p, lp_name p = lit "/a/W" /\
              model'
              = {| get_storage :=
                     {| params := [Run.W]; lookup_params := [Run.E; p] |};
                   get_fullname := lit "/" |}
        | _ => model' = Run.model
        end).
Proof.
  intros file. split.
  - assert (exists x,
              load_param 0%N get_floats get_dim (Run.loader file) 3 Run.model
                         (lit "/a/W") = Some x)
      as [[[f model'] o] H] by (vm_compute; eexists; reflexivity).
    exists f, model', o. split; [exact H|].
    exact (proj1 (load_adds_one_or_nothing N 0%N get_floats get_dim
                    (Run.loader file) 3 (lit "/a/W") Run.model)
             f model' o H).
  - assert (exists x,
              load_lookup_param 0%N get_floats get_dim (Run.loader file) 3
                                Run.model (lit "/a/W") = Some x)
      as [[[f model'] o] H] by (vm_compute; eexists; reflexivity).
    exists f, model', o. split; [exact H|].
    exact (proj2 (load_adds_one_or_nothing N 0%N get_floats get_dim
                    (Run.loader file) 3 (lit "/a/W") Run.model)
             f model' o H).
Defined.

(** A key with a space, for the save of one Parameter; a key without the
    first slash, for the save of a model. *)
Lemma save_refuses_bad_key_witness :
  save_param put_floats put_dim (lit "old") Run.W (lit "my key")
  = (lit "old",
     Throw (invalid_argument (lit "Key could not include ' ' or '#': my key")))
  /\
  save_pc put_floats put_dim (lit "old") Run.model (lit "a")
  = (lit "old",
     Throw (invalid_argument
       (lit "Key should start with '/' and could not include ' ' or '#': a"))).
Proof.
  split.
  - apply (proj1 (save_refuses_bad_key N put_floats put_dim (lit "old")
                    (lit "my key"))).
    left. cbn. tauto.
  - apply (proj2 (save_refuses_bad_key N put_floats put_dim (lit "old")
                    (lit "a"))
             "a"%char [] Run.model).
    + reflexivity.
    + discriminate.
Defined.

(** The model of [Run] saved under /a behind earlier content. *)
Lemma save_pc_writes_every_entity_witness :
  save_pc put_floats put_dim (lit "old") Run.model (lit "/a")
  = (lit "old"
     ++ file_of put_floats put_dim
          [item_record Run.W_item; item_record Run.E_item],
     Ret tt).
Proof.
  exact (save_pc_writes_every_entity N put_floats put_dim (lit "old")
           Run.model (lit "/a") ltac:(discriminate) eq_refl
           ltac:(repeat constructor) ltac:(repeat constructor)).
Defined.

(** A model named /m/ whose second Parameter has the shorter name /B: the
    record of the first is written, then the exception is thrown. *)
Lemma save_pc_short_name_witness :
  let A : ParameterStorage N :=
    {| name := lit "/m/A"; dim := [1]%N; values := [5]%N; g := [0]%N |} in
  let B : ParameterStorage N :=
    {| name := lit "/B"; dim := [1]%N; values := [6]%N; g := [0]%N |} in
  let m : ParameterCollection N :=
    {| get_storage := {| params := [A; B]; lookup_params := [] |};
       get_fullname := lit "/m/" |} in
  save_pc put_floats put_dim [] m (lit "/a")
  = (file_of put_floats put_dim [item_record (param_item (lit "/a/A") A)],
     Throw out_of_range).
Proof.
  intros A B m.
  exact (proj1 (save_pc_short_name N put_floats put_dim [] m (lit "/a")
                  ltac:(discriminate) eq_refl)
           [A] B [] eq_refl ltac:(repeat constructor)
           ltac:(repeat constructor)).
Defined.

(** The keys /a and /a/ write the same file. *)
Lemma save_pc_final_slash_witness :
  save_pc put_floats put_dim [] Run.model (lit "/a")
  = save_pc put_floats put_dim [] Run.model (lit "/a/").
Proof.
  exact (save_pc_final_slash N put_floats put_dim [] Run.model (lit "/a")
           ltac:(discriminate) eq_refl).
Defined.

(** The keys /a and /a/ read the same records. *)
Lemma populate_pc_final_slash_witness :
  populate_pc 0%N get_floats put_dim get_dim (Run.loader Run.saved) 3
              Run.target (lit "/a")
  = populate_pc 0%N get_floats put_dim get_dim (Run.loader Run.saved) 3
                Run.target (lit "/a/").
Proof.
  exact (populate_pc_final_slash N 0%N get_floats put_dim get_dim
           (Run.loader Run.saved) 3 Run.target (lit "/a")
           ltac:(discriminate)).
Defined.

(** The record of [Run.W] behind a record of another name space and before
    bytes that are no record. *)
Lemma populate_single_found_witness :
  let post := lit "no record at all" in
  let file := file_of put_floats put_dim [Run.foreign]
              ++ encode put_floats put_dim (item_record Run.W_item) ++ post in
  let param : ParameterStorage N :=
    {| name := lit "/U"; dim := [2; 3]%N;
       values := repeat 0%N 6; g := repeat 0%N 6 |} in
  populate_param 0%N get_floats put_dim get_dim (Run.loader file) 2 param
                 (lit "/a/W")
  = Some (at_pos file
            (length (file_of put_floats put_dim [Run.foreign]
                     ++ encode put_floats put_dim (item_record Run.W_item))),
          {| name := lit "/U"; dim := [2; 3]%N;
             values := [1; 2; 3; 4; 5; 6]%N; g := [0; 0; 0; 0; 0; 7]%N |},
          Ret tt).
Proof.
  intros post file param.
  apply (proj1 (populate_single_found _ 0%N _ _ _ _ _ decimal_text_laws
                  (Run.loader file) [Run.foreign] Run.W_item post
                  (lit "/a/W") 2
                  ltac:(discriminate)
                  ltac:(split; [discriminate|repeat constructor])
                  eq_refl
                  ltac:(repeat constructor; discriminate)
                  eq_refl
                  ltac:(split; reflexivity)
                  ltac:(vm_compute; reflexivity)
                  ltac:(cbn; lia))
           param).
  - repeat constructor. intros [_ H]. discriminate H.
  - reflexivity.
  - reflexivity.
Defined.

(** The record of [Run.W] loaded into the model of [Run]: the model gets a
    second Parameter, named /a/W. *)
Lemma load_single_found_witness :
  let file := file_of put_floats put_dim
                [Run.foreign; item_record Run.W_item] in
  load_param 0%N get_floats get_dim (Run.loader file) 2 Run.model
             (lit "/a/W")
  = Some (at_pos file (length file),
          {| get_storage :=
               {| params := [Run.W;
                             {| name := lit "/a/W"; dim := [2; 3]%N;
                                values := [1; 2; 3; 4; 5; 6]%N;
                                g := [0; 0; 0; 0; 0; 7]%N |}];
                  lookup_params := [Run.E] |};
             get_fullname := lit "/" |},
          Ret 1).
Proof.
  intros file.
  apply (proj1 (load_single_found _ 0%N _ _ _ _ _ decimal_text_laws
                  (Run.loader file) [Run.foreign] Run.W_item []
                  (lit "/a/W") Run.model 2
                  ltac:(discriminate)
                  ltac:(split; [discriminate|repeat constructor])
                  eq_refl
                  ltac:(repeat constructor; discriminate)
                  eq_refl
                  ltac:(split; reflexivity)
                  ltac:(vm_compute; reflexivity)
                  ltac:(cbn; lia))).
  - repeat constructor. intros [_ H]. discriminate H.
  - reflexivity.
Defined.


(** [Run.E] saved under the key /solo into a new file and loaded into the
    model of [Run]. *)
Lemma save_load_single_witness :
  let out := fst (save_lookup put_floats put_dim [] Run.E (lit "/solo")) in
  load_lookup_param 0%N get_floats get_dim
    {| dataname := lit "model.txt"; disk := Some out |} 1 Run.model
    (lit "/solo")
  = Some (at_pos out (length out),
          {| get_storage :=
               {| params := [Run.W];
                  lookup_params :=
                    [Run.E;
                     {| lp_name := lit "/solo"; all_dim := [4; 2]%N;
                        all_values := [1; 2; 3; 4; 5; 6; 7; 8]%N;
                        all_grads := [0; 0; 0; 0; 0; 0; 0; 9]%N |}] |};
             get_fullname := lit "/" |},
          Ret 1).
Proof.
  intros out.
  apply (proj2 (save_load_single _ 0%N _ _ _ _ _ decimal_text_laws
                  [] (lit "/solo") (lit "model.txt") Run.model 1
                  eq_refl
                  ltac:(constructor)
                  ltac:(cbn; lia))
           Run.E [4]%N 2%N).
  - split; [discriminate|repeat constructor].
  - constructor.
  - split; reflexivity.
  - reflexivity.
  - vm_compute. reflexivity.
Defined.

(** The model of [Run] saved under /a and, behind it, another model of the
    same shapes saved under /b: the target populated under /a holds the
    numbers of the first model, populated under /b those of the second. *)
Lemma append_keeps_both_models_witness :
  let B : ParameterCollection N :=
    {| get_storage :=
         {| params := [{| name := lit "/m/V"; dim := [2; 3]%N;
                          values := [11; 12; 13; 14; 15; 16]%N;
                          g := [0; 0; 0; 0; 0; 17]%N |}];
            lookup_params := [{| lp_name := lit "/m/G"; all_dim := [4; 2]%N;
                                 all_values := [21; 22; 23; 24; 25; 26; 27; 28]%N;
                                 all_grads := [0; 0; 0; 0; 0; 0; 0; 29]%N |}] |};
       get_fullname := lit "/m/" |} in
  let d1 := fst (save_pc put_floats put_dim [] Run.model (lit "/a")) in
  let d2 := fst (save_pc put_floats put_dim d1 B (lit "/b")) in
  populate_pc 0%N get_floats put_dim get_dim (Run.loader d2) 5 Run.target
              (lit "/a")
  = Some ({| params := [{| name := lit "/U"; dim := [2; 3]%N;
                           values := [1; 2; 3; 4; 5; 6]%N;
                           g := [0; 0; 0; 0; 0; 7]%N |}];
             lookup_params := [{| lp_name := lit "/F"; all_dim := [4; 2]%N;
                                  all_values := [1; 2; 3; 4; 5; 6; 7; 8]%N;
                                  all_grads := [0; 0; 0; 0; 0; 0; 0; 9]%N |}] |},
          Ret tt)
  /\
  populate_pc 0%N get_floats put_dim get_dim (Run.loader d2) 5 Run.target
              (lit "/b")
  = Some ({| params := [{| name := lit "/U"; dim := [2; 3]%N;
                           values := [11; 12; 13; 14; 15; 16]%N;
                           g := [0; 0; 0; 0; 0; 17]%N |}];
             lookup_params := [{| lp_name := lit "/F"; all_dim := [4; 2]%N;
                                  all_values := [21; 22; 23; 24; 25; 26; 27; 28]%N;
                                  all_grads := [0; 0; 0; 0; 0; 0; 0; 29]%N |}] |},
          Ret tt).
Proof.
  intros B d1 d2.
  destruct (append_keeps_both_models _ 0%N _ _ _ _ _ decimal_text_laws
              Run.model B Run.target Run.target
              (lit "/a") (lit "/b") (lit "model.txt") 5
              ltac:(discriminate) eq_refl ltac:(repeat constructor)
              ltac:(discriminate) eq_refl ltac:(repeat constructor)
              eq_refl eq_refl
              ltac:(split; repeat constructor)
              ltac:(split; repeat constructor)
              ltac:(split; repeat constructor)
              ltac:(split; repeat constructor)
              ltac:(split; repeat constructor)
              ltac:(split; repeat constructor)
              ltac:(split; repeat constructor)
              ltac:(split; repeat constructor)
              ltac:(vm_compute; reflexivity)
              ltac:(cbn; lia))
    as (_ & _ & _ & Ha & Hb).
  split; [exact Ha|exact Hb].
Defined.


(** The Lookup Parameter of the model of [Run], saved under /a with the
    Parameter before it, populated by its key /a/E. *)
Lemma saved_model_read_by_entity_witness :
  let target : LookupParameterStorage N :=
    {| lp_name := lit "/F"; all_dim := [4; 2]%N;
       all_values := repeat 0%N 8; all_grads := repeat 0%N 8 |} in
  exists s,
    populate_lookup 0%N get_floats put_dim get_dim (Run.loader Run.saved) 3
                    target (lit "/a/E")
    = Some (s,
            {| lp_name := lit "/F"; all_dim := [4; 2]%N;
               all_values := [1; 2; 3; 4; 5; 6; 7; 8]%N;
               all_grads := [0; 0; 0; 0; 0; 0; 0; 9]%N |},
            Ret tt).
Proof.
  intros target.
  apply (proj2 (saved_model_read_by_entity _ 0%N _ _ _ _ _ decimal_text_laws
                  Run.model (lit "/a") (lit "model.txt") 3
                  ltac:(discriminate) eq_refl ltac:(repeat constructor)
                  ltac:(split; repeat constructor)
                  ltac:(split; repeat constructor)
                  ltac:(vm_compute; reflexivity)
                  ltac:(cbn; lia))
           [] Run.E [] target).
  - reflexivity.
  - constructor.
  - split; reflexivity.
  - reflexivity.
Defined.

End FurtherRuns.
